(** * Clinical Trials MCP server: request construction and result relay

    A shallow embedding of the three tools registered by the server
    ([list_studies], [get_study], [specific_fields_in_study]) together with
    the platform pieces their handlers call: [URL], [URLSearchParams],
    [encodeURIComponent], [fetch], [Response] and [JSON.stringify].  The
    stdio entry point and the HTTP entry point register the same three
    tools with the same handlers; they differ in the transport only.

    Conventions of the model.
    - A JavaScript string is a [string]: its UTF-8 bytes (both
      percent-encoders of the platform work on the UTF-8 bytes), a lone
      surrogate being the three bytes of its code point.
      [encodeURIComponent] refuses a string with a lone surrogate and
      [JSON.stringify] prints its escape; [URLSearchParams] is given for
      strings without one (the platform sends U+FFFD in its place).
    - A JavaScript number is a [number]: a double, held by its sign and the
      decimal digits and exponent [Number::toString] prints it from.
    - The tool arguments arrive as a JSON object, a [gmap string JSON]. *)

From Stdlib Require Import String Ascii ZArith NArith List Bool DecimalString.
From Stdlib Require Import Permutation DecimalPos DecimalN.
From stdpp Require Import base option gmap strings list.

Local Open Scope Z_scope.

(** ** Bytes and percent-encoding *)

Module Percent.

Definition code (c : ascii) : N := N_of_ascii c.

Definition is_digit (c : ascii) : bool :=
  ((48 <=? code c) && (code c <=? 57))%N.
Definition is_upper (c : ascii) : bool :=
  ((65 <=? code c) && (code c <=? 90))%N.
Definition is_lower (c : ascii) : bool :=
  ((97 <=? code c) && (code c <=? 122))%N.
Definition is_alnum (c : ascii) : bool :=
  is_digit c || is_upper c || is_lower c.

Definition mem (c : ascii) (set : string) : bool :=
  existsb (Ascii.eqb c) (list_ascii_of_string set).

(** Upper-case hexadecimal digit of a nibble. *)
Definition hex_upper (n : N) : ascii :=
  if (n <? 10)%N then ascii_of_N (48 + n) else ascii_of_N (55 + n).

(** [%XX] for one byte. *)
Definition encode_byte (c : ascii) : string :=
  String "%" (String (hex_upper (code c / 16))
             (String (hex_upper (code c mod 16)) EmptyString)).

Definition hex_value (c : ascii) : option N :=
  if is_digit c then Some (code c - 48)%N
  else if ((65 <=? code c) && (code c <=? 70))%N then Some (code c - 55)%N
  else if ((97 <=? code c) && (code c <=? 102))%N then Some (code c - 87)%N
  else None.

(** Percent-decoding of a byte sequence: a [%] followed by two hexadecimal
    digits is one byte, everything else stands for itself. *)
Fixpoint decode (s : string) : string :=
  match s with
  | EmptyString => EmptyString
  | String c t =>
      if Ascii.eqb c "%" then
        match t with
        | String h (String l rest) =>
            match hex_value h, hex_value l with
            | Some a, Some b =>
                String (ascii_of_N (16 * a + b)) (decode rest)
            | _, _ => String c (decode t)
            end
        | _ => String c (decode t)
        end
      else String c (decode t)
  end.

(** Percent-encoding of every byte outside of [keep]. *)
Fixpoint encode (keep : ascii -> bool) (s : string) : string :=
  match s with
  | EmptyString => EmptyString
  | String c t =>
      (if keep c then String c EmptyString else encode_byte c)
        +:+ encode keep t
  end.

End Percent.

(** ** Exceptions *)

Inductive Error : Type :=
| TypeError (message : string)
| SyntaxError (message : string)
| URIError (message : string).

(** [error.message] *)
Definition Error_message (e : Error) : string :=
  match e with
  | TypeError message | SyntaxError message | URIError message => message
  end.

(** ** [encodeURIComponent] *)

(** The unreserved set of [encodeURIComponent]: letters, digits and
    [- _ . ! ~ * ' ( )]. *)
Definition uri_unreserved (c : ascii) : bool :=
  Percent.is_alnum c || Percent.mem c "-_.!~*'()".

(** A surrogate that is not half of a pair: the byte ED followed by a byte
    from A0 to BF, the start of the three bytes of a code point from U+D800
    to U+DFFF.  (A code point beyond U+FFFF is its four bytes.) *)
Fixpoint has_lone_surrogate (s : string) : bool :=
  match s with
  | EmptyString => false
  | String c rest =>
      match rest with
      | EmptyString => false
      | String c' _ =>
          ((Percent.code c =? 237) && (160 <=? Percent.code c')
             && (Percent.code c' <=? 191))%N
          || has_lone_surrogate rest
      end
  end.

(** [encodeURIComponent(s)]: a [URIError] for a string with a lone
    surrogate, the percent-encoding of the UTF-8 bytes otherwise. *)
Definition encodeURIComponent (s : string) : Error + string :=
  if has_lone_surrogate s then inl (URIError "URI malformed")
  else inr (Percent.encode uri_unreserved s).

(** ** Numbers and [String(n)]

    A JavaScript number is a double.  A finite double other than zero is
    held by what [Number::toString] works with: its sign and the integers
    k, s and n with s of k digits, the fewest that still name the double,
    and the value s * 10^(n-k).  [Finite sign digits n] has the digits of s
    in [digits]; the first and the last of them are not 0. *)

Inductive digit : Type :=
| d0 | d1 | d2 | d3 | d4 | d5 | d6 | d7 | d8 | d9.

Inductive number : Type :=
| NaN
| Infinity (negative : bool)
| Zero (negative : bool)
| Finite (negative : bool) (digits : list digit) (n : Z).

Definition digit_char (d : digit) : ascii :=
  match d with
  | d0 => "0" | d1 => "1" | d2 => "2" | d3 => "3" | d4 => "4"
  | d5 => "5" | d6 => "6" | d7 => "7" | d8 => "8" | d9 => "9"
  end%char.

Fixpoint digits_text (l : list digit) : string :=
  match l with
  | [] => EmptyString
  | d :: rest => String (digit_char d) (digits_text rest)
  end.

Fixpoint uint_digits (u : Decimal.uint) : list digit :=
  match u with
  | Decimal.Nil => []
  | Decimal.D0 r => d0 :: uint_digits r
  | Decimal.D1 r => d1 :: uint_digits r
  | Decimal.D2 r => d2 :: uint_digits r
  | Decimal.D3 r => d3 :: uint_digits r
  | Decimal.D4 r => d4 :: uint_digits r
  | Decimal.D5 r => d5 :: uint_digits r
  | Decimal.D6 r => d6 :: uint_digits r
  | Decimal.D7 r => d7 :: uint_digits r
  | Decimal.D8 r => d8 :: uint_digits r
  | Decimal.D9 r => d9 :: uint_digits r
  end.

(** The decimal digits of a natural number, of 0 the one digit 0. *)
Definition digits_of_N (n : N) : list digit := uint_digits (N.to_uint n).

Definition is_d0 (d : digit) : bool :=
  match d with d0 => true | _ => false end.

(** The digits without the zeros at their end. *)
Fixpoint strip_trailing_zeros (l : list digit) : list digit :=
  match l with
  | [] => []
  | d :: rest =>
      match strip_trailing_zeros rest with
      | [] => if is_d0 d then [] else [d]
      | r => d :: r
      end
  end.

(** The number an integer is. *)
Definition number_of_Z (z : Z) : number :=
  match z with
  | Z0 => Zero false
  | Zpos p =>
      let l := uint_digits (Pos.to_uint p) in
      Finite false (strip_trailing_zeros l) (Z.of_nat (length l))
  | Zneg p =>
      let l := uint_digits (Pos.to_uint p) in
      Finite true (strip_trailing_zeros l) (Z.of_nat (length l))
  end.

#[global] Arguments number_of_Z : simpl never.

Definition is_finite (x : number) : bool :=
  match x with
  | Zero _ | Finite _ _ _ => true
  | NaN | Infinity _ => false
  end.

(** The exponent part: [e], the sign, the decimal digits. *)
Definition exponent_text (e : Z) : string :=
  (if e <? 0 then "e-" else "e+") +:+ digits_text (digits_of_N (Z.abs_N e)).

(** The steps of [Number::toString] once k, s and n are known: an integer
    with its zeros when k <= n <= 21, a fraction when 0 < n <= 21 or
    -6 < n <= 0, the exponent notation otherwise. *)
Definition String_of_finite (digits : list digit) (n : Z) : string :=
  let k := Z.of_nat (length digits) in
  if (k <=? n) && (n <=? 21) then
    digits_text (digits ++ replicate (Z.to_nat (n - k)) d0)
  else if (0 <? n) && (n <=? 21) then
    digits_text (take (Z.to_nat n) digits) +:+ "."
      +:+ digits_text (drop (Z.to_nat n) digits)
  else if (-6 <? n) && (n <=? 0) then
    "0." +:+ digits_text (replicate (Z.to_nat (- n)) d0 ++ digits)
  else
    match digits with
    | [d] => digits_text [d] +:+ exponent_text (n - 1)
    | d :: rest =>
        digits_text [d] +:+ "." +:+ digits_text rest
          +:+ exponent_text (n - 1)
    | [] => exponent_text (n - 1)
    end.

(** [String(x)], which is also the text of [x] in a template literal. *)
Definition String_of_number (x : number) : string :=
  match x with
  | NaN => "NaN"
  | Infinity false => "Infinity"
  | Infinity true => "-Infinity"
  | Zero _ => "0"
  | Finite negative digits n =>
      (if negative then "-" else EmptyString) +:+ String_of_finite digits n
  end.

(** ** [URLSearchParams] *)

Module URLSearchParams.

(** The list of name/value tuples, in order. *)
Definition t : Type := list (string * string).

Definition remove_name (name : string) (l : t) : t :=
  List.filter (fun p => negb (String.eqb (fst p) name)) l.

(** [set(name, value)]: the first tuple called [name] takes the value and
    the later ones are removed; without such a tuple one is appended. *)
Fixpoint set (name value : string) (l : t) : t :=
  match l with
  | [] => [(name, value)]
  | (k, v) :: rest =>
      if String.eqb k name then (name, value) :: remove_name name rest
      else (k, v) :: set name value rest
  end.

(** [get(name)]: the value of the first tuple called [name]. *)
Fixpoint get (name : string) (l : t) : option string :=
  match l with
  | [] => None
  | (k, v) :: rest => if String.eqb k name then Some v else get name rest
  end.

Definition has (name : string) (l : t) : bool :=
  existsb (fun p => String.eqb (fst p) name) l.

(** The application/x-www-form-urlencoded byte serializer: letters,
    digits and [* - . _] stay, a space becomes [+], any other byte is
    percent-encoded. *)
Definition form_keep (c : ascii) : bool :=
  Percent.is_alnum c || Percent.mem c "*-._".

Definition form_encode_byte (c : ascii) : string :=
  if Ascii.eqb c " " then "+"
  else if form_keep c then String c EmptyString
  else Percent.encode_byte c.

Fixpoint form_encode (s : string) : string :=
  match s with
  | EmptyString => EmptyString
  | String c t => form_encode_byte c +:+ form_encode t
  end.

Definition serialize_tuple (p : string * string) : string :=
  form_encode (fst p) +:+ "=" +:+ form_encode (snd p).

Fixpoint join (sep : string) (l : list string) : string :=
  match l with
  | [] => EmptyString
  | [x] => x
  | x :: rest => x +:+ sep +:+ join sep rest
  end.

Definition serialize (l : t) : string :=
  join "&" (List.map serialize_tuple l).

(** The application/x-www-form-urlencoded parser, the reading a server
    gives to a query string. *)
Fixpoint split (sep : ascii) (s : string) : list string :=
  match s with
  | EmptyString => [EmptyString]
  | String c rest =>
      if Ascii.eqb c sep then EmptyString :: split sep rest
      else match split sep rest with
           | [] => [String c EmptyString]
           | h :: tl => String c h :: tl
           end
  end.

Fixpoint cut (sep : ascii) (s : string) : string * string :=
  match s with
  | EmptyString => (EmptyString, EmptyString)
  | String c rest =>
      if Ascii.eqb c sep then (EmptyString, rest)
      else let '(a, b) := cut sep rest in (String c a, b)
  end.

Fixpoint plus_to_space (s : string) : string :=
  match s with
  | EmptyString => EmptyString
  | String c rest =>
      String (if Ascii.eqb c "+" then " "%char else c) (plus_to_space rest)
  end.

Definition form_decode (s : string) : string :=
  Percent.decode (plus_to_space s).

Definition parse_tuple (s : string) : string * string :=
  let '(n, v) := cut "=" s in (form_decode n, form_decode v).

Definition parse (s : string) : t :=
  List.map parse_tuple
    (List.filter (fun piece => negb (String.eqb piece EmptyString))
                 (split "&" s)).

End URLSearchParams.


(** ** [URL] *)

(** An absolute URL: everything before the query, and the query as the
    tuples of its [searchParams] object.  (No fragment, no dot segment: the
    only URL the handlers parse is the literal list endpoint.) *)
Record URL : Type := mkURL {
  href_path : string;
  searchParams : URLSearchParams.t
}.

Definition new_URL (s : string) : URL :=
  let '(p, q) := URLSearchParams.cut "?" s in
  {| href_path := p; searchParams := URLSearchParams.parse q |}.

(** [url.searchParams.set(name, value)] *)
Definition searchParams_set (name value : string) (u : URL) : URL :=
  {| href_path := href_path u;
     searchParams := URLSearchParams.set name value (searchParams u) |}.

(** [url.toString()]: an empty tuple list leaves the URL without a query. *)
Definition URL_toString (u : URL) : string :=
  match searchParams u with
  | [] => href_path u
  | l => href_path u +:+ "?" +:+ URLSearchParams.serialize l
  end.

(** The query of a URL given as text: what follows the first [?]. *)
Definition href_query (href : string) : option string :=
  if Percent.mem "?" href then Some (snd (URLSearchParams.cut "?" href))
  else None.

(** The value a URL given as text carries for a query key. *)
Definition href_param (href name : string) : option string :=
  match href_query href with
  | Some q => URLSearchParams.get name (URLSearchParams.parse q)
  | None => None
  end.

(** ** The URL parser on the text given to [fetch]

    Of what the parser does, the handlers' URLs (https, a lower-case host,
    the characters their encoders let through) meet one thing only: a path
    segment that is a dot or two dots is resolved. *)

Definition is_e (c : ascii) : bool :=
  Ascii.eqb c "e" || Ascii.eqb c "E".

(** What follows a leading dot, written [.] or [%2e]. *)
Definition after_dot (s : string) : option string :=
  match s with
  | String c rest =>
      if Ascii.eqb c "." then Some rest
      else if Ascii.eqb c "%" then
        match rest with
        | String c2 (String c3 rest') =>
            if Ascii.eqb c2 "2" && is_e c3 then Some rest' else None
        | _ => None
        end
      else None
  | EmptyString => None
  end.

Definition is_single_dot (segment : string) : bool :=
  match after_dot segment with
  | Some EmptyString => true
  | _ => false
  end.

Definition is_double_dot (segment : string) : bool :=
  match after_dot segment with
  | Some rest => is_single_dot rest
  | None => false
  end.

(** The path state of the parser, segment by segment; [path] is the path
    so far, last segment first. *)
Fixpoint resolve_dots (path segments : list string) : list string :=
  match segments with
  | [] => List.rev path
  | segment :: more =>
      if is_double_dot segment then
        match more with
        | [] => List.rev (EmptyString :: List.tl path)
        | _ => resolve_dots (List.tl path) more
        end
      else if is_single_dot segment then
        match more with
        | [] => List.rev (EmptyString :: path)
        | _ => resolve_dots path more
        end
      else resolve_dots (segment :: path) more
  end.

(** The URL as the parser serializes it: scheme, host, the resolved path,
    and the query as it stands. *)
Definition request_href (url : string) : string :=
  let '(before, query) := URLSearchParams.cut "?" url in
  let query := if Percent.mem "?" url then "?" +:+ query else EmptyString in
  match URLSearchParams.split "/" before with
  | scheme :: EmptyString :: host :: segments =>
      scheme +:+ "//" +:+ host +:+ "/"
        +:+ URLSearchParams.join "/" (resolve_dots [] segments) +:+ query
  | _ => url
  end.

(** ** JSON values and [JSON.stringify] *)

#[warnings="-register-all"]
Inductive JSON : Type :=
| JNull
| JBool (b : bool)
| JNumber (x : number)
| JString (s : string)
| JArray (items : list JSON)
| JObject (members : list (string * JSON)).

(** Lower-case hexadecimal digit, as in a [\u00XX] escape. *)
Definition hex_lower (n : N) : ascii :=
  if (n <? 10)%N then ascii_of_N (48 + n) else ascii_of_N (87 + n).

Definition QuoteJSONChar (c : ascii) : string :=
  let n := N_of_ascii c in
  if (n =? 8)%N then "\b"
  else if (n =? 9)%N then "\t"
  else if (n =? 10)%N then "\n"
  else if (n =? 12)%N then "\f"
  else if (n =? 13)%N then "\r"
  else if (n =? 34)%N then String "\" (String c EmptyString)
  else if (n =? 92)%N then "\\"
  else if (n <? 32)%N then
    "\u00" +:+ String (hex_lower (n / 16))
                (String (hex_lower (n mod 16)) EmptyString)
  else String c EmptyString.

(** The three bytes of a surrogate code point: ED, a byte from A0 to BF, a
    byte from 80 to BF; and the code point they write. *)
Definition is_surrogate_bytes (c c2 c3 : ascii) : bool :=
  ((N_of_ascii c =? 237)
   && (160 <=? N_of_ascii c2) && (N_of_ascii c2 <=? 191)
   && (128 <=? N_of_ascii c3) && (N_of_ascii c3 <=? 191))%N.

Definition surrogate_code (c2 c3 : ascii) : N :=
  (53248 + (N_of_ascii c2 - 128) * 64 + (N_of_ascii c3 - 128))%N.

(** [\uXXXX] with lower-case hexadecimal digits. *)
Definition UnicodeEscape (cp : N) : string :=
  "\u"
    +:+ String (hex_lower (cp / 4096))
          (String (hex_lower ((cp / 256) mod 16))
             (String (hex_lower ((cp / 16) mod 16))
                (String (hex_lower (cp mod 16)) EmptyString))).

(** Character by character: a lone surrogate is written as its escape, a
    character of the table or below U+0020 as [QuoteJSONChar] has it, and
    any other one as it is. *)
Fixpoint QuoteJSONBody (s : string) : string :=
  match s with
  | EmptyString => EmptyString
  | String c t =>
      match t with
      | String c2 (String c3 t3) =>
          if is_surrogate_bytes c c2 c3 then
            UnicodeEscape (surrogate_code c2 c3) +:+ QuoteJSONBody t3
          else QuoteJSONChar c +:+ QuoteJSONBody t
      | _ => QuoteJSONChar c +:+ QuoteJSONBody t
      end
  end.

Definition dquote : string := String (ascii_of_N 34) EmptyString.
Definition newline : string := String (ascii_of_N 10) EmptyString.

Definition QuoteJSONString (s : string) : string :=
  dquote +:+ QuoteJSONBody s +:+ dquote.

(** The text of an array or an object from the texts of its parts. *)
Definition SerializeJSONGroup (open close gap stepback : string)
    (partial : list string) : string :=
  let indent := stepback +:+ gap in
  match partial with
  | [] => open +:+ close
  | _ =>
      if String.eqb gap EmptyString then
        open +:+ URLSearchParams.join "," partial +:+ close
      else
        open +:+ newline +:+ indent
          +:+ URLSearchParams.join ("," +:+ newline +:+ indent) partial
          +:+ newline +:+ stepback +:+ close
  end.

Fixpoint SerializeJSONProperty (gap stepback : string) (v : JSON) : string :=
  match v with
  | JNull => "null"
  | JBool true => "true"
  | JBool false => "false"
  | JNumber x => if is_finite x then String_of_number x else "null"
  | JString s => QuoteJSONString s
  | JArray items =>
      SerializeJSONGroup "[" "]" gap stepback
        (List.map (SerializeJSONProperty gap (stepback +:+ gap)) items)
  | JObject members =>
      SerializeJSONGroup "{" "}" gap stepback
        (List.map
           (fun '(k, x) =>
              QuoteJSONString k +:+ ":"
                +:+ (if String.eqb gap EmptyString then EmptyString else " ")
                +:+ SerializeJSONProperty gap (stepback +:+ gap) x)
           members)
  end.

Fixpoint spaces (n : nat) : string :=
  match n with
  | O => EmptyString
  | S k => String " " (spaces k)
  end.

(** [JSON.stringify(value, null, space)] for a number [space]: the gap is
    that many spaces, ten at most. *)
Definition JSON_stringify (value : JSON) (space : nat) : string :=
  SerializeJSONProperty (spaces (Nat.min 10 space)) EmptyString value.

(** ** [fetch], [Response] and asynchronous handlers *)

Record Response : Type := mkResponse {
  status : Z;
  statusText : string;
  body : string
}.

(** [res.ok]: the status is in the range 200-299. *)
Definition ok (res : Response) : bool :=
  (200 <=? status res) && (status res <=? 299).

(** An asynchronous computation: it runs against the list of the URLs
    requested so far, and either throws or returns. *)
Definition Async (A : Type) : Type :=
  list string -> list string * (Error + A).

#[global] Instance Async_ret : MRet Async :=
  fun A (a : A) requests => (requests, inr a).

#[global] Instance Async_bind : MBind Async :=
  fun A B (k : A -> Async B) (m : Async A) requests =>
    match m requests with
    | (requests', inl e) => (requests', inl e)
    | (requests', inr a) => k a requests'
    end.

Definition throw {A : Type} (e : Error) : Async A :=
  fun requests => (requests, inl e).

(** A step that does not wait: it throws or it has its value at once. *)
Definition now_or_throw {A : Type} (r : Error + A) : Async A :=
  match r with
  | inl e => throw e
  | inr a => mret a
  end.

(** ** The tool result *)

Record ContentBlock : Type := mkContentBlock {
  type : string;
  text : string
}.

Record CallToolResult : Type := mkCallToolResult {
  content : list ContentBlock
}.

(** ** The schema combinators (zod)

    A schema reads the value found under a key of the arguments object,
    [None] for a key that is not there, and either rejects it or yields the
    parsed value. *)

Definition Schema (A : Type) : Type := option JSON -> option A.

(** [z.string()] *)
Definition z_string : Schema string :=
  fun v => match v with Some (JString s) => Some s | _ => None end.

(** [z.number()]: a number that is finite. *)
Definition z_number : Schema number :=
  fun v =>
    match v with
    | Some (JNumber x) => if is_finite x then Some x else None
    | _ => None
    end.

(** [.optional()]: a missing value is accepted as it is. *)
Definition z_optional {A : Type} (inner : Schema A) : Schema (option A) :=
  fun v => match v with None => Some None | Some _ => Some <$> inner v end.

(** [.default(d)]: a missing value is replaced by [d] before the inner
    schema reads it. *)
Definition z_default {A : Type} (d : JSON) (inner : Schema A) : Schema A :=
  fun v => match v with None => inner (Some d) | Some _ => inner v end.

(** ** The platform: the upstream service and the JSON reader

    [fetch_outcome url] is what [fetch(url)] settles to: a rejection or a
    response.  [JSON_parse] is the reader behind [res.json()]. *)

Section Platform.

Variable fetch_outcome : string -> Error + Response.
Variable JSON_parse : string -> option JSON.

(** [fetch(url)]: the text is parsed as a URL, and the request goes to the
    URL it then is. *)
Definition fetch (url : string) : Async Response :=
  fun requests =>
    let href := request_href url in
    (requests ++ [href],
     match fetch_outcome href with
     | inl e => inl e
     | inr res => inr res
     end).

(** [res.text()]: the body, which the response holds as received. *)
Definition Response_text (res : Response) : Async string :=
  mret (body res).

(** [res.json()]: the body read as JSON, a [SyntaxError] when it is not. *)
Definition Response_json (res : Response) : Async JSON :=
  match JSON_parse (body res) with
  | Some data => mret data
  | None => throw (SyntaxError "Unexpected token in JSON")
  end.

End Platform.

Definition BASE_URL : string := "https://clinicaltrials.gov/api/v2".

(** The test of [if (x)] on a value that is a string or undefined. *)
Definition truthy (x : option string) : bool :=
  match x with
  | Some s => negb (String.eqb s EmptyString)
  | None => false
  end.

(** [if (x) url.searchParams.set(name, x);] *)
Definition set_if_truthy (name : string) (x : option string) (u : URL) : URL :=
  if truthy x then searchParams_set name (default EmptyString x) u else u.

(** How the run of a registered tool ends: the arguments are refused by the
    schema and the handler is not run, or the handler throws, or it
    returns.  What the client is then answered is [McpServer_reply]. *)
Inductive Outcome : Type :=
| InvalidParams
| Threw (e : Error)
| Returned (r : CallToolResult).

(** A tool as [server.tool(name, shape, handler)] registers it: the
    arguments object is parsed with the shape, and the handler runs on the
    parsed arguments only.  An exception of the handler is kept as the
    outcome [Threw]; the server catches it ([McpServer_callTool]). *)
Definition call_tool {A : Type} (shape : gmap string JSON -> option A)
    (handler : A -> Async CallToolResult) (arguments : gmap string JSON)
    : list string -> list string * Outcome :=
  fun requests =>
    match shape arguments with
    | None => (requests, InvalidParams)
    | Some a =>
        match handler a requests with
        | (requests', inl e) => (requests', Threw e)
        | (requests', inr r) => (requests', Returned r)
        end
    end.

(** ** TOOL 1: list_studies *)

Module list_studies.

Record Args : Type := mkArgs {
  cond : string;
  term : option string;
  locn : option string;
  overallStatus : option string;
  pageSize : option number;
  format : option string;
  fields : option string;
  countTotal : option string;
  pageToken : option string
}.

Definition shape (o : gmap string JSON) : option Args :=
  cond ← z_string (o !! "cond");
  term ← z_optional z_string (o !! "term");
  locn ← z_optional z_string (o !! "locn");
  overallStatus ← z_optional z_string (o !! "overallStatus");
  pageSize ← z_default (JNumber (number_of_Z 20)) (z_optional z_number) (o !! "pageSize");
  format ← z_default (JString "json") (z_optional z_string) (o !! "format");
  fields ← z_optional z_string (o !! "fields");
  countTotal ←
    z_default (JString "true") (z_optional z_string) (o !! "countTotal");
  pageToken ← z_optional z_string (o !! "pageToken");
  Some (mkArgs cond term locn overallStatus pageSize format fields
               countTotal pageToken).

(** The URL object when [fetch] is reached. *)
Definition build (a : Args) : URL :=
  let pageSize := default (number_of_Z 20) (pageSize a) in
  let format := default "json" (format a) in
  let countTotal := default "true" (countTotal a) in
  let url := new_URL (BASE_URL +:+ "/studies") in
  (* Required *)
  let url := searchParams_set "query.cond" (cond a) url in
  (* Optional *)
  let url := set_if_truthy "query.term" (term a) url in
  let url := set_if_truthy "query.locn" (locn a) url in
  let url := set_if_truthy "filter.overallStatus" (overallStatus a) url in
  let url := set_if_truthy "fields" (fields a) url in
  let url := set_if_truthy "pageToken" (pageToken a) url in
  (* Always set *)
  let url := searchParams_set "pageSize" (String_of_number pageSize) url in
  let url := searchParams_set "format" format url in
  let url := searchParams_set "countTotal" countTotal url in
  url.

Definition handler (fetch_outcome : string -> Error + Response)
    (JSON_parse : string -> option JSON) (a : Args)
    : Async CallToolResult :=
  let url := build a in
  res ← fetch fetch_outcome (URL_toString url);
  if negb (ok res) then
    text ← Response_text res;
    mret {| content :=
      [ {| type := "text";
           text := "ClinicalTrials.gov error: "
                     +:+ String_of_number (number_of_Z (status res)) +:+ " "
                     +:+ statusText res +:+ newline +:+ text |} ] |}
  else
    data ← Response_json JSON_parse res;
    mret {| content :=
      [ {| type := "text"; text := JSON_stringify data 2 |} ] |}.

End list_studies.

(** ** TOOL 2: get_study *)

Module get_study.

Record Args : Type := mkArgs {
  nct_id : string
}.

Definition shape (o : gmap string JSON) : option Args :=
  nct_id ← z_string (o !! "nct_id");
  Some (mkArgs nct_id).

(** The template literal of the URL; [encodeURIComponent] may throw. *)
Definition build (a : Args) : Error + string :=
  match encodeURIComponent (nct_id a) with
  | inl e => inl e
  | inr segment => inr (BASE_URL +:+ "/studies/" +:+ segment)
  end.

Definition handler (fetch_outcome : string -> Error + Response)
    (JSON_parse : string -> option JSON) (a : Args)
    : Async CallToolResult :=
  url ← now_or_throw (build a);
  res ← fetch fetch_outcome url;
  if negb (ok res) then
    text ← Response_text res;
    mret {| content :=
      [ {| type := "text";
           text := "ClinicalTrials.gov error: "
                     +:+ String_of_number (number_of_Z (status res)) +:+ " "
                     +:+ statusText res +:+ newline +:+ text |} ] |}
  else
    data ← Response_json JSON_parse res;
    mret {| content :=
      [ {| type := "text"; text := JSON_stringify data 2 |} ] |}.

End get_study.

(** ** TOOL 3: specific_fields_in_study *)

Module specific_fields_in_study.

Record Args : Type := mkArgs {
  cond : string;
  fields : string;
  term : option string;
  locn : option string;
  overallStatus : option string;
  pageSize : option number;
  format : option string;
  countTotal : option string;
  pageToken : option string
}.

Definition shape (o : gmap string JSON) : option Args :=
  cond ← z_string (o !! "cond");
  fields ← z_string (o !! "fields");
  term ← z_optional z_string (o !! "term");
  locn ← z_optional z_string (o !! "locn");
  overallStatus ← z_optional z_string (o !! "overallStatus");
  pageSize ← z_default (JNumber (number_of_Z 20)) (z_optional z_number) (o !! "pageSize");
  format ← z_default (JString "json") (z_optional z_string) (o !! "format");
  countTotal ←
    z_default (JString "true") (z_optional z_string) (o !! "countTotal");
  pageToken ← z_optional z_string (o !! "pageToken");
  Some (mkArgs cond fields term locn overallStatus pageSize format
               countTotal pageToken).

Definition build (a : Args) : URL :=
  let pageSize := default (number_of_Z 20) (pageSize a) in
  let format := default "json" (format a) in
  let countTotal := default "true" (countTotal a) in
  let url := new_URL (BASE_URL +:+ "/studies") in
  let url := searchParams_set "query.cond" (cond a) url in
  let url := searchParams_set "fields" (fields a) url in
  let url := set_if_truthy "query.term" (term a) url in
  let url := set_if_truthy "query.locn" (locn a) url in
  let url := set_if_truthy "filter.overallStatus" (overallStatus a) url in
  let url := set_if_truthy "pageToken" (pageToken a) url in
  let url := searchParams_set "pageSize" (String_of_number pageSize) url in
  let url := searchParams_set "format" format url in
  let url := searchParams_set "countTotal" countTotal url in
  url.

Definition handler (fetch_outcome : string -> Error + Response)
    (JSON_parse : string -> option JSON) (a : Args)
    : Async CallToolResult :=
  let url := build a in
  res ← fetch fetch_outcome (URL_toString url);
  if negb (ok res) then
    text ← Response_text res;
    mret {| content :=
      [ {| type := "text";
           text := "ClinicalTrials.gov error: "
                     +:+ String_of_number (number_of_Z (status res)) +:+ " "
                     +:+ statusText res +:+ newline +:+ text |} ] |}
  else
    data ← Response_json JSON_parse res;
    mret {| content :=
      [ {| type := "text"; text := JSON_stringify data 2 |} ] |}.

End specific_fields_in_study.

Definition separator (c : ascii) : Prop :=
  c = "&"%char \/ c = "="%char \/ c = "?"%char \/ c = "#"%char
  \/ c = "/"%char.

Definition opt_param (name : string) (x : option string)
    : URLSearchParams.t :=
  if truthy x then [(name, default EmptyString x)] else [].

Definition studies_endpoint : string :=
  "https://clinicaltrials.gov/api/v2/studies".

Definition text_result (t : string) : CallToolResult :=
  {| content := [ {| type := "text"; text := t |} ] |}.

Definition error_text (res : Response) : string :=
  "ClinicalTrials.gov error: " +:+ String_of_number (number_of_Z (status res)) +:+ " "
    +:+ statusText res +:+ newline +:+ body res.

(** ** The server: its three registered tools *)

Inductive ToolName : Type :=
| list_studies_tool
| get_study_tool
| specific_fields_in_study_tool.

Definition tool_name (t : ToolName) : string :=
  match t with
  | list_studies_tool => "list_studies"
  | get_study_tool => "get_study"
  | specific_fields_in_study_tool => "specific_fields_in_study"
  end.

(** A call of one of the tools with an arguments object. *)
Definition server_call (fetch_outcome : string -> Error + Response)
    (JSON_parse : string -> option JSON) (t : ToolName)
    (arguments : gmap string JSON)
    : list string -> list string * Outcome :=
  match t with
  | list_studies_tool =>
      call_tool list_studies.shape
        (list_studies.handler fetch_outcome JSON_parse) arguments
  | get_study_tool =>
      call_tool get_study.shape
        (get_study.handler fetch_outcome JSON_parse) arguments
  | specific_fields_in_study_tool =>
      call_tool specific_fields_in_study.shape
        (specific_fields_in_study.handler fetch_outcome JSON_parse) arguments
  end.

(** The URL a tool requests for an arguments object: there is none when
    the schema refuses the arguments, or when building the URL throws. *)
Definition request_url (t : ToolName) (arguments : gmap string JSON)
    : option string :=
  match t with
  | list_studies_tool =>
      (fun a => URL_toString (list_studies.build a))
        <$> list_studies.shape arguments
  | get_study_tool =>
      a ← get_study.shape arguments;
      match get_study.build a with
      | inl _ => None
      | inr url => Some (request_href url)
      end
  | specific_fields_in_study_tool =>
      (fun a => URL_toString (specific_fields_in_study.build a))
        <$> specific_fields_in_study.shape arguments
  end.

(** [needle] occurs in [hay]. *)
Definition Substring (needle hay : string) : Prop :=
  exists before after, hay = before +:+ needle +:+ after.

(** [res.ok] said with the status. *)
Definition success_status (res : Response) : Prop :=
  200 <= status res <= 299.

Definition study_endpoint : string :=
  "https://clinicaltrials.gov/api/v2/studies/".

(** ** The optional text parameters of the two list tools *)

Inductive OptionalParam : Type :=
| opt_term
| opt_locn
| opt_overallStatus
| opt_fields
| opt_pageToken.

(** The key of the arguments object. *)
Definition argument_key (p : OptionalParam) : string :=
  match p with
  | opt_term => "term"
  | opt_locn => "locn"
  | opt_overallStatus => "overallStatus"
  | opt_fields => "fields"
  | opt_pageToken => "pageToken"
  end.

(** The key of the query the handlers map it to. *)
Definition query_key (p : OptionalParam) : string :=
  match p with
  | opt_term => "query.term"
  | opt_locn => "query.locn"
  | opt_overallStatus => "filter.overallStatus"
  | opt_fields => "fields"
  | opt_pageToken => "pageToken"
  end.

(** [fields] is optional for list_studies only. *)
Definition optional_for (t : ToolName) (p : OptionalParam) : bool :=
  match t, p with
  | list_studies_tool, _ => true
  | specific_fields_in_study_tool, opt_fields => false
  | specific_fields_in_study_tool, _ => true
  | get_study_tool, _ => false
  end.

Definition list_studies_optional (a : list_studies.Args)
    (p : OptionalParam) : option string :=
  match p with
  | opt_term => list_studies.term a
  | opt_locn => list_studies.locn a
  | opt_overallStatus => list_studies.overallStatus a
  | opt_fields => list_studies.fields a
  | opt_pageToken => list_studies.pageToken a
  end.

Definition specific_fields_optional (a : specific_fields_in_study.Args)
    (p : OptionalParam) : option string :=
  match p with
  | opt_term => specific_fields_in_study.term a
  | opt_locn => specific_fields_in_study.locn a
  | opt_overallStatus => specific_fields_in_study.overallStatus a
  | opt_fields => Some (specific_fields_in_study.fields a)
  | opt_pageToken => specific_fields_in_study.pageToken a
  end.

(** The arguments of specific_fields_in_study as list_studies reads them:
    the same values, [fields] among them. *)
Definition as_list_studies (a : specific_fields_in_study.Args)
    : list_studies.Args :=
  {| list_studies.cond := specific_fields_in_study.cond a;
     list_studies.term := specific_fields_in_study.term a;
     list_studies.locn := specific_fields_in_study.locn a;
     list_studies.overallStatus := specific_fields_in_study.overallStatus a;
     list_studies.pageSize := specific_fields_in_study.pageSize a;
     list_studies.format := specific_fields_in_study.format a;
     list_studies.fields := Some (specific_fields_in_study.fields a);
     list_studies.countTotal := specific_fields_in_study.countTotal a;
     list_studies.pageToken := specific_fields_in_study.pageToken a |}.

(** ** The second half of the three handlers

    From [fetch] on the three handlers are the same text: a response that
    is not [ok] becomes the error text, any other one the pretty-printed
    JSON of its body. *)
Definition relay (fetch_outcome : string -> Error + Response)
    (JSON_parse : string -> option JSON) (url : string)
    : Async CallToolResult :=
  res ← fetch fetch_outcome url;
  if negb (ok res) then
    text ← Response_text res;
    mret (text_result (error_text res))
  else
    data ← Response_json JSON_parse res;
    mret (text_result (JSON_stringify data 2)).

(** The words every error text of the handlers starts with. *)
Definition error_prefix : string := "ClinicalTrials.gov error: ".

(** ** What a schema looks at in the value under a key *)

(** A text. *)
Definition is_text (v : option JSON) : bool :=
  match v with Some (JString _) => true | _ => false end.

(** Nothing, or a text. *)
Definition is_optional_text (v : option JSON) : bool :=
  match v with None | Some (JString _) => true | _ => false end.

(** Nothing, or a number that is finite. *)
Definition is_optional_number (v : option JSON) : bool :=
  match v with
  | None => true
  | Some (JNumber x) => is_finite x
  | _ => false
  end.

(** The keys of the arguments object each tool declares. *)
Definition tool_keys (t : ToolName) : list string :=
  match t with
  | list_studies_tool =>
      ["cond"; "term"; "locn"; "overallStatus"; "pageSize"; "format";
       "fields"; "countTotal"; "pageToken"]
  | get_study_tool => ["nct_id"]
  | specific_fields_in_study_tool =>
      ["cond"; "fields"; "term"; "locn"; "overallStatus"; "pageSize";
       "format"; "countTotal"; "pageToken"]
  end.

(** The tuples a server reads in the query of a URL given as text. *)
Definition sent_tuples (url : string) : URLSearchParams.t :=
  match href_query url with
  | Some q => URLSearchParams.parse q
  | None => []
  end.

(** The nine keys of the list endpoint. *)
Definition query_keys : list string :=
  ["query.cond"; "query.term"; "query.locn"; "filter.overallStatus";
   "fields"; "pageToken"; "pageSize"; "format"; "countTotal"].

(** The characters the handlers let into the text of a URL: letters,
    digits, the marks the two encoders keep, and the separators. *)
Definition url_char (c : ascii) : bool :=
  Percent.is_alnum c || Percent.mem c "-_.!~*'()%+:/?=&".

Fixpoint string_forallb (p : ascii -> bool) (s : string) : bool :=
  match s with
  | EmptyString => true
  | String c rest => p c && string_forallb p rest
  end.

(** An optional argument that is left out, or there as the empty text. *)
Definition left_out (v : option JSON) : Prop :=
  v = None \/ v = Some (JString EmptyString).

(** The first character of [s] is [c]. *)
Definition head_is (c : ascii) (s : string) : bool :=
  match s with
  | String x _ => Ascii.eqb x c
  | EmptyString => false
  end.

(** The characters of [String(x)]. *)
Definition number_text_char (c : ascii) : bool :=
  Percent.is_digit c || Percent.mem c ".e+-NaInfity".

(** What a handler ends in once the request to [href] is answered. *)
Definition settle (fetch_outcome : string -> Error + Response)
    (JSON_parse : string -> option JSON) (href : string)
    : Error + CallToolResult :=
  match fetch_outcome href with
  | inl e => inl e
  | inr res =>
      if ok res then
        match JSON_parse (body res) with
        | Some data => inr (text_result (JSON_stringify data 2))
        | None => inl (SyntaxError "Unexpected token in JSON")
        end
      else inr (text_result (error_text res))
  end.

Definition outcome_of (r : Error + CallToolResult) : Outcome :=
  match r with
  | inl e => Threw e
  | inr x => Returned x
  end.

(** ** McpServer: what the client is answered

    The server answers a call whose arguments the schema refuses with an
    error of its own.  It runs the handler inside a [try]: the result of a
    handler that returns is passed on, and a handler that throws is
    answered with a result whose one text block is the message of the
    exception and whose [isError] is set. *)

Inductive Reply : Type :=
| InvalidParamsReply
| ResultReply (result : CallToolResult) (isError : bool).

Definition McpServer_reply (outcome : Outcome) : Reply :=
  match outcome with
  | InvalidParams => InvalidParamsReply
  | Threw e => ResultReply (text_result (Error_message e)) true
  | Returned r => ResultReply r false
  end.

(** A [tools/call] request for one of the three tools. *)
Definition McpServer_callTool (fetch_outcome : string -> Error + Response)
    (JSON_parse : string -> option JSON) (t : ToolName)
    (arguments : gmap string JSON)
    : list string -> list string * Reply :=
  fun requests =>
    let '(requests', outcome) :=
      server_call fetch_outcome JSON_parse t arguments requests in
    (requests', McpServer_reply outcome).

(** ** The pretty-printed form, said with the depth

    The layout the words "pretty-printed with an indent of two spaces"
    name: a scalar on its line; an array or an object with each part on a
    line of its own, two spaces deeper than the bracket that closes it; an
    empty array or object without a line break. *)

Fixpoint items_text {A : Type} (f : A -> string) (sep : string)
    (l : list A) : string :=
  match l with
  | [] => EmptyString
  | x :: rest => sep +:+ f x +:+ items_text f sep rest
  end.

Definition line_break (depth : nat) : string :=
  newline +:+ spaces (2 * depth).

Fixpoint pretty (depth : nat) (v : JSON) : string :=
  match v with
  | JNull => "null"
  | JBool true => "true"
  | JBool false => "false"
  | JNumber x => if is_finite x then String_of_number x else "null"
  | JString s => QuoteJSONString s
  | JArray [] => "[]"
  | JArray (x :: rest) =>
      "[" +:+ line_break (S depth) +:+ pretty (S depth) x
        +:+ items_text (pretty (S depth)) ("," +:+ line_break (S depth)) rest
        +:+ line_break depth +:+ "]"
  | JObject [] => "{}"
  | JObject ((k, x) :: rest) =>
      "{" +:+ line_break (S depth)
        +:+ QuoteJSONString k +:+ ": " +:+ pretty (S depth) x
        +:+ items_text
              (fun '(k', x') =>
                 QuoteJSONString k' +:+ ": " +:+ pretty (S depth) x')
              ("," +:+ line_break (S depth)) rest
        +:+ line_break depth +:+ "}"
  end.

(** ** Reading a JSON text

    The value a JSON text stands for (RFC 8259), to say what a text shows.
    A number is read as the decimal it is written as; the members of an
    object are kept as written. *)

Module JSONText.

Definition is_ws (c : ascii) : bool :=
  Percent.mem c (String (ascii_of_N 32) (String (ascii_of_N 9)
                  (String (ascii_of_N 10) (String (ascii_of_N 13) EmptyString)))).

Fixpoint skip_ws (s : string) : string :=
  match s with
  | EmptyString => EmptyString
  | String c rest => if is_ws c then skip_ws rest else s
  end.

Definition char_digit (c : ascii) : option digit :=
  let n := Percent.code c in
  if (n =? 48)%N then Some d0 else if (n =? 49)%N then Some d1
  else if (n =? 50)%N then Some d2 else if (n =? 51)%N then Some d3
  else if (n =? 52)%N then Some d4 else if (n =? 53)%N then Some d5
  else if (n =? 54)%N then Some d6 else if (n =? 55)%N then Some d7
  else if (n =? 56)%N then Some d8 else if (n =? 57)%N then Some d9
  else None.

(** The longest run of digits a text starts with, and what follows. *)
Fixpoint read_digits (s : string) : list digit * string :=
  match s with
  | EmptyString => ([], EmptyString)
  | String c rest =>
      match char_digit c with
      | Some d => let '(l, r) := read_digits rest in (d :: l, r)
      | None => ([], s)
      end
  end.

Fixpoint digits_uint (l : list digit) : Decimal.uint :=
  match l with
  | [] => Decimal.Nil
  | d :: rest =>
      let r := digits_uint rest in
      match d with
      | d0 => Decimal.D0 r | d1 => Decimal.D1 r | d2 => Decimal.D2 r
      | d3 => Decimal.D3 r | d4 => Decimal.D4 r | d5 => Decimal.D5 r
      | d6 => Decimal.D6 r | d7 => Decimal.D7 r | d8 => Decimal.D8 r
      | d9 => Decimal.D9 r
      end
  end.

Definition digits_N (l : list digit) : N := N.of_uint (digits_uint l).

Fixpoint strip_leading_zeros (l : list digit) : list digit :=
  match l with
  | d :: rest => if is_d0 d then strip_leading_zeros rest else l
  | [] => []
  end.

(** The number with the integer digits [int], the fraction digits [frac]
    and the exponent [e]. *)
Definition make_number (negative : bool) (int frac : list digit) (e : Z)
    : number :=
  let all := int ++ frac in
  let significant := strip_leading_zeros all in
  match strip_trailing_zeros significant with
  | [] => Zero negative
  | digits =>
      Finite negative digits
        (Z.of_nat (length int)
         - Z.of_nat (length all - length significant) + e)
  end.

Definition read_fraction (s : string) : option (list digit * string) :=
  match s with
  | String c rest =>
      if Ascii.eqb c "." then
        match read_digits rest with
        | ([], _) => None
        | (l, r) => Some (l, r)
        end
      else Some ([], s)
  | EmptyString => Some ([], s)
  end.

Definition read_sign (s : string) : bool * string :=
  match s with
  | String c rest =>
      if Ascii.eqb c "-" then (true, rest)
      else if Ascii.eqb c "+" then (false, rest)
      else (false, s)
  | EmptyString => (false, s)
  end.

Definition read_exponent (s : string) : option (Z * string) :=
  match s with
  | String c rest =>
      if is_e c then
        let '(negative, r) := read_sign rest in
        match read_digits r with
        | ([], _) => None
        | (l, r') =>
            Some ((if negative then - Z.of_N (digits_N l)
                   else Z.of_N (digits_N l)), r')
        end
      else Some (0, s)
  | EmptyString => Some (0, s)
  end.

(** An integer part is 0 or starts with another digit. *)
Definition integer_part_ok (int : list digit) : bool :=
  match int with
  | [] => false
  | d :: rest => negb (is_d0 d) || match rest with [] => true | _ => false end
  end.

(** A number after its sign: the integer part, then a fraction and an
    exponent when they are there. *)
Definition read_unsigned (negative : bool) (s : string)
    : option (number * string) :=
  let '(int, s2) := read_digits s in
  if integer_part_ok int then
    match read_fraction s2 with
    | Some (frac, s3) =>
        match read_exponent s3 with
        | Some (e, s4) => Some (make_number negative int frac e, s4)
        | None => None
        end
    | None => None
    end
  else None.

Definition read_number (s : string) : option (number * string) :=
  match s with
  | String c rest =>
      if Ascii.eqb c "-" then read_unsigned true rest
      else read_unsigned false s
  | EmptyString => None
  end.

(** A number ends where the text ends or goes on with a byte that is no
    part of a number. *)
Definition ends_number (rest : string) : bool :=
  match rest with
  | EmptyString => true
  | String c _ =>
      match char_digit c with
      | Some _ => false
      | None => negb (Ascii.eqb c ".") && negb (is_e c)
      end
  end.

(** The UTF-8 bytes of a code point (of a lone surrogate, its three
    bytes). *)
Definition utf8_encode (cp : N) : string :=
  let byte n := ascii_of_N n in
  (if cp <? 128 then String (byte cp) EmptyString
   else if cp <? 2048 then
     String (byte (192 + cp / 64)) (String (byte (128 + cp mod 64)) EmptyString)
   else if cp <? 65536 then
     String (byte (224 + cp / 4096))
       (String (byte (128 + (cp / 64) mod 64))
          (String (byte (128 + cp mod 64)) EmptyString))
   else
     String (byte (240 + cp / 262144))
       (String (byte (128 + (cp / 4096) mod 64))
          (String (byte (128 + (cp / 64) mod 64))
             (String (byte (128 + cp mod 64)) EmptyString))))%N.

Definition read_hex4 (a b c d : ascii) : option N :=
  match Percent.hex_value a, Percent.hex_value b,
        Percent.hex_value c, Percent.hex_value d with
  | Some x, Some y, Some z, Some w => Some (4096 * x + 256 * y + 16 * z + w)%N
  | _, _, _, _ => None
  end.

Definition is_high_surrogate (cp : N) : bool :=
  ((55296 <=? cp) && (cp <=? 56319))%N.
Definition is_low_surrogate (cp : N) : bool :=
  ((56320 <=? cp) && (cp <=? 57343))%N.

(** The byte an escape of one letter stands for. *)
Definition simple_escape (c : ascii) : option ascii :=
  let n := Percent.code c in
  if (n =? 34)%N then Some c            (* quote *)
  else if (n =? 92)%N then Some c       (* backslash *)
  else if (n =? 47)%N then Some c       (* slash *)
  else if (n =? 98)%N then Some (ascii_of_N 8)    (* b *)
  else if (n =? 102)%N then Some (ascii_of_N 12)  (* f *)
  else if (n =? 110)%N then Some (ascii_of_N 10)  (* n *)
  else if (n =? 114)%N then Some (ascii_of_N 13)  (* r *)
  else if (n =? 116)%N then Some (ascii_of_N 9)   (* t *)
  else None.

Definition prepend (bytes : string) (r : option (string * string))
    : option (string * string) :=
  match r with
  | Some (s, rest) => Some (bytes +:+ s, rest)
  | None => None
  end.

(** A string, from after its opening quote to its closing quote. *)
Fixpoint read_string_body (s : string) : option (string * string) :=
  match s with
  | EmptyString => None
  | String c rest =>
      if (Percent.code c =? 34)%N then Some (EmptyString, rest)
      else if (Percent.code c =? 92)%N then
        match rest with
        | EmptyString => None
        | String e rest1 =>
            if Ascii.eqb e "u" then
              match rest1 with
              | String h1 (String h2 (String h3 (String h4 rest2))) =>
                  match read_hex4 h1 h2 h3 h4 with
                  | None => None
                  | Some cp =>
                      let alone :=
                        prepend (utf8_encode cp) (read_string_body rest2) in
                      if is_high_surrogate cp then
                        (* with the escape of a low surrogate that follows,
                           one character *)
                        match rest2 with
                        | String b1 after1 =>
                            if (Percent.code b1 =? 92)%N then
                              match after1 with
                              | String b2 after2 =>
                                  if Ascii.eqb b2 "u" then
                                    match after2 with
                                    | String l1 (String l2 (String l3
                                        (String l4 rest3))) =>
                                        match read_hex4 l1 l2 l3 l4 with
                                        | Some lo =>
                                            if is_low_surrogate lo then
                                              prepend
                                                (utf8_encode
                                                   (65536
                                                    + (cp - 55296) * 1024
                                                    + (lo - 56320))%N)
                                                (read_string_body rest3)
                                            else alone
                                        | None => alone
                                        end
                                    | _ => alone
                                    end
                                  else alone
                              | EmptyString => alone
                              end
                            else alone
                        | EmptyString => alone
                        end
                      else alone
                  end
              | _ => None
              end
            else
              match simple_escape e with
              | Some b => prepend (String b EmptyString)
                            (read_string_body rest1)
              | None => None
              end
        end
      else if (Percent.code c <? 32)%N then None
      else prepend (String c EmptyString) (read_string_body rest)
  end.

(** The text does not go on with the escape of a low surrogate. *)
Definition no_low_escape (s : string) : bool :=
  match s with
  | String b1 after1 =>
      if (Percent.code b1 =? 92)%N then
        match after1 with
        | String b2 after2 =>
            if Ascii.eqb b2 "u" then
              match after2 with
              | String l1 (String l2 (String l3 (String l4 _))) =>
                  match read_hex4 l1 l2 l3 l4 with
                  | Some lo => negb (is_low_surrogate lo)
                  | None => true
                  end
              | _ => true
              end
            else true
        | EmptyString => true
        end
      else true
  | EmptyString => true
  end.

(** What follows [word] at the start of [s]. *)
Fixpoint after_word (word s : string) : option string :=
  match word with
  | EmptyString => Some s
  | String c word' =>
      match s with
      | String c' s' => if Ascii.eqb c c' then after_word word' s' else None
      | EmptyString => None
      end
  end.

(** A value, the elements of an array after its bracket, the members of an
    object after its brace.  [fuel] bounds the nesting and the number of
    parts; the length of the text is enough. *)
Fixpoint read_value (fuel : nat) (s : string) : option (JSON * string) :=
  match fuel with
  | O => None
  | S fuel' =>
      match s with
      | EmptyString => None
      | String c rest =>
          if (Percent.code c =? 34)%N then
            match read_string_body rest with
            | Some (str, r) => Some (JString str, r)
            | None => None
            end
          else if Ascii.eqb c "[" then
            match skip_ws rest with
            | EmptyString => None
            | String c' r' =>
                if Ascii.eqb c' "]" then Some (JArray [], r')
                else
                  match read_elements fuel' (String c' r') with
                  | Some (l, r) => Some (JArray l, r)
                  | None => None
                  end
            end
          else if Ascii.eqb c "{" then
            match skip_ws rest with
            | EmptyString => None
            | String c' r' =>
                if Ascii.eqb c' "}" then Some (JObject [], r')
                else
                  match read_members fuel' (String c' r') with
                  | Some (l, r) => Some (JObject l, r)
                  | None => None
                  end
            end
          else if Ascii.eqb c "n" then
            match after_word "ull" rest with
            | Some r => Some (JNull, r)
            | None => None
            end
          else if Ascii.eqb c "t" then
            match after_word "rue" rest with
            | Some r => Some (JBool true, r)
            | None => None
            end
          else if Ascii.eqb c "f" then
            match after_word "alse" rest with
            | Some r => Some (JBool false, r)
            | None => None
            end
          else
            match read_number s with
            | Some (x, r) => Some (JNumber x, r)
            | None => None
            end
      end
  end
with read_elements (fuel : nat) (s : string)
    : option (list JSON * string) :=
  match fuel with
  | O => None
  | S fuel' =>
      match read_value fuel' s with
      | None => None
      | Some (v, s1) =>
          match skip_ws s1 with
          | EmptyString => None
          | String c r =>
              if Ascii.eqb c "," then
                match read_elements fuel' (skip_ws r) with
                | Some (l, r') => Some (v :: l, r')
                | None => None
                end
              else if Ascii.eqb c "]" then Some ([v], r)
              else None
          end
      end
  end
with read_members (fuel : nat) (s : string)
    : option (list (string * JSON) * string) :=
  match fuel with
  | O => None
  | S fuel' =>
      match s with
      | EmptyString => None
      | String q s0 =>
          if (Percent.code q =? 34)%N then
            match read_string_body s0 with
            | None => None
            | Some (k, s1) =>
                match skip_ws s1 with
                | EmptyString => None
                | String c s2 =>
                    if Ascii.eqb c ":" then
                      match read_value fuel' (skip_ws s2) with
                      | None => None
                      | Some (v, s3) =>
                          match skip_ws s3 with
                          | EmptyString => None
                          | String c' r =>
                              if Ascii.eqb c' "," then
                                match read_members fuel' (skip_ws r) with
                                | Some (l, r') => Some ((k, v) :: l, r')
                                | None => None
                                end
                              else if Ascii.eqb c' "}" then Some ([(k, v)], r)
                              else None
                          end
                      end
                    else None
                end
            end
          else None
      end
  end.

End JSONText.

(** A bound on the fuel the reader needs for the text of a value. *)
Fixpoint weight (v : JSON) : nat :=
  match v with
  | JArray l => S (list_sum (List.map (fun x => S (weight x)) l))
  | JObject l => S (list_sum (List.map (fun '(_, x) => S (weight x)) l))
  | _ => 1
  end.

(** The value a text stands for, when it is one JSON text. *)
Definition JSON_read (s : string) : option JSON :=
  match JSONText.read_value (S (String.length s)) (JSONText.skip_ws s) with
  | Some (v, rest) =>
      match JSONText.skip_ws rest with
      | EmptyString => Some v
      | _ => None
      end
  | None => None
  end.

(** What [JSON.stringify] prints is the value with two changes to its
    numbers: one that is not finite is printed as [null], and the zero
    with a minus sign as [0]. *)
Definition number_as_printed (x : number) : JSON :=
  match x with
  | NaN | Infinity _ => JNull
  | Zero _ => JNumber (Zero false)
  | Finite _ _ _ => JNumber x
  end.

Fixpoint JSON_as_printed (v : JSON) : JSON :=
  match v with
  | JNumber x => number_as_printed x
  | JArray l => JArray (List.map JSON_as_printed l)
  | JObject l =>
      JObject (List.map (fun '(k, x) => (k, JSON_as_printed x)) l)
  | _ => v
  end.

(** The digits of a number are the shortest that name it: there is one at
    least, and neither the first nor the last is 0. *)
Definition canonical_digits (l : list digit) : bool :=
  match l with
  | [] => false
  | d :: _ => negb (is_d0 d) && negb (is_d0 (List.last l d))
  end.

Definition canonical_number (x : number) : bool :=
  match x with
  | Finite _ l _ => canonical_digits l
  | _ => true
  end.

(** In the bytes of a string a high surrogate is never followed by a low
    one: the two are one character, written in four bytes. *)
Definition starts_with_surrogate (low : bool) (s : string) : bool :=
  match s with
  | String c (String c2 (String c3 _)) =>
      is_surrogate_bytes c c2 c3
      && (if low then (176 <=? N_of_ascii c2)%N else (N_of_ascii c2 <=? 175)%N)
  | _ => false
  end.

Definition after_three (s : string) : string :=
  match s with
  | String _ (String _ (String _ rest)) => rest
  | _ => EmptyString
  end.

Fixpoint canonical_text (s : string) : bool :=
  match s with
  | EmptyString => true
  | String _ rest =>
      negb (starts_with_surrogate false s
            && starts_with_surrogate true (after_three s))
      && canonical_text rest
  end.

(** A value as the platform holds it: the digits of its numbers and the
    bytes of its strings and keys are the canonical ones. *)
Fixpoint canonical (v : JSON) : bool :=
  match v with
  | JNumber x => canonical_number x
  | JString s => canonical_text s
  | JArray l => forallb canonical l
  | JObject l => forallb (fun '(k, x) => canonical_text k && canonical x) l
  | _ => true
  end.

(** No number of the value is changed in print. *)
Definition number_prints_itself (x : number) : bool :=
  match x with
  | Finite _ _ _ | Zero false => true
  | _ => false
  end.

Fixpoint prints_itself (v : JSON) : bool :=
  match v with
  | JNumber x => number_prints_itself x
  | JArray l => forallb prints_itself l
  | JObject l => forallb (fun '(_, x) => prints_itself x) l
  | _ => true
  end.

(** The reader takes the text printed for [v], at any depth and before
    any text that ends a number, for [v] as printed. *)
Definition reads_back (v : JSON) : Prop :=
  forall (depth fuel : nat) (rest : string),
    (weight v <= fuel)%nat ->
    JSONText.ends_number rest = true ->
    JSONText.read_value fuel (pretty depth v +:+ rest)
    = Some (JSON_as_printed v, rest).

(** * Properties *)

(** ** Strings *)

Lemma append_nil_l (s : string) : EmptyString +:+ s = s.
Proof. reflexivity. Qed.

Lemma append_cons (c : ascii) (a b : string) :
  String c a +:+ b = String c (a +:+ b).
Proof. reflexivity. Qed.

(** Unfolding of [+:+] on a prefix that is known. *)
Ltac app_norm := repeat first [rewrite append_cons | rewrite append_nil_l].
Ltac app_simpl := app_norm; simpl.

Lemma append_nil_r (s : string) : s +:+ EmptyString = s.
Proof. induction s as [|c s IH]; app_simpl; [reflexivity | now rewrite IH]. Qed.

Lemma append_assoc (a b c : string) : (a +:+ b) +:+ c = a +:+ (b +:+ c).
Proof. induction a as [|x a IH]; app_simpl; [reflexivity | now rewrite IH]. Qed.

Lemma mem_cons (c x : ascii) (s : string) :
  Percent.mem c (String x s) = Ascii.eqb c x || Percent.mem c s.
Proof. reflexivity. Qed.

Lemma mem_append (c : ascii) (a b : string) :
  Percent.mem c (a +:+ b) = Percent.mem c a || Percent.mem c b.
Proof.
  induction a as [|x a IH]; app_simpl; [reflexivity|].
  rewrite !mem_cons, IH. now rewrite orb_assoc.
Qed.

Lemma string_forallb_append (p : ascii -> bool) (a b : string) :
  string_forallb p (a +:+ b) = string_forallb p a && string_forallb p b.
Proof.
  induction a as [|c a IH]; app_norm; [reflexivity|].
  simpl. now rewrite IH, andb_assoc.
Qed.

(** Case analysis on the 256 bytes. *)
Ltac each_byte c := destruct c as [[] [] [] [] [] [] [] []].

(** ** Percent-encoding can be undone *)

Lemma decode_encode_byte (c : ascii) (rest : string) :
  Percent.decode (Percent.encode_byte c +:+ rest)
  = String c (Percent.decode rest).
Proof. each_byte c; reflexivity. Qed.

Lemma decode_kept_byte (c : ascii) (rest : string) :
  Ascii.eqb c "%" = false ->
  Percent.decode (String c rest) = String c (Percent.decode rest).
Proof. intros H. simpl. now rewrite H. Qed.

Lemma decode_encode (keep : ascii -> bool) (s : string) :
  keep "%"%char = false ->
  Percent.decode (Percent.encode keep s) = s.
Proof.
  intros Hk. induction s as [|c s IH]; simpl; [reflexivity|].
  destruct (keep c) eqn:Hc.
  - app_norm. rewrite decode_kept_byte, IH; [reflexivity|].
    destruct (Ascii.eqb c "%") eqn:E; [|reflexivity].
    apply Ascii.eqb_eq in E. subst c. congruence.
  - now rewrite decode_encode_byte, IH.
Qed.

Lemma form_decode_encode_byte (c : ascii) (rest : string) :
  URLSearchParams.form_decode (URLSearchParams.form_encode_byte c +:+ rest)
  = String c (URLSearchParams.form_decode rest).
Proof. each_byte c; reflexivity. Qed.

Lemma form_decode_encode (s : string) :
  URLSearchParams.form_decode (URLSearchParams.form_encode s) = s.
Proof.
  induction s as [|c s IH]; simpl; [reflexivity|].
  now rewrite form_decode_encode_byte, IH.
Qed.

(** The encoders write none of the separators of a URL. *)

Lemma form_encode_byte_clean (sep c : ascii) :
  separator sep ->
  Percent.mem sep (URLSearchParams.form_encode_byte c) = false.
Proof.
  intros [-> | [-> | [-> | [-> | ->]]]]; each_byte c; reflexivity.
Qed.

Lemma form_encode_clean (sep : ascii) (s : string) :
  separator sep ->
  Percent.mem sep (URLSearchParams.form_encode s) = false.
Proof.
  intros H. induction s as [|c s IH]; [reflexivity|].
  simpl URLSearchParams.form_encode.
  now rewrite mem_append, form_encode_byte_clean, IH.
Qed.

Lemma encodeURIComponent_clean (sep : ascii) (s : string) :
  separator sep ->
  Percent.mem sep (Percent.encode uri_unreserved s) = false.
Proof.
  intros H.
  induction s as [|c s IH]; [reflexivity|].
  simpl Percent.encode. rewrite mem_append, IH, orb_false_r.
  destruct H as [-> | [-> | [-> | [-> | ->]]]]; each_byte c; reflexivity.
Qed.

(** ** A serialized query parses back to its tuples *)

Section SplitCut.

Import URLSearchParams.

Variable sep : ascii.

Lemma split_clean (a : string) :
  Percent.mem sep a = false -> split sep a = [a].
Proof.
  induction a as [|c a IH]; [reflexivity|].
  rewrite mem_cons. intros H. apply orb_false_elim in H as [Hc Ha].
  simpl. rewrite Ascii.eqb_sym, Hc, (IH Ha). reflexivity.
Qed.

Lemma split_app (a b : string) :
  Percent.mem sep a = false ->
  split sep (a +:+ String sep b) = a :: split sep b.
Proof.
  induction a as [|c a IH]; intros H; app_norm.
  - simpl. now rewrite Ascii.eqb_refl.
  - rewrite mem_cons in H. apply orb_false_elim in H as [Hc Ha].
    simpl. rewrite Ascii.eqb_sym, Hc, (IH Ha). reflexivity.
Qed.

Lemma cut_app (a b : string) :
  Percent.mem sep a = false ->
  cut sep (a +:+ String sep b) = (a, b).
Proof.
  induction a as [|c a IH]; intros H; app_norm.
  - simpl. now rewrite Ascii.eqb_refl.
  - rewrite mem_cons in H. apply orb_false_elim in H as [Hc Ha].
    simpl. rewrite Ascii.eqb_sym, Hc, (IH Ha). reflexivity.
Qed.

Lemma cut_clean (a : string) :
  Percent.mem sep a = false -> cut sep a = (a, EmptyString).
Proof.
  induction a as [|c a IH]; [reflexivity|].
  rewrite mem_cons. intros H. apply orb_false_elim in H as [Hc Ha].
  simpl. rewrite Ascii.eqb_sym, Hc, (IH Ha). reflexivity.
Qed.

Lemma split_join (l : list string) :
  l <> [] ->
  Forall (fun x => Percent.mem sep x = false) l ->
  split sep (join (String sep EmptyString) l) = l.
Proof.
  induction l as [|x [|y r] IH]; intros Hne Hall; [congruence| |].
  - simpl. apply split_clean. now inversion Hall.
  - inversion Hall as [|? ? Hx Hr]; subst.
    change (join (String sep EmptyString) (x :: y :: r))
      with (x +:+ String sep EmptyString
              +:+ join (String sep EmptyString) (y :: r)).
    app_norm. rewrite (split_app _ _ Hx). f_equal.
    apply IH; [discriminate | assumption].
Qed.

End SplitCut.

Lemma serialize_tuple_clean (p : string * string) :
  Percent.mem "&" (URLSearchParams.serialize_tuple p) = false.
Proof.
  unfold URLSearchParams.serialize_tuple.
  rewrite !mem_append, !form_encode_clean; unfold separator; auto.
Qed.

Lemma serialize_tuple_nonempty (p : string * string) :
  String.eqb (URLSearchParams.serialize_tuple p) EmptyString = false.
Proof.
  unfold URLSearchParams.serialize_tuple.
  destruct (URLSearchParams.form_encode (fst p)); reflexivity.
Qed.

Lemma parse_serialize_tuple (p : string * string) :
  URLSearchParams.parse_tuple (URLSearchParams.serialize_tuple p) = p.
Proof.
  destruct p as [n v].
  unfold URLSearchParams.parse_tuple, URLSearchParams.serialize_tuple.
  simpl fst; simpl snd. app_norm.
  rewrite cut_app by (apply form_encode_clean; unfold separator; auto).
  now rewrite !form_decode_encode.
Qed.

Theorem parse_serialize (l : URLSearchParams.t) :
  URLSearchParams.parse (URLSearchParams.serialize l) = l.
Proof.
  destruct l as [|p l]; [reflexivity|].
  unfold URLSearchParams.parse, URLSearchParams.serialize.
  rewrite split_join.
  - rewrite List.forallb_filter_id.
    + rewrite List.map_map. rewrite <- (List.map_id (p :: l)) at 2.
      apply List.map_ext. intros q. apply parse_serialize_tuple.
    + apply List.forallb_forall. intros x Hx.
      apply List.in_map_iff in Hx as [q [<- _]].
      now rewrite serialize_tuple_nonempty.
  - discriminate.
  - apply List.Forall_forall. intros x Hx.
    apply List.in_map_iff in Hx as [q [<- _]].
    apply serialize_tuple_clean.
Qed.

(** ** [get] after [set] *)

Section GetSet.

Import URLSearchParams.

Lemma get_remove_name (name k : string) (l : t) :
  String.eqb name k = false -> get k (remove_name name l) = get k l.
Proof.
  intros Hne. induction l as [|[k' v'] l IH]; [reflexivity|].
  simpl. destruct (String.eqb k' name) eqn:E; simpl.
  - apply String.eqb_eq in E. subst k'. now rewrite Hne.
  - now rewrite IH.
Qed.

Lemma get_set (name value k : string) (l : t) :
  get k (set name value l)
  = if String.eqb name k then Some value else get k l.
Proof.
  induction l as [|[k' v'] l IH]; simpl.
  - reflexivity.
  - destruct (String.eqb k' name) eqn:E; simpl.
    + apply String.eqb_eq in E. subst k'.
      destruct (String.eqb name k) eqn:E'; [reflexivity|].
      now apply get_remove_name.
    + rewrite IH. destruct (String.eqb name k) eqn:E'; [|reflexivity].
      apply String.eqb_eq in E'. subst k. now rewrite E.
Qed.

Lemma has_get (k : string) (l : t) :
  has k l = true <-> exists v, get k l = Some v.
Proof.
  induction l as [|[k' v'] l IH]; simpl.
  - split; [discriminate | intros [v Hv]; discriminate].
  - destruct (String.eqb k' k); simpl; [|exact IH].
    split; [eauto | reflexivity].
Qed.

End GetSet.

(** ** The query of a serialized URL *)

Lemma href_query_append (p q : string) :
  Percent.mem "?" p = false -> href_query (p +:+ "?" +:+ q) = Some q.
Proof.
  intros Hp. unfold href_query.
  rewrite mem_append, Hp. app_norm. rewrite mem_cons. simpl orb.
  now rewrite cut_app.
Qed.

Lemma href_query_none (p : string) :
  Percent.mem "?" p = false -> href_query p = None.
Proof. intros Hp. unfold href_query. now rewrite Hp. Qed.

(** Reading a key off the text of a URL gives what [searchParams] holds. *)
Lemma href_param_toString (u : URL) (k : string) :
  Percent.mem "?" (href_path u) = false ->
  href_param (URL_toString u) k = URLSearchParams.get k (searchParams u).
Proof.
  intros Hp. unfold href_param, URL_toString.
  destruct (searchParams u) as [|t l] eqn:E.
  - now rewrite href_query_none.
  - rewrite href_query_append by assumption. now rewrite parse_serialize.
Qed.

(** ** The tuples the two list handlers put in the query *)


Ltac each_option x := destruct x as [[|? ?]|].

Lemma list_studies_params (a : list_studies.Args) :
  searchParams (list_studies.build a)
  = [("query.cond", list_studies.cond a)]
      ++ opt_param "query.term" (list_studies.term a)
      ++ opt_param "query.locn" (list_studies.locn a)
      ++ opt_param "filter.overallStatus" (list_studies.overallStatus a)
      ++ opt_param "fields" (list_studies.fields a)
      ++ opt_param "pageToken" (list_studies.pageToken a)
      ++ [("pageSize",
           String_of_number (default (number_of_Z 20) (list_studies.pageSize a)));
          ("format", default "json" (list_studies.format a));
          ("countTotal", default "true" (list_studies.countTotal a))].
Proof.
  destruct a as [cond term locn overallStatus pageSize format fields
                 countTotal pageToken].
  each_option term; each_option locn; each_option overallStatus;
    each_option fields; each_option pageToken; reflexivity.
Qed.

Lemma list_studies_path (a : list_studies.Args) :
  href_path (list_studies.build a) = studies_endpoint.
Proof.
  destruct a as [cond term locn overallStatus pageSize format fields
                 countTotal pageToken].
  unfold list_studies.build, set_if_truthy. simpl.
  repeat match goal with |- context [truthy ?x] => destruct (truthy x) end;
    reflexivity.
Qed.

Lemma specific_fields_params (a : specific_fields_in_study.Args) :
  searchParams (specific_fields_in_study.build a)
  = [("query.cond", specific_fields_in_study.cond a);
     ("fields", specific_fields_in_study.fields a)]
      ++ opt_param "query.term" (specific_fields_in_study.term a)
      ++ opt_param "query.locn" (specific_fields_in_study.locn a)
      ++ opt_param "filter.overallStatus"
           (specific_fields_in_study.overallStatus a)
      ++ opt_param "pageToken" (specific_fields_in_study.pageToken a)
      ++ [("pageSize",
           String_of_number (default (number_of_Z 20) (specific_fields_in_study.pageSize a)));
          ("format", default "json" (specific_fields_in_study.format a));
          ("countTotal",
           default "true" (specific_fields_in_study.countTotal a))].
Proof.
  destruct a as [cond fields term locn overallStatus pageSize format
                 countTotal pageToken].
  each_option term; each_option locn; each_option overallStatus;
    each_option pageToken; reflexivity.
Qed.

Lemma specific_fields_path (a : specific_fields_in_study.Args) :
  href_path (specific_fields_in_study.build a) = studies_endpoint.
Proof.
  destruct a as [cond fields term locn overallStatus pageSize format
                 countTotal pageToken].
  unfold specific_fields_in_study.build, set_if_truthy. simpl.
  repeat match goal with |- context [truthy ?x] => destruct (truthy x) end;
    reflexivity.
Qed.

(** ** What the schemas accept *)

Ltac invert_shape H :=
  repeat match type of H with
         | (_ ≫= _) = Some _ => apply bind_Some in H as (? & ? & H)
         end;
  injection H as <-; simpl.

Lemma z_string_Some (v : option JSON) (s : string) :
  z_string v = Some s <-> v = Some (JString s).
Proof.
  unfold z_string. split.
  - destruct v as [[]|]; congruence.
  - now intros ->.
Qed.

Lemma list_studies_shape_cond (o : gmap string JSON) (a : list_studies.Args) :
  list_studies.shape o = Some a ->
  o !! "cond" = Some (JString (list_studies.cond a)).
Proof.
  unfold list_studies.shape. intros H. invert_shape H.
  now apply z_string_Some.
Qed.


(** ** The URL parser leaves the URLs of the list tools as they are *)

Lemma request_href_studies (q : string) :
  request_href (studies_endpoint +:+ "?" +:+ q)
  = studies_endpoint +:+ "?" +:+ q.
Proof.
  unfold request_href.
  rewrite mem_append. app_norm. rewrite mem_cons, orb_true_r.
  rewrite cut_app by reflexivity. reflexivity.
Qed.

Lemma request_href_toString (u : URL) :
  href_path u = studies_endpoint ->
  request_href (URL_toString u) = URL_toString u.
Proof.
  intros Hp. unfold URL_toString. rewrite Hp.
  destruct (searchParams u) as [|p l]; [reflexivity|].
  apply request_href_studies.
Qed.

(** ** What a handler does with each answer of the upstream service *)

Lemma relay_cases (fetch_outcome : string -> Error + Response)
    (JSON_parse : string -> option JSON) (url : string)
    (requests : list string) :
  relay fetch_outcome JSON_parse url requests
  = (requests ++ [request_href url],
     settle fetch_outcome JSON_parse (request_href url)).
Proof.
  unfold relay, settle, fetch, mbind, Async_bind, Response_json.
  destruct (fetch_outcome (request_href url)) as [e|res]; [reflexivity|].
  destruct (ok res); simpl; [|reflexivity].
  destruct (JSON_parse (body res)); reflexivity.
Qed.

Lemma list_studies_handler_relay
    (fetch_outcome : string -> Error + Response)
    (JSON_parse : string -> option JSON) (a : list_studies.Args) :
  list_studies.handler fetch_outcome JSON_parse a
  = relay fetch_outcome JSON_parse (URL_toString (list_studies.build a)).
Proof. reflexivity. Qed.

Lemma get_study_handler_relay
    (fetch_outcome : string -> Error + Response)
    (JSON_parse : string -> option JSON) (a : get_study.Args) :
  get_study.handler fetch_outcome JSON_parse a
  = match get_study.build a with
    | inl e => throw e
    | inr url => relay fetch_outcome JSON_parse url
    end.
Proof.
  unfold get_study.handler. destruct (get_study.build a); reflexivity.
Qed.

Lemma specific_fields_handler_relay
    (fetch_outcome : string -> Error + Response)
    (JSON_parse : string -> option JSON)
    (a : specific_fields_in_study.Args) :
  specific_fields_in_study.handler fetch_outcome JSON_parse a
  = relay fetch_outcome JSON_parse
      (URL_toString (specific_fields_in_study.build a)).
Proof. reflexivity. Qed.

(** A tool call whose arguments pass the schema is the handler's run. *)
Lemma call_tool_accepted {A : Type} (shape : gmap string JSON -> option A)
    (handler : A -> Async CallToolResult) (o : gmap string JSON) (a : A)
    (requests : list string) :
  shape o = Some a ->
  call_tool shape handler o requests
  = match handler a requests with
    | (requests', inl e) => (requests', Threw e)
    | (requests', inr r) => (requests', Returned r)
    end.
Proof. intros H. unfold call_tool. now rewrite H. Qed.

Lemma call_tool_refused {A : Type} (shape : gmap string JSON -> option A)
    (handler : A -> Async CallToolResult) (o : gmap string JSON)
    (requests : list string) :
  shape o = None ->
  call_tool shape handler o requests = (requests, InvalidParams).
Proof. intros H. unfold call_tool. now rewrite H. Qed.

(** ** The three tools share the relay *)

(** A call that requests a URL: one request, then what the answer makes
    of it. *)
Lemma server_call_relay (fetch_outcome : string -> Error + Response)
    (JSON_parse : string -> option JSON) (t : ToolName)
    (o : gmap string JSON) (url : string) (requests : list string) :
  request_url t o = Some url ->
  server_call fetch_outcome JSON_parse t o requests
  = (requests ++ [url], outcome_of (settle fetch_outcome JSON_parse url)).
Proof.
  destruct t; simpl; intros H.
  - apply fmap_Some in H as (a & Hs & ->).
    rewrite (call_tool_accepted _ _ _ _ _ Hs).
    rewrite list_studies_handler_relay, relay_cases.
    rewrite request_href_toString by apply list_studies_path.
    now destruct (settle _ _ _).
  - apply bind_Some in H as (a & Hs & H).
    rewrite (call_tool_accepted _ _ _ _ _ Hs).
    rewrite get_study_handler_relay.
    destruct (get_study.build a) as [e|text]; [discriminate H|].
    injection H as <-. rewrite relay_cases.
    now destruct (settle _ _ _).
  - apply fmap_Some in H as (a & Hs & ->).
    rewrite (call_tool_accepted _ _ _ _ _ Hs).
    rewrite specific_fields_handler_relay, relay_cases.
    rewrite request_href_toString by apply specific_fields_path.
    now destruct (settle _ _ _).
Qed.

(** A call that requests no URL: the schema refuses the arguments, or
    (get_study only) building the URL throws. *)
Lemma server_call_no_request (fetch_outcome : string -> Error + Response)
    (JSON_parse : string -> option JSON) (t : ToolName)
    (o : gmap string JSON) (requests : list string) :
  request_url t o = None ->
  server_call fetch_outcome JSON_parse t o requests = (requests, InvalidParams)
  \/ exists id e,
       t = get_study_tool
       /\ o !! "nct_id" = Some (JString id)
       /\ encodeURIComponent id = inl e
       /\ server_call fetch_outcome JSON_parse t o requests
          = (requests, Threw e).
Proof.
  destruct t; simpl; intros H.
  - apply fmap_None in H. left. now apply call_tool_refused.
  - destruct (get_study.shape o) as [a|] eqn:Hs;
      [|left; now apply call_tool_refused].
    simpl in H. right. destruct a as [id].
    unfold get_study.shape in Hs.
    apply bind_Some in Hs as (id' & Hid & Hs). injection Hs as ->.
    apply z_string_Some in Hid.
    assert (Hs : get_study.shape o = Some (get_study.mkArgs id))
      by (unfold get_study.shape; now rewrite Hid).
    rewrite (call_tool_accepted _ _ _ _ _ Hs), get_study_handler_relay.
    unfold get_study.build in *. cbn [get_study.nct_id] in *.
    destruct (encodeURIComponent id) as [e|segment] eqn:He; [|discriminate H].
    exists id, e. repeat split; try assumption; reflexivity.
  - apply fmap_None in H. left. now apply call_tool_refused.
Qed.

Lemma server_call_refused (fetch_outcome : string -> Error + Response)
    (JSON_parse : string -> option JSON) (t : ToolName)
    (o : gmap string JSON) (requests : list string) :
  t <> get_study_tool ->
  request_url t o = None ->
  server_call fetch_outcome JSON_parse t o requests
  = (requests, InvalidParams).
Proof.
  intros Ht H.
  destruct (server_call_no_request fetch_outcome JSON_parse t o requests H)
    as [E | (id & e & -> & _)]; [exact E | congruence].
Qed.

Lemma server_call_requests (fetch_outcome : string -> Error + Response)
    (JSON_parse : string -> option JSON) (t : ToolName)
    (o : gmap string JSON) (url : string) (requests : list string) :
  request_url t o = Some url ->
  fst (server_call fetch_outcome JSON_parse t o requests)
  = requests ++ [url].
Proof. intros Hu. now rewrite (server_call_relay _ _ _ _ _ _ Hu). Qed.

Ltac settle_with Hf :=
  unfold settle; rewrite Hf; cbn [outcome_of].

(** ** The claims *)

Lemma list_studies_param (a : list_studies.Args) (k : string) :
  href_param (URL_toString (list_studies.build a)) k
  = URLSearchParams.get k (searchParams (list_studies.build a)).
Proof. apply href_param_toString. now rewrite list_studies_path. Qed.

Lemma specific_fields_param (a : specific_fields_in_study.Args) (k : string) :
  href_param (URL_toString (specific_fields_in_study.build a)) k
  = URLSearchParams.get k (searchParams (specific_fields_in_study.build a)).
Proof. apply href_param_toString. now rewrite specific_fields_path. Qed.

Ltac list_studies_get a :=
  rewrite list_studies_param, list_studies_params;
  destruct a as [cond term locn overallStatus pageSize format fields
                 countTotal pageToken];
  simpl list_studies.cond; simpl list_studies.term;
  simpl list_studies.locn; simpl list_studies.overallStatus;
  simpl list_studies.pageSize; simpl list_studies.format;
  simpl list_studies.fields; simpl list_studies.countTotal;
  simpl list_studies.pageToken.

Lemma list_studies_required (a : list_studies.Args) :
  let url := URL_toString (list_studies.build a) in
  href_param url "query.cond" = Some (list_studies.cond a)
  /\ href_param url "pageSize"
     = Some (String_of_number (default (number_of_Z 20) (list_studies.pageSize a)))
  /\ href_param url "format" = Some (default "json" (list_studies.format a))
  /\ href_param url "countTotal"
     = Some (default "true" (list_studies.countTotal a)).
Proof.
  cbv zeta. repeat split; list_studies_get a;
    each_option term; each_option locn; each_option overallStatus;
    each_option fields; each_option pageToken; reflexivity.
Qed.


(** The request of a list_studies call that passes the schema. *)
Lemma list_studies_request
    (fetch_outcome : string -> Error + Response)
    (JSON_parse : string -> option JSON)
    (o : gmap string JSON) (a : list_studies.Args) (requests : list string) :
  list_studies.shape o = Some a ->
  let url := URL_toString (list_studies.build a) in
  fst (server_call fetch_outcome JSON_parse list_studies_tool o requests)
  = requests ++ [url]
  /\ o !! "cond" = Some (JString (list_studies.cond a))
  /\ href_param url "query.cond" = Some (list_studies.cond a).
Proof.
  intros Hs url. split; [|split].
  - apply server_call_requests. simpl. now rewrite Hs.
  - now apply list_studies_shape_cond.
  - apply list_studies_required.
Qed.



Lemma ok_success (res : Response) : ok res = true <-> success_status res.
Proof.
  unfold ok, success_status.
  rewrite andb_true_iff, !Z.leb_le. tauto.
Qed.

Lemma ok_failure (res : Response) : ok res = false <-> ~ success_status res.
Proof.
  rewrite <- ok_success. destruct (ok res); split; congruence.
Qed.

(** ** The text of a JSON value never starts like the error text *)

Lemma head_is_other (c : ascii) (s : string) :
  string_forallb (fun x => negb (Ascii.eqb x c)) s = true ->
  head_is c s = false.
Proof.
  destruct s as [|x s]; [reflexivity|]. simpl.
  intros H. apply andb_true_iff in H as [H _].
  now apply negb_true_iff in H.
Qed.

Lemma digits_text_app (a b : list digit) :
  digits_text (a ++ b) = digits_text a +:+ digits_text b.
Proof.
  induction a as [|d a IH]; [reflexivity|].
  simpl. app_norm. now rewrite IH.
Qed.

Lemma digits_text_chars (l : list digit) :
  string_forallb Percent.is_digit (digits_text l) = true.
Proof. induction l as [|d l IH]; [reflexivity|]. simpl. now destruct d. Qed.

Lemma string_forallb_weaken (p q : ascii -> bool) (s : string) :
  (forall c, p c = true -> q c = true) ->
  string_forallb p s = true -> string_forallb q s = true.
Proof.
  intros Hpq. induction s as [|c s IH]; [reflexivity|]. simpl.
  intros H. apply andb_true_iff in H as [Hc Hs].
  now rewrite (Hpq c Hc), IH.
Qed.

Lemma digits_text_number_chars (l : list digit) :
  string_forallb number_text_char (digits_text l) = true.
Proof.
  apply (string_forallb_weaken Percent.is_digit), digits_text_chars.
  intros c H. unfold number_text_char. now rewrite H.
Qed.

Lemma exponent_text_chars (e : Z) :
  string_forallb number_text_char (exponent_text e) = true.
Proof.
  unfold exponent_text.
  rewrite string_forallb_append, digits_text_number_chars.
  now destruct (e <? 0).
Qed.

Lemma String_of_finite_chars (l : list digit) (n : Z) :
  string_forallb number_text_char (String_of_finite l n) = true.
Proof.
  unfold String_of_finite.
  repeat match goal with
         | |- context [if ?b then _ else _] => destruct b
         end;
    try destruct l as [|d [|d' l]];
    rewrite ?string_forallb_append, ?digits_text_number_chars,
      ?exponent_text_chars; reflexivity.
Qed.

Lemma String_of_number_chars (x : number) :
  string_forallb number_text_char (String_of_number x) = true.
Proof.
  destruct x as [|[]|[]|[] l n]; try reflexivity; simpl;
    rewrite string_forallb_append, String_of_finite_chars; reflexivity.
Qed.

Lemma String_of_number_head (x : number) :
  head_is "C" (String_of_number x) = false.
Proof.
  apply head_is_other.
  apply (string_forallb_weaken number_text_char), String_of_number_chars.
  intros c. each_byte c; intros H; try reflexivity; discriminate H.
Qed.

Lemma SerializeJSONGroup_head (open_c close_c : ascii) (gap stepback : string)
    (partial : list string) :
  exists rest,
    SerializeJSONGroup (String open_c EmptyString) (String close_c EmptyString)
      gap stepback partial
    = String open_c rest.
Proof.
  unfold SerializeJSONGroup. destruct partial as [|x l].
  - eexists. reflexivity.
  - destruct (String.eqb gap EmptyString); eexists; app_norm; reflexivity.
Qed.

Lemma SerializeJSONProperty_head (gap stepback : string) (v : JSON) :
  head_is "C" (SerializeJSONProperty gap stepback v) = false.
Proof.
  destruct v as [|[]|x|s|items|members]; simpl; try reflexivity.
  - destruct (is_finite x); [apply String_of_number_head | reflexivity].
  - destruct (SerializeJSONGroup_head "[" "]" gap stepback
                (List.map (SerializeJSONProperty gap (stepback +:+ gap)) items))
      as [rest ->].
    reflexivity.
  - match goal with
    | |- context [SerializeJSONGroup _ _ _ _ ?l] =>
        destruct (SerializeJSONGroup_head "{" "}" gap stepback l) as [rest ->]
    end.
    reflexivity.
Qed.

Lemma error_text_not_json (res : Response) (data : JSON) (space : nat) :
  JSON_stringify data space <> error_text res.
Proof.
  unfold JSON_stringify. intros E.
  pose proof (SerializeJSONProperty_head (spaces (Nat.min 10 space))
                EmptyString data) as H.
  rewrite E in H. discriminate H.
Qed.

Lemma Substring_intro (before needle after : string) :
  Substring needle (before +:+ needle +:+ after).
Proof. exists before, after. reflexivity. Qed.

(** C3: for each of the three tools, an upstream response whose status is
    not 2xx makes the call return normally, with one text block whose text
    is "ClinicalTrials.gov error: ", the status code, a space, the status
    text, a newline and the raw body.  The text shows the status code and
    the body and is not the text of any JSON value; for a 404 with body
    "not found" it contains 404 and not found. *)
Theorem upstream_error_is_text_result
    (fetch_outcome : string -> Error + Response)
    (JSON_parse : string -> option JSON) (t : ToolName)
    (o : gmap string JSON) (url : string) (res : Response)
    (requests : list string) :
  request_url t o = Some url ->
  fetch_outcome url = inr res ->
  ~ success_status res ->
  let message :=
    "ClinicalTrials.gov error: " +:+ String_of_number (number_of_Z (status res)) +:+ " "
      +:+ statusText res +:+ newline +:+ body res in
  server_call fetch_outcome JSON_parse t o requests
  = (requests ++ [url],
     Returned {| content := [ {| type := "text"; text := message |} ] |})
  /\ Substring (String_of_number (number_of_Z (status res))) message
  /\ Substring (body res) message
  /\ (forall data space, JSON_stringify data space <> message)
  /\ (status res = 404 -> body res = "not found" ->
      Substring "404" message /\ Substring "not found" message).
Proof.
  intros Hu Hf Hs message.
  assert (Hstatus : Substring (String_of_number (number_of_Z (status res))) message).
  { apply (Substring_intro "ClinicalTrials.gov error: "). }
  assert (Hbody : Substring (body res) message).
  { exists ("ClinicalTrials.gov error: " +:+ String_of_number (number_of_Z (status res))
              +:+ " " +:+ statusText res +:+ newline), EmptyString.
    unfold message. rewrite append_nil_r, !append_assoc. reflexivity. }
  split.
  { rewrite (server_call_relay _ _ _ _ _ _ Hu). settle_with Hf.
    apply ok_failure in Hs. now rewrite Hs. }
  split; [exact Hstatus|]. split; [exact Hbody|].
  split; [intros data space; apply error_text_not_json|].
  intros E404 Eb. rewrite E404 in Hstatus. rewrite Eb in Hbody.
  split; assumption.
Qed.

Lemma upstream_error_is_text_result_witness :
  let o : gmap string JSON := {[ "nct_id" := JString "NCT00000000" ]} in
  let url := "https://clinicaltrials.gov/api/v2/studies/NCT00000000" in
  let res := mkResponse 404 "Not Found" "not found" in
  let upstream := fun _ : string => @inr Error Response res in
  server_call upstream (fun _ => None) get_study_tool o []
  = ([url],
     Returned {| content := [ {| type := "text";
        text := "ClinicalTrials.gov error: 404 Not Found" +:+ newline
                  +:+ "not found" |} ] |}).
Proof.
  intros o url res upstream.
  refine (proj1 (upstream_error_is_text_result upstream (fun _ => None)
                   get_study_tool o url res [] _ _ _)).
  - reflexivity.
  - reflexivity.
  - unfold success_status. simpl. lia.
Defined.



(** C6: a call of specific_fields_in_study that reaches the upstream
    service requests a URL whose query has the key [fields], carrying the
    [fields] argument; a call whose arguments have no [fields] (or one that
    is not text) is refused by the schema and no request is made. *)
Theorem specific_fields_always_sends_fields
    (fetch_outcome : string -> Error + Response)
    (JSON_parse : string -> option JSON)
    (o : gmap string JSON) (requests : list string) :
  (forall a, specific_fields_in_study.shape o = Some a ->
     let url := URL_toString (specific_fields_in_study.build a) in
     fst (server_call fetch_outcome JSON_parse
            specific_fields_in_study_tool o requests)
     = requests ++ [url]
     /\ o !! "fields" = Some (JString (specific_fields_in_study.fields a))
     /\ href_param url "fields"
        = Some (specific_fields_in_study.fields a))
  /\ (z_string (o !! "fields") = None ->
      server_call fetch_outcome JSON_parse
        specific_fields_in_study_tool o requests
      = (requests, InvalidParams))
  /\ (o !! "fields" = None ->
      server_call fetch_outcome JSON_parse
        specific_fields_in_study_tool o requests
      = (requests, InvalidParams)).
Proof.
  assert (Hrefuse : z_string (o !! "fields") = None ->
            server_call fetch_outcome JSON_parse
              specific_fields_in_study_tool o requests
            = (requests, InvalidParams)).
  { intros E. apply call_tool_refused.
    unfold specific_fields_in_study.shape.
    destruct (z_string (o !! "cond")); simpl; [|reflexivity].
    now rewrite E. }
  split; [|split; [exact Hrefuse | intros E; apply Hrefuse; now rewrite E]].
  intros a Hs url. split; [|split].
  - assert (Hu : request_url specific_fields_in_study_tool o = Some url)
      by (simpl; now rewrite Hs).
    now apply server_call_requests.
  - unfold specific_fields_in_study.shape in Hs. invert_shape Hs.
    now apply z_string_Some.
  - unfold url. rewrite specific_fields_param, specific_fields_params.
    reflexivity.
Qed.

Lemma specific_fields_always_sends_fields_witness :
  let o : gmap string JSON :=
    {[ "cond" := JString "asthma"; "fields" := JString "NCTId" ]} in
  let missing : gmap string JSON := {[ "cond" := JString "asthma" ]} in
  let down := fun _ : string =>
    @inl Error Response (TypeError "fetch failed") in
  href_param
    ("https://clinicaltrials.gov/api/v2/studies?query.cond=asthma"
       +:+ "&fields=NCTId&pageSize=20&format=json&countTotal=true")
    "fields" = Some "NCTId"
  /\ server_call down (fun _ => None) specific_fields_in_study_tool
       missing [] = ([], InvalidParams).
Proof.
  intros o missing down. split.
  - pose (a := specific_fields_in_study.mkArgs "asthma" "NCTId" None None
                 None (Some (number_of_Z 20)) (Some "json") (Some "true") None).
    exact (proj2 (proj2 (proj1
             (specific_fields_always_sends_fields down (fun _ => None) o [])
             a eq_refl))).
  - apply (proj2 (proj2
             (specific_fields_always_sends_fields down (fun _ => None)
                missing []))).
    reflexivity.
Defined.

(** ** The URL of get_study *)

Lemma after_dot_encode (c : ascii) (t : string) :
  after_dot (Percent.encode uri_unreserved (String c t))
  = if Ascii.eqb c "." then Some (Percent.encode uri_unreserved t) else None.
Proof. each_byte c; reflexivity. Qed.

Lemma encode_empty (s : string) :
  Percent.encode uri_unreserved s = EmptyString -> s = EmptyString.
Proof.
  destruct s as [|c s]; [reflexivity|]. simpl.
  destruct (uri_unreserved c); app_norm; discriminate.
Qed.

Lemma is_single_dot_encode (id : string) :
  is_single_dot (Percent.encode uri_unreserved id) = String.eqb id ".".
Proof.
  destruct id as [|c t]; [reflexivity|].
  unfold is_single_dot. rewrite after_dot_encode.
  change (String.eqb (String c t) ".")
    with (if Ascii.eqb c "." then String.eqb t EmptyString else false).
  destruct (Ascii.eqb c "."); [|reflexivity].
  destruct (Percent.encode uri_unreserved t) eqn:E.
  - now rewrite (encode_empty t E).
  - destruct t; [discriminate E | reflexivity].
Qed.

Lemma is_double_dot_encode (id : string) :
  is_double_dot (Percent.encode uri_unreserved id) = String.eqb id "..".
Proof.
  destruct id as [|c t]; [reflexivity|].
  unfold is_double_dot. rewrite after_dot_encode.
  change (String.eqb (String c t) "..")
    with (if Ascii.eqb c "." then String.eqb t "." else false).
  destruct (Ascii.eqb c "."); [|reflexivity].
  apply is_single_dot_encode.
Qed.

(** The URL [fetch] requests for the text get_study builds. *)
Lemma request_href_study (segment : string) :
  Percent.mem "/" segment = false ->
  Percent.mem "?" segment = false ->
  request_href (study_endpoint +:+ segment)
  = if is_double_dot segment then "https://clinicaltrials.gov/api/v2/"
    else if is_single_dot segment then study_endpoint
    else study_endpoint +:+ segment.
Proof.
  intros Hslash Hquery. unfold request_href.
  rewrite mem_append, Hquery, orb_false_r.
  rewrite cut_clean by (now rewrite mem_append, Hquery).
  unfold study_endpoint. app_norm. simpl URLSearchParams.split.
  rewrite (split_clean "/" segment Hslash). simpl.
  destruct (is_double_dot segment); [reflexivity|].
  destruct (is_single_dot segment); [reflexivity|].
  cbn [URLSearchParams.join]. rewrite append_nil_r. app_norm. reflexivity.
Qed.

Lemma get_study_request_url (o : gmap string JSON) (id : string) :
  o !! "nct_id" = Some (JString id) ->
  request_url get_study_tool o
  = if has_lone_surrogate id then None
    else Some (if String.eqb id ".." then "https://clinicaltrials.gov/api/v2/"
               else if String.eqb id "." then study_endpoint
               else study_endpoint +:+ Percent.encode uri_unreserved id).
Proof.
  intros Ho. simpl. unfold get_study.shape, get_study.build. rewrite Ho.
  simpl. unfold encodeURIComponent.
  destruct (has_lone_surrogate id); [reflexivity|].
  change (BASE_URL +:+ "/studies/" +:+ Percent.encode uri_unreserved id)
    with (study_endpoint +:+ Percent.encode uri_unreserved id).
  rewrite request_href_study
    by (apply encodeURIComponent_clean; unfold separator; auto 6).
  now rewrite is_double_dot_encode, is_single_dot_encode.
Qed.

(** C7, as the handler is written: for an identifier without a lone
    surrogate get_study builds the text of the single-study endpoint
    followed by the percent-encoding of the identifier, one path segment
    that decodes back to the identifier, with no query and no fragment, and
    [fetch] requests that URL, except that the parser resolves the
    identifiers [.] and [..] to the endpoint itself and to its parent.  For
    an identifier with a lone surrogate [encodeURIComponent] throws and no
    request is made.  For NCT04267848 the URL ends in the identifier. *)
Theorem get_study_url_is_endpoint_and_encoded_id
    (fetch_outcome : string -> Error + Response)
    (JSON_parse : string -> option JSON)
    (o : gmap string JSON) (id : string) (requests : list string) :
  o !! "nct_id" = Some (JString id) ->
  let segment := Percent.encode uri_unreserved id in
  let url := study_endpoint +:+ segment in
  let requested :=
    fst (server_call fetch_outcome JSON_parse get_study_tool o requests) in
  (has_lone_surrogate id = true ->
   get_study.build (get_study.mkArgs id) = inl (URIError "URI malformed")
   /\ server_call fetch_outcome JSON_parse get_study_tool o requests
      = (requests, Threw (URIError "URI malformed")))
  /\ (has_lone_surrogate id = false ->
      get_study.build (get_study.mkArgs id) = inr url
      /\ Percent.decode segment = id
      /\ Percent.mem "/" segment = false
      /\ href_query url = None
      /\ Percent.mem "#" url = false
      /\ (id <> "." -> id <> ".." -> requested = requests ++ [url])
      /\ (id = "." -> requested = requests ++ [study_endpoint])
      /\ (id = ".." ->
          requested = requests ++ ["https://clinicaltrials.gov/api/v2/"])
      /\ (id = "NCT04267848" ->
          requested = requests ++ [study_endpoint +:+ "NCT04267848"])).
Proof.
  intros Ho segment url requested.
  pose proof (get_study_request_url o id Ho) as Hu.
  assert (Hclean : forall sep, sep = "?"%char \/ sep = "#"%char ->
            Percent.mem sep url = false).
  { intros sep Hsep. unfold url, segment. rewrite mem_append.
    rewrite encodeURIComponent_clean
      by (unfold separator; destruct Hsep; auto 6).
    destruct Hsep as [-> | ->]; reflexivity. }
  split.
  - intros Hbad. rewrite Hbad in Hu.
    assert (Hb : get_study.build (get_study.mkArgs id)
                 = inl (URIError "URI malformed")).
    { unfold get_study.build, encodeURIComponent. simpl. now rewrite Hbad. }
    split; [exact Hb|].
    destruct (server_call_no_request fetch_outcome JSON_parse get_study_tool
                o requests Hu) as [E | (id' & e & _ & Hid & He & E)].
    + exfalso. revert E. simpl. unfold call_tool, get_study.shape.
      rewrite Ho. simpl. destruct (get_study.handler _ _ _ _) as [r [x|x]];
        discriminate.
    + rewrite Ho in Hid. injection Hid as <-.
      unfold encodeURIComponent in He. rewrite Hbad in He.
      injection He as <-. exact E.
  - intros Hgood. rewrite Hgood in Hu.
    split.
    { unfold get_study.build, encodeURIComponent. simpl. now rewrite Hgood. }
    split; [now apply decode_encode|].
    split; [apply encodeURIComponent_clean; unfold separator; auto 6|].
    split; [apply href_query_none, Hclean; auto|].
    split; [apply Hclean; auto|].
    unfold requested.
    rewrite (server_call_requests _ _ _ _ _ _ Hu).
    split; [|split; [|split]].
    + intros H1 H2.
      apply String.eqb_neq in H1. apply String.eqb_neq in H2.
      now rewrite H1, H2.
    + intros ->. reflexivity.
    + intros ->. reflexivity.
    + intros ->. reflexivity.
Qed.

Lemma get_study_url_is_endpoint_and_encoded_id_witness :
  let o : gmap string JSON := {[ "nct_id" := JString "NCT04267848" ]} in
  let down := fun _ : string =>
    @inl Error Response (TypeError "fetch failed") in
  get_study.build (get_study.mkArgs "NCT04267848")
  = inr "https://clinicaltrials.gov/api/v2/studies/NCT04267848"
  /\ fst (server_call down (fun _ => None) get_study_tool o [])
     = ["https://clinicaltrials.gov/api/v2/studies/NCT04267848"].
Proof.
  intros o down.
  destruct (proj2 (get_study_url_is_endpoint_and_encoded_id
                     down (fun _ => None) o "NCT04267848" [] eq_refl)
              eq_refl)
    as (Hb & _ & _ & _ & _ & _ & _ & _ & Hid).
  split; [exact Hb | exact (Hid eq_refl)].
Defined.

(** C7, as it is worded, fails: for an identifier that is a lone surrogate
    the schema accepts the arguments, no URL is built and no request is
    made; the handler throws. *)
Lemma get_study_lone_surrogate_counterexample :
  let id := String (ascii_of_N 237)
              (String (ascii_of_N 160) (String (ascii_of_N 128) EmptyString)) in
  let o : gmap string JSON := {[ "nct_id" := JString id ]} in
  let up := fun _ : string =>
    @inr Error Response (mkResponse 200 "OK" "{}") in
  get_study.shape o = Some (get_study.mkArgs id)
  /\ get_study.build (get_study.mkArgs id) = inl (URIError "URI malformed")
  /\ server_call up (fun _ => Some (JObject [])) get_study_tool o []
     = ([], Threw (URIError "URI malformed")).
Proof. intros id o up. repeat split. Qed.

(** The identifier of two dots: the parent of the endpoint is requested. *)
Lemma get_study_double_dot :
  request_url get_study_tool {[ "nct_id" := JString ".." ]}
  = Some "https://clinicaltrials.gov/api/v2/".
Proof. reflexivity. Qed.

(** C9, as the schema is written: a call of list_studies whose arguments
    have no [cond] (or one that is not text) is refused before any request;
    the empty string is a [cond] the schema accepts, and the request is
    then made with an empty [query.cond]. *)
Theorem list_studies_cond_is_required_text
    (fetch_outcome : string -> Error + Response)
    (JSON_parse : string -> option JSON)
    (o : gmap string JSON) (requests : list string) :
  (z_string (o !! "cond") = None ->
   server_call fetch_outcome JSON_parse list_studies_tool o requests
   = (requests, InvalidParams))
  /\ (o !! "cond" = None ->
      server_call fetch_outcome JSON_parse list_studies_tool o requests
      = (requests, InvalidParams))
  /\ (forall a, list_studies.shape o = Some a ->
      o !! "cond" = Some (JString EmptyString) ->
      let url := URL_toString (list_studies.build a) in
      fst (server_call fetch_outcome JSON_parse list_studies_tool o requests)
      = requests ++ [url]
      /\ href_param url "query.cond" = Some EmptyString).
Proof.
  assert (Hrefuse : z_string (o !! "cond") = None ->
            server_call fetch_outcome JSON_parse list_studies_tool o requests
            = (requests, InvalidParams)).
  { intros E. apply call_tool_refused.
    unfold list_studies.shape. now rewrite E. }
  split; [exact Hrefuse|].
  split; [intros E; apply Hrefuse; now rewrite E|].
  intros a Hs Hc url.
  destruct (list_studies_request fetch_outcome JSON_parse
              o a requests Hs) as (Hr & Hcond & Hq).
  fold url in Hr, Hq. split; [exact Hr|].
  rewrite Hq. rewrite Hc in Hcond. congruence.
Qed.

Lemma list_studies_cond_is_required_text_witness :
  let o : gmap string JSON := {[ "cond" := JString EmptyString ]} in
  let down := fun _ : string =>
    @inl Error Response (TypeError "fetch failed") in
  server_call down (fun _ => None) list_studies_tool ∅ []
  = ([], InvalidParams)
  /\ href_param
       ("https://clinicaltrials.gov/api/v2/studies?query.cond="
          +:+ "&pageSize=20&format=json&countTotal=true")
       "query.cond" = Some EmptyString.
Proof.
  intros o down. split.
  - apply (proj1 (list_studies_cond_is_required_text down (fun _ => None)
                    ∅ [])).
    reflexivity.
  - pose (a := list_studies.mkArgs EmptyString None None None (Some (number_of_Z 20))
                 (Some "json") None (Some "true") None).
    exact (proj2 (proj2 (proj2
             (list_studies_cond_is_required_text down (fun _ => None) o []))
             a eq_refl eq_refl)).
Defined.

(** C9, as it is worded, fails: the arguments with [cond] the empty string
    pass the schema, and the request goes out with an empty [query.cond]. *)
Lemma list_studies_empty_cond_counterexample :
  let o : gmap string JSON := {[ "cond" := JString EmptyString ]} in
  let down := fun _ : string =>
    @inl Error Response (TypeError "fetch failed") in
  o !! "cond" = Some (JString EmptyString)
  /\ server_call down (fun _ => None) list_studies_tool o []
     <> ([], InvalidParams)
  /\ fst (server_call down (fun _ => None) list_studies_tool o [])
     = ["https://clinicaltrials.gov/api/v2/studies?query.cond="
          +:+ "&pageSize=20&format=json&countTotal=true"].
Proof.
  intros o down. split; [reflexivity|]. split.
  - intros H. vm_compute in H. discriminate H.
  - reflexivity.
Qed.

(** ** The optional parameters *)

Lemma z_optional_string (v : option JSON) (x : option string) :
  z_optional z_string v = Some x ->
  (v = None -> x = None)
  /\ (forall s, v = Some (JString s) -> x = Some s).
Proof.
  intros H. split.
  - intros ->. simpl in H. congruence.
  - intros s ->. simpl in H. congruence.
Qed.

Lemma list_studies_shape_optional (o : gmap string JSON)
    (a : list_studies.Args) (p : OptionalParam) :
  list_studies.shape o = Some a ->
  z_optional z_string (o !! argument_key p)
  = Some (list_studies_optional a p).
Proof.
  unfold list_studies.shape. intros H. invert_shape H.
  destruct p; assumption.
Qed.

Lemma specific_fields_shape_optional (o : gmap string JSON)
    (a : specific_fields_in_study.Args) (p : OptionalParam) :
  specific_fields_in_study.shape o = Some a ->
  p <> opt_fields ->
  z_optional z_string (o !! argument_key p)
  = Some (specific_fields_optional a p).
Proof.
  unfold specific_fields_in_study.shape. intros H Hp. invert_shape H.
  destruct p; try assumption. congruence.
Qed.

(** The handler sets the query key of an optional parameter exactly when
    the parameter is truthy. *)
Lemma list_studies_optional_param (a : list_studies.Args)
    (p : OptionalParam) :
  href_param (URL_toString (list_studies.build a)) (query_key p)
  = if truthy (list_studies_optional a p) then list_studies_optional a p
    else None.
Proof.
  list_studies_get a.
  destruct p; simpl;
    each_option term; each_option locn; each_option overallStatus;
    each_option fields; each_option pageToken; reflexivity.
Qed.

Lemma specific_fields_optional_param (a : specific_fields_in_study.Args)
    (p : OptionalParam) :
  p <> opt_fields ->
  href_param (URL_toString (specific_fields_in_study.build a)) (query_key p)
  = if truthy (specific_fields_optional a p)
    then specific_fields_optional a p else None.
Proof.
  intros Hp. rewrite specific_fields_param, specific_fields_params.
  destruct a as [cond fields term locn overallStatus pageSize format
                 countTotal pageToken].
  destruct p; try congruence; simpl;
    each_option term; each_option locn; each_option overallStatus;
    each_option pageToken; reflexivity.
Qed.

(** For an accepted arguments object, the query key of an optional
    parameter in the requested URL, read off the arguments. *)
Lemma optional_param_of_arguments (t : ToolName) (p : OptionalParam)
    (o : gmap string JSON) (url : string) :
  optional_for t p = true ->
  request_url t o = Some url ->
  exists x, z_optional z_string (o !! argument_key p) = Some x
            /\ href_param url (query_key p) = if truthy x then x else None.
Proof.
  intros Hopt Hu. destruct t; [| discriminate Hopt |]; simpl in Hu;
    apply fmap_Some in Hu as (a & Hs & ->).
  - exists (list_studies_optional a p). split.
    + now apply list_studies_shape_optional.
    + apply list_studies_optional_param.
  - assert (Hp : p <> opt_fields) by (intros ->; discriminate Hopt).
    exists (specific_fields_optional a p). split.
    + now apply specific_fields_shape_optional.
    + now apply specific_fields_optional_param.
Qed.




(** Dropping an optional argument that is the empty string changes nothing
    in what the schema and the URL construction make of the arguments. *)
Ltac drop_argument Hempty :=
  rewrite lookup_delete_eq, ?lookup_delete_ne by discriminate;
  rewrite Hempty; simpl;
  repeat match goal with
         | |- context [?f (?o !! ?k)] =>
             destruct (f (o !! k)); simpl; try reflexivity
         end.

Lemma request_url_delete_empty (t : ToolName) (p : OptionalParam)
    (o : gmap string JSON) :
  optional_for t p = true ->
  o !! argument_key p = Some (JString EmptyString) ->
  request_url t (delete (argument_key p) o) = request_url t o.
Proof.
  intros Hopt Hempty.
  destruct t; [| discriminate Hopt |].
  - unfold request_url, list_studies.shape.
    destruct p; simpl argument_key in *; drop_argument Hempty.
  - unfold request_url, specific_fields_in_study.shape.
    destruct p; [| | | discriminate Hopt |];
      simpl argument_key in *; drop_argument Hempty.
Qed.

Lemma server_call_request_url (fetch_outcome : string -> Error + Response)
    (JSON_parse : string -> option JSON) (t : ToolName)
    (o o' : gmap string JSON) (requests : list string) :
  t <> get_study_tool ->
  request_url t o = request_url t o' ->
  server_call fetch_outcome JSON_parse t o requests
  = server_call fetch_outcome JSON_parse t o' requests.
Proof.
  intros Ht H. destruct (request_url t o) as [url|] eqn:E.
  - rewrite (server_call_relay _ _ _ _ _ _ E).
    now rewrite (server_call_relay _ _ _ _ url _ (eq_sym H)).
  - rewrite (server_call_refused _ _ _ _ _ Ht E).
    now rewrite (server_call_refused _ _ _ _ _ Ht (eq_sym H)).
Qed.

(** C10: an optional text parameter of list_studies or of
    specific_fields_in_study given as the empty string leaves its query key
    out of the requested URL, and the call is the very call made without
    the parameter. *)
Theorem empty_optional_param_is_absent
    (fetch_outcome : string -> Error + Response)
    (JSON_parse : string -> option JSON) (t : ToolName) (p : OptionalParam)
    (o : gmap string JSON) (requests : list string) :
  optional_for t p = true ->
  o !! argument_key p = Some (JString EmptyString) ->
  (forall url, request_url t o = Some url ->
     href_param url (query_key p) = None)
  /\ request_url t o = request_url t (delete (argument_key p) o)
  /\ server_call fetch_outcome JSON_parse t o requests
     = server_call fetch_outcome JSON_parse t (delete (argument_key p) o)
         requests.
Proof.
  intros Hopt Hempty.
  pose proof (request_url_delete_empty t p o Hopt Hempty) as Hd.
  split; [|split].
  - intros url Hu.
    destruct (optional_param_of_arguments t p o url Hopt Hu)
      as (x & Hx & ->).
    destruct (z_optional_string _ _ Hx) as [_ Hsome].
    now rewrite (Hsome _ Hempty).
  - now rewrite Hd.
  - apply server_call_request_url; [|now rewrite Hd].
    intros ->. discriminate Hopt.
Qed.

Lemma empty_optional_param_is_absent_witness :
  let o : gmap string JSON :=
    {[ "cond" := JString "asthma"; "fields" := JString "NCTId";
       "pageToken" := JString EmptyString ]} in
  let url := "https://clinicaltrials.gov/api/v2/studies?query.cond=asthma"
     +:+ "&fields=NCTId&pageSize=20&format=json&countTotal=true" in
  request_url specific_fields_in_study_tool o = Some url
  /\ href_param url "pageToken" = None
  /\ request_url specific_fields_in_study_tool (delete "pageToken" o)
     = Some url.
Proof.
  intros o url.
  assert (Hu : request_url specific_fields_in_study_tool o = Some url)
    by reflexivity.
  destruct (empty_optional_param_is_absent
              (fun _ => inl (TypeError "fetch failed")) (fun _ => None)
              specific_fields_in_study_tool opt_pageToken o []
              eq_refl eq_refl) as (Hkey & Hsame & _).
  split; [exact Hu|]. split; [exact (Hkey url Hu)|].
  simpl argument_key in Hsame. now rewrite <- Hsame.
Defined.

(** ** specific_fields_in_study against list_studies *)

(** Arguments specific_fields_in_study accepts are accepted by
    list_studies, with the same values. *)
Lemma specific_fields_shape_list_studies (o : gmap string JSON)
    (a : specific_fields_in_study.Args) :
  specific_fields_in_study.shape o = Some a ->
  list_studies.shape o = Some (as_list_studies a).
Proof.
  unfold specific_fields_in_study.shape. intros H. invert_shape H.
  unfold list_studies.shape, as_list_studies. simpl.
  repeat match goal with
         | E : ?f (o !! ?k) = Some _ |- context [?f (o !! ?k)] =>
             rewrite E; simpl
         end.
  match goal with
  | E : z_string (o !! "fields") = Some _ |- _ =>
      apply z_string_Some in E; rewrite E
  end.
  reflexivity.
Qed.

Lemma opt_param_text (name : string) (c : ascii) (s : string) :
  opt_param name (Some (String c s)) = [(name, String c s)].
Proof. reflexivity. Qed.

Lemma opt_param_empty (name : string) :
  opt_param name (Some EmptyString) = [].
Proof. reflexivity. Qed.

Lemma opt_param_none (name : string) : opt_param name None = [].
Proof. reflexivity. Qed.

Ltac project_args :=
  unfold as_list_studies;
  cbn [list_studies.cond list_studies.term list_studies.locn
       list_studies.overallStatus list_studies.pageSize list_studies.format
       list_studies.fields list_studies.countTotal list_studies.pageToken
       specific_fields_in_study.cond specific_fields_in_study.fields
       specific_fields_in_study.term specific_fields_in_study.locn
       specific_fields_in_study.overallStatus
       specific_fields_in_study.pageSize specific_fields_in_study.format
       specific_fields_in_study.countTotal
       specific_fields_in_study.pageToken].

Ltac key_cases k :=
  repeat match goal with
         | |- context [String.eqb ?n k] =>
             let E := fresh "E" in
             destruct (String.eqb n k) eqn:E;
             [apply String.eqb_eq in E|]
         end;
  try reflexivity; congruence.

Lemma specific_fields_same_values (a : specific_fields_in_study.Args)
    (k : string) :
  specific_fields_in_study.fields a <> EmptyString ->
  URLSearchParams.get k (searchParams (list_studies.build (as_list_studies a)))
  = URLSearchParams.get k (searchParams (specific_fields_in_study.build a)).
Proof.
  rewrite list_studies_params, specific_fields_params.
  destruct a as [cond fields term locn overallStatus pageSize format
                 countTotal pageToken].
  project_args. intros Hf.
  destruct fields as [|c fields]; [congruence|].
  each_option term; each_option locn; each_option overallStatus;
    each_option pageToken;
    rewrite ?opt_param_text, ?opt_param_empty, ?opt_param_none;
    cbn [app URLSearchParams.get];
    key_cases k.
Qed.

Lemma specific_fields_permutation (a : specific_fields_in_study.Args) :
  specific_fields_in_study.fields a <> EmptyString ->
  Permutation (searchParams (list_studies.build (as_list_studies a)))
              (searchParams (specific_fields_in_study.build a)).
Proof.
  rewrite list_studies_params, specific_fields_params.
  destruct a as [cond fields term locn overallStatus pageSize format
                 countTotal pageToken].
  project_args. intros Hf.
  destruct fields as [|c fields]; [congruence|].
  rewrite opt_param_text.
  apply perm_skip.
  match goal with
  | |- Permutation (?t ++ ?l ++ ?o ++ [?f] ++ ?rest) _ =>
      pose proof (Permutation_middle (t ++ l ++ o) rest f) as H;
      rewrite <- !List.app_assoc in H
  end.
  symmetry. exact H.
Qed.

(** C5, as the handlers are written: on arguments both tools accept, with a
    non-empty [fields], specific_fields_in_study and list_studies request
    the same endpoint with the same query parameters, every key with the
    same value; the two queries list them in a different order ([fields]
    comes second in the one, after [filter.overallStatus] in the other),
    and the two URLs are the same text when [term], [locn] and
    [overallStatus] are left out or empty. *)
Theorem specific_fields_same_parameters_as_list_studies
    (o : gmap string JSON) (a : specific_fields_in_study.Args) :
  specific_fields_in_study.shape o = Some a ->
  specific_fields_in_study.fields a <> EmptyString ->
  let listed := list_studies.build (as_list_studies a) in
  let specific := specific_fields_in_study.build a in
  list_studies.shape o = Some (as_list_studies a)
  /\ href_path listed = href_path specific
  /\ Permutation (searchParams listed) (searchParams specific)
  /\ (forall k, href_param (URL_toString listed) k
                = href_param (URL_toString specific) k)
  /\ (truthy (specific_fields_in_study.term a) = false ->
      truthy (specific_fields_in_study.locn a) = false ->
      truthy (specific_fields_in_study.overallStatus a) = false ->
      URL_toString listed = URL_toString specific).
Proof.
  intros Hs Hf listed specific.
  split; [now apply specific_fields_shape_list_studies|].
  split; [unfold listed, specific;
          now rewrite list_studies_path, specific_fields_path|].
  split; [now apply specific_fields_permutation|].
  split.
  - intros k. unfold listed, specific.
    rewrite list_studies_param, specific_fields_param.
    now apply specific_fields_same_values.
  - intros Ht Hl Ho. unfold URL_toString, listed, specific.
    rewrite list_studies_path, specific_fields_path.
    rewrite list_studies_params, specific_fields_params.
    destruct a as [cond fields term locn overallStatus pageSize format
                   countTotal pageToken].
    simpl in *. unfold opt_param. rewrite Ht, Hl, Ho.
    destruct fields as [|c fields]; [congruence|]. reflexivity.
Qed.

Lemma specific_fields_same_parameters_as_list_studies_witness :
  let o : gmap string JSON :=
    {[ "cond" := JString "asthma"; "fields" := JString "NCTId" ]} in
  request_url list_studies_tool o
  = request_url specific_fields_in_study_tool o
  /\ request_url specific_fields_in_study_tool o
     = Some ("https://clinicaltrials.gov/api/v2/studies?query.cond=asthma"
               +:+ "&fields=NCTId&pageSize=20&format=json&countTotal=true").
Proof.
  intros o.
  pose (a := specific_fields_in_study.mkArgs "asthma" "NCTId" None None
               None (Some (number_of_Z 20)) (Some "json") (Some "true") None).
  assert (Hs : specific_fields_in_study.shape o = Some a) by reflexivity.
  assert (Hf : specific_fields_in_study.fields a <> EmptyString)
    by discriminate.
  destruct (specific_fields_same_parameters_as_list_studies o a Hs Hf)
    as (Hl & _ & _ & _ & Hurl).
  split; [|reflexivity].
  unfold request_url. rewrite Hl, Hs.
  change (Some (URL_toString (list_studies.build (as_list_studies a)))
          = Some (URL_toString (specific_fields_in_study.build a))).
  now rewrite (Hurl eq_refl eq_refl eq_refl).
Defined.

(** C5, as it is worded, fails: with [term] given, the two tools request
    URLs that differ in the order of their query. *)
Lemma specific_fields_url_counterexample :
  let o : gmap string JSON :=
    {[ "cond" := JString "asthma"; "fields" := JString "NCTId";
       "term" := JString "child" ]} in
  request_url list_studies_tool o
  = Some ("https://clinicaltrials.gov/api/v2/studies?query.cond=asthma"
            +:+ "&query.term=child&fields=NCTId"
            +:+ "&pageSize=20&format=json&countTotal=true")
  /\ request_url specific_fields_in_study_tool o
     = Some ("https://clinicaltrials.gov/api/v2/studies?query.cond=asthma"
               +:+ "&fields=NCTId&query.term=child"
               +:+ "&pageSize=20&format=json&countTotal=true")
  /\ request_url list_studies_tool o
     <> request_url specific_fields_in_study_tool o.
Proof.
  intros o. split; [reflexivity|]. split; [reflexivity|].
  intros H. vm_compute in H. discriminate H.
Qed.

(** With [fields] the empty string list_studies leaves the key out and
    specific_fields_in_study sends it empty. *)
Lemma specific_fields_empty_fields :
  let o : gmap string JSON :=
    {[ "cond" := JString "asthma"; "fields" := JString EmptyString ]} in
  request_url list_studies_tool o
  = Some ("https://clinicaltrials.gov/api/v2/studies?query.cond=asthma"
            +:+ "&pageSize=20&format=json&countTotal=true")
  /\ request_url specific_fields_in_study_tool o
     = Some ("https://clinicaltrials.gov/api/v2/studies?query.cond=asthma"
               +:+ "&fields=&pageSize=20&format=json&countTotal=true").
Proof. intros o. split; reflexivity. Qed.

(** ** Sample runs *)

Example encodeURIComponent_reserved :
  encodeURIComponent "a b/c?d#e&f=g%"
  = inr "a%20b%2Fc%3Fd%23e%26f%3Dg%25".
Proof. reflexivity. Qed.

Example list_studies_sample_url :
  request_url list_studies_tool
    {[ "cond" := JString "breast cancer";
       "overallStatus" := JString "RECRUITING,NOT_YET_RECRUITING";
       "pageSize" := JNumber (number_of_Z 5) ]}
  = Some ("https://clinicaltrials.gov/api/v2/studies?query.cond=breast+cancer"
            +:+ "&filter.overallStatus=RECRUITING%2CNOT_YET_RECRUITING"
            +:+ "&pageSize=5&format=json&countTotal=true").
Proof. reflexivity. Qed.

Example list_studies_wrong_type_refused :
  request_url list_studies_tool
    {[ "cond" := JString "asthma"; "pageSize" := JString "5" ]}
  = None.
Proof. reflexivity. Qed.

Example JSON_stringify_nested :
  JSON_stringify
    (JObject [("studies", JArray [JObject [("id", JString "NCT1")]; JNull]);
              ("totalCount", JNumber (number_of_Z 2))]) 2
  = "{" +:+ newline
    +:+ "  " +:+ dquote +:+ "studies" +:+ dquote +:+ ": [" +:+ newline
    +:+ "    {" +:+ newline
    +:+ "      " +:+ dquote +:+ "id" +:+ dquote +:+ ": "
                 +:+ dquote +:+ "NCT1" +:+ dquote +:+ newline
    +:+ "    }," +:+ newline
    +:+ "    null" +:+ newline
    +:+ "  ]," +:+ newline
    +:+ "  " +:+ dquote +:+ "totalCount" +:+ dquote +:+ ": 2" +:+ newline
    +:+ "}".
Proof. reflexivity. Qed.

(** ** What [JSON.stringify] prints *)

(** Induction on a JSON value, with the property at every part of an array
    or an object. *)
Lemma JSON_nested_ind (P : JSON -> Prop) :
  P JNull -> (forall b, P (JBool b)) -> (forall x, P (JNumber x)) ->
  (forall s, P (JString s)) ->
  (forall l, Forall P l -> P (JArray l)) ->
  (forall l, Forall (fun m => P (snd m)) l -> P (JObject l)) ->
  forall v, P v.
Proof.
  intros Hnull Hbool Hnum Hstr Harr Hobj.
  fix IH 1. intros [ |b|x|s|l|l].
  - exact Hnull.
  - apply Hbool.
  - apply Hnum.
  - apply Hstr.
  - apply Harr. induction l as [|x l IHl]; constructor; [apply IH | exact IHl].
  - apply Hobj.
    induction l as [|[k x] l IHl]; constructor; [apply IH | exact IHl].
Qed.

Lemma spaces_app (n m : nat) : spaces n +:+ spaces m = spaces (n + m).
Proof. induction n as [|n IH]; [reflexivity|]. simpl. app_norm. now rewrite IH. Qed.

Lemma spaces_step (d : nat) : spaces (2 * d) +:+ "  " = spaces (2 * S d).
Proof.
  change "  "%string with (spaces 2). rewrite spaces_app. f_equal. lia.
Qed.

Lemma join_items {A : Type} (f : A -> string) (sep : string) (x : A)
    (l : list A) :
  URLSearchParams.join sep (List.map f (x :: l)) = f x +:+ items_text f sep l.
Proof.
  revert x. induction l as [|y l IH]; intros x.
  - simpl. now rewrite append_nil_r.
  - change (f x +:+ sep +:+ URLSearchParams.join sep (List.map f (y :: l))
            = f x +:+ sep +:+ f y +:+ items_text f sep l).
    now rewrite IH.
Qed.

Lemma items_text_ext {A : Type} (f g : A -> string) (sep : string)
    (l : list A) :
  Forall (fun x => f x = g x) l -> items_text f sep l = items_text g sep l.
Proof.
  induction 1 as [|x l Hx _ IH]; [reflexivity|].
  simpl. now rewrite Hx, IH.
Qed.

(** The serializer of the source, run with a gap of two spaces from an
    indentation of [2 * depth] spaces, prints the layout said with the
    depth. *)
Lemma SerializeJSONProperty_pretty (v : JSON) :
  forall depth,
    SerializeJSONProperty "  " (spaces (2 * depth)) v = pretty depth v.
Proof.
  induction v as [ |b|x|s|l IH|l IH] using JSON_nested_ind; intros depth;
    try reflexivity.
  - destruct l as [|x l]; [reflexivity|].
    apply Forall_cons in IH as [Hx Hl].
    cbn [SerializeJSONProperty pretty]. unfold SerializeJSONGroup.
    change (String.eqb "  " EmptyString) with false. cbv iota.
    rewrite join_items, spaces_step, Hx.
    rewrite (items_text_ext _ (pretty (S depth)) _ l).
    + unfold line_break. cbn [List.map]. now rewrite !append_assoc.
    + eapply Forall_impl; [exact Hl|]. intros y Hy. apply Hy.
  - destruct l as [|[k x] l]; [reflexivity|].
    apply Forall_cons in IH as [Hx Hl]. cbn [snd] in Hx.
    cbn [SerializeJSONProperty pretty]. unfold SerializeJSONGroup.
    change (String.eqb "  " EmptyString) with false. cbv iota.
    rewrite join_items, spaces_step, Hx.
    rewrite (items_text_ext _
               (fun '(k', x') =>
                  QuoteJSONString k' +:+ ": " +:+ pretty (S depth) x') _ l).
    + unfold line_break. cbn [List.map]. rewrite !append_assoc.
      app_norm. reflexivity.
    + eapply Forall_impl; [exact Hl|]. intros [k' y] Hy. cbn [snd] in Hy.
      rewrite Hy. reflexivity.
Qed.

Lemma JSON_stringify_pretty (data : JSON) :
  JSON_stringify data 2 = pretty 0 data.
Proof. apply (SerializeJSONProperty_pretty data 0). Qed.

(** ** Reading back a printed number *)

Import JSONText.

Lemma char_digit_digit_char (d : digit) : char_digit (digit_char d) = Some d.
Proof. destruct d; reflexivity. Qed.

Lemma ends_number_digits (rest : string) :
  ends_number rest = true -> read_digits rest = ([], rest).
Proof.
  destruct rest as [|c rest]; [reflexivity|]. simpl.
  destruct (char_digit c); [discriminate | reflexivity].
Qed.

Lemma ends_number_fraction (rest : string) :
  ends_number rest = true -> read_fraction rest = Some ([], rest).
Proof.
  destruct rest as [|c rest]; [reflexivity|]. simpl.
  destruct (char_digit c); [discriminate|].
  destruct (Ascii.eqb c "."); [discriminate | reflexivity].
Qed.

Lemma ends_number_exponent (rest : string) :
  ends_number rest = true -> read_exponent rest = Some (0, rest).
Proof.
  destruct rest as [|c rest]; [reflexivity|]. simpl.
  destruct (char_digit c); [discriminate|].
  destruct (Ascii.eqb c "."); [discriminate|].
  destruct (is_e c); [discriminate | reflexivity].
Qed.

Lemma read_digits_text (l : list digit) (rest : string) :
  read_digits rest = ([], rest) ->
  read_digits (digits_text l +:+ rest) = (l, rest).
Proof.
  intros Hrest. induction l as [|d l IH]; [exact Hrest|].
  cbn [digits_text]. app_norm. cbn [read_digits].
  now rewrite char_digit_digit_char, IH.
Qed.

Lemma strip_leading_zeros_replicate (m : nat) (l : list digit) :
  strip_leading_zeros (replicate m d0 ++ l) = strip_leading_zeros l.
Proof. induction m as [|m IH]; [reflexivity | exact IH]. Qed.

Lemma strip_trailing_zeros_replicate (l : list digit) (m : nat) :
  strip_trailing_zeros (l ++ replicate m d0) = strip_trailing_zeros l.
Proof.
  assert (Hzeros : strip_trailing_zeros (replicate m d0) = []).
  { induction m as [|m IH]; [reflexivity|]. simpl. now rewrite IH. }
  induction l as [|d l IH]; [exact Hzeros|].
  simpl. now rewrite IH.
Qed.

Lemma strip_trailing_zeros_last (d e : digit) (l : list digit) :
  is_d0 (List.last (d :: l) e) = false ->
  strip_trailing_zeros (d :: l) = d :: l.
Proof.
  revert d. induction l as [|x l IH]; intros d Hlast.
  - simpl in *. now rewrite Hlast.
  - change (List.last (d :: x :: l) e) with (List.last (x :: l) e) in Hlast.
    change (strip_trailing_zeros (d :: x :: l))
      with (match strip_trailing_zeros (x :: l) with
            | [] => if is_d0 d then [] else [d]
            | r => d :: r
            end).
    now rewrite (IH x Hlast).
Qed.

Lemma canonical_digits_inv (l : list digit) :
  canonical_digits l = true ->
  exists d rest, l = d :: rest /\ is_d0 d = false
                 /\ strip_trailing_zeros l = l.
Proof.
  destruct l as [|d rest]; [discriminate|].
  unfold canonical_digits. intros H.
  apply andb_prop in H as [Hd Hlast].
  apply negb_true_iff in Hd. apply negb_true_iff in Hlast.
  exists d, rest. repeat split; [exact Hd|].
  now apply (strip_trailing_zeros_last d d).
Qed.

(** The digits of a number between zeros, read with the point after
    [length int] digits. *)
Lemma make_number_canonical (negative : bool) (int frac digits : list digit)
    (a b : nat) (e : Z) :
  canonical_digits digits = true ->
  int ++ frac = replicate a d0 ++ digits ++ replicate b d0 ->
  make_number negative int frac e
  = Finite negative digits (Z.of_nat (length int) - Z.of_nat a + e).
Proof.
  intros Hcan Hall.
  destruct (canonical_digits_inv _ Hcan) as (d & rest & -> & Hd & Hstrip).
  unfold make_number. rewrite Hall, strip_leading_zeros_replicate.
  change ((d :: rest) ++ replicate b d0) with (d :: (rest ++ replicate b d0)).
  cbn [strip_leading_zeros]. rewrite Hd.
  change (d :: (rest ++ replicate b d0)) with ((d :: rest) ++ replicate b d0).
  rewrite strip_trailing_zeros_replicate, Hstrip.
  f_equal. rewrite !length_app, !length_replicate. lia.
Qed.

Lemma digits_uint_digits (u : Decimal.uint) : digits_uint (uint_digits u) = u.
Proof. induction u; simpl; congruence. Qed.

Lemma digits_of_N_value (m : N) : digits_N (digits_of_N m) = m.
Proof.
  unfold digits_N, digits_of_N. rewrite digits_uint_digits.
  apply DecimalN.Unsigned.of_to.
Qed.

Lemma digits_of_N_nonempty (m : N) : digits_of_N m <> [].
Proof.
  unfold digits_of_N. destruct m as [|p]; [discriminate|].
  simpl. pose proof (DecimalPos.Unsigned.to_uint_nonnil p) as Hp.
  destruct (Pos.to_uint p); [congruence | discriminate ..].
Qed.

Lemma read_exponent_text (e : Z) (rest : string) :
  ends_number rest = true ->
  read_exponent (exponent_text e +:+ rest) = Some (e, rest).
Proof.
  intros Hrest. apply ends_number_digits in Hrest.
  unfold exponent_text.
  pose proof (digits_of_N_nonempty (Z.abs_N e)) as Hne.
  pose proof (digits_of_N_value (Z.abs_N e)) as Hval.
  destruct (Z.ltb_spec e 0) as [Hneg|Hpos]; rewrite append_assoc; app_norm;
    cbn [read_exponent read_sign];
    change (is_e "e") with true; cbv iota;
    [change (Ascii.eqb "-" "-") with true
    |change (Ascii.eqb "+" "-") with false;
     change (Ascii.eqb "+" "+") with true]; cbv iota;
    rewrite (read_digits_text _ _ Hrest);
    destruct (digits_of_N (Z.abs_N e)) as [|x l]; try congruence;
    rewrite Hval; do 2 f_equal; lia.
Qed.

Lemma length_take_le {A : Type} (n : nat) (l : list A) :
  (n <= length l)%nat -> length (take n l) = n.
Proof. intros H. rewrite length_take. lia. Qed.

(** The four forms of [Number::toString]. *)
Lemma String_of_finite_cases (digits : list digit) (n : Z) :
  let k := Z.of_nat (length digits) in
  (k <= n <= 21
   /\ String_of_finite digits n
      = digits_text (digits ++ replicate (Z.to_nat (n - k)) d0))
  \/ (0 < n <= 21 /\ n < k
      /\ String_of_finite digits n
         = digits_text (take (Z.to_nat n) digits) +:+ "."
             +:+ digits_text (drop (Z.to_nat n) digits))
  \/ (-6 < n <= 0
      /\ String_of_finite digits n
         = "0." +:+ digits_text (replicate (Z.to_nat (- n)) d0 ++ digits))
  \/ ((21 < n \/ n <= -6)
      /\ String_of_finite digits n
         = match digits with
           | [d] => digits_text [d] +:+ exponent_text (n - 1)
           | d :: rest =>
               digits_text [d] +:+ "." +:+ digits_text rest
                 +:+ exponent_text (n - 1)
           | [] => exponent_text (n - 1)
           end).
Proof.
  intros k. unfold String_of_finite. fold k.
  destruct (Z.leb_spec k n); destruct (Z.leb_spec n 21);
    destruct (Z.ltb_spec 0 n); destruct (Z.ltb_spec (-6) n);
    destruct (Z.leb_spec n 0); cbn [andb];
    first [lia
          | left; split; [lia | reflexivity]
          | right; left; split; [lia | split; [lia | reflexivity]]
          | right; right; left; split; [lia | reflexivity]
          | right; right; right; split; [lia | reflexivity]].
Qed.

Lemma exponent_text_stops (e : Z) (rest : string) :
  read_digits (exponent_text e +:+ rest) = ([], exponent_text e +:+ rest)
  /\ read_fraction (exponent_text e +:+ rest)
     = Some ([], exponent_text e +:+ rest).
Proof. unfold exponent_text. destruct (e <? 0); split; reflexivity. Qed.

Lemma point_stops (s : string) :
  read_digits (String "." s) = ([], String "." s).
Proof. reflexivity. Qed.

Lemma read_digits_digit (d : digit) (s : string) (l : list digit)
    (r : string) :
  read_digits s = (l, r) -> read_digits (String (digit_char d) s) = (d :: l, r).
Proof.
  intros H. cbn [read_digits]. now rewrite char_digit_digit_char, H.
Qed.

Lemma read_fraction_point (s : string) :
  read_fraction (String "." s)
  = match read_digits s with
    | ([], _) => None
    | (l, r) => Some (l, r)
    end.
Proof. reflexivity. Qed.

(** [String_of_finite] writes decimal digits that the reader takes for
    those digits and that exponent. *)
Lemma read_unsigned_finite (negative : bool) (digits : list digit) (n : Z)
    (rest : string) :
  canonical_digits digits = true ->
  ends_number rest = true ->
  read_unsigned negative (String_of_finite digits n +:+ rest)
  = Some (Finite negative digits n, rest).
Proof.
  intros Hcan Hrest.
  destruct (canonical_digits_inv _ Hcan) as (d & tl & Heq & Hd & _).
  pose proof (ends_number_digits _ Hrest) as Hdigits.
  pose proof (ends_number_fraction _ Hrest) as Hfrac.
  pose proof (ends_number_exponent _ Hrest) as Hexp.
  unfold read_unsigned.
  destruct (String_of_finite_cases digits n)
    as [[Hn ->]|[(Hn & Hk & ->)|[[Hn ->]|[Hn ->]]]].
  - (* an integer, with zeros after its digits *)
    rewrite (read_digits_text _ _ Hdigits).
    replace (integer_part_ok _) with true
      by (subst digits; simpl; now rewrite Hd).
    rewrite Hfrac, Hexp. f_equal. f_equal.
    rewrite (make_number_canonical negative _ [] digits 0
               (Z.to_nat (n - Z.of_nat (length digits))) 0 Hcan)
      by (now rewrite app_nil_r).
    f_equal. rewrite length_app, length_replicate. lia.
  - (* digits on both sides of the point *)
    rewrite !append_assoc. app_norm.
    rewrite (read_digits_text _ _ (point_stops _)).
    assert (Htake : take (Z.to_nat n) digits = d :: take (Z.to_nat n - 1) tl).
    { subst digits. destruct (Z.to_nat n) eqn:Hn'; [lia|].
      simpl. now rewrite Nat.sub_0_r. }
    replace (integer_part_ok _) with true
      by (rewrite Htake; simpl; now rewrite Hd).
    rewrite read_fraction_point, (read_digits_text _ _ Hdigits).
    destruct (drop (Z.to_nat n) digits) as [|y dr] eqn:Hdrop.
    { apply (f_equal (@length digit)) in Hdrop.
      rewrite length_drop in Hdrop. simpl in Hdrop. lia. }
    rewrite Hexp. f_equal. f_equal. rewrite <- Hdrop.
    rewrite (make_number_canonical negative _ _ digits 0 0 0 Hcan)
      by (rewrite app_nil_r; apply take_drop).
    f_equal. rewrite length_take_le by lia. lia.
  - (* zeros between the point and the digits *)
    app_norm. rewrite (read_digits_digit d0 _ _ _ (point_stops _)).
    change (integer_part_ok [d0]) with true. cbv iota.
    rewrite read_fraction_point, (read_digits_text _ _ Hdigits).
    destruct (replicate (Z.to_nat (- n)) d0 ++ digits) as [|y l] eqn:Hl.
    { subst digits. now destruct (replicate (Z.to_nat (- n)) d0). }
    rewrite Hexp. f_equal. f_equal. rewrite <- Hl.
    rewrite (make_number_canonical negative [d0] _ digits
               (S (Z.to_nat (- n))) 0 0 Hcan)
      by (now rewrite app_nil_r).
    f_equal. simpl length. lia.
  - (* exponent notation *)
    destruct (exponent_text_stops (n - 1) rest) as [Hstop Hnofrac].
    subst digits. destruct tl as [|x tl].
    + cbn [digits_text]. app_norm.
      rewrite (read_digits_digit d _ _ _ Hstop).
      replace (integer_part_ok [d]) with true by (simpl; now rewrite Hd).
      rewrite Hnofrac, (read_exponent_text _ _ Hrest). f_equal. f_equal.
      rewrite (make_number_canonical negative [d] [] [d] 0 0 (n - 1) Hcan)
        by reflexivity.
      f_equal. simpl. lia.
    + rewrite !append_assoc. cbn [digits_text]. app_norm.
      rewrite (read_digits_digit d _ _ _ (point_stops _)).
      replace (integer_part_ok [d]) with true by (simpl; now rewrite Hd).
      rewrite read_fraction_point.
      change (String (digit_char x) (digits_text tl +:+ ?s))
        with (digits_text (x :: tl) +:+ s).
      rewrite (read_digits_text _ _ Hstop), (read_exponent_text _ _ Hrest).
      f_equal. f_equal.
      rewrite (make_number_canonical negative [d] (x :: tl) (d :: x :: tl)
                 0 0 (n - 1) Hcan) by (now rewrite app_nil_r).
      f_equal. simpl. lia.
Qed.

Lemma read_number_finite (negative : bool) (digits : list digit) (n : Z)
    (rest : string) :
  canonical_digits digits = true ->
  ends_number rest = true ->
  read_number (String_of_number (Finite negative digits n) +:+ rest)
  = Some (Finite negative digits n, rest).
Proof.
  intros Hcan Hrest. cbn [String_of_number].
  destruct negative.
  - app_norm. cbn [read_number]. change (Ascii.eqb "-" "-") with true.
    cbv iota. now apply read_unsigned_finite.
  - app_norm. rewrite <- (read_unsigned_finite false digits n rest Hcan Hrest).
    destruct (canonical_digits_inv _ Hcan) as (d & tl & -> & Hd & _).
    destruct (String_of_finite_cases (d :: tl) n)
      as [[Hn ->]|[(Hn & Hk & ->)|[[Hn ->]|[Hn ->]]]].
    + cbn [app digits_text]. app_norm. cbn [read_number].
      now destruct d.
    + destruct (Z.to_nat n) eqn:Hn'; [lia|].
      cbn [take digits_text]. app_norm. cbn [read_number]. now destruct d.
    + reflexivity.
    + destruct tl; cbn [digits_text]; app_norm; cbn [read_number];
        now destruct d.
Qed.

Lemma read_number_zero (rest : string) :
  ends_number rest = true ->
  read_number (String "0" rest) = Some (Zero false, rest).
Proof.
  intros Hrest.
  change (read_number (String "0" rest))
    with (read_unsigned false (String (digit_char d0) rest)).
  unfold read_unsigned.
  rewrite (read_digits_digit d0 _ _ _ (ends_number_digits _ Hrest)).
  change (integer_part_ok [d0]) with true. cbv iota.
  now rewrite (ends_number_fraction _ Hrest), (ends_number_exponent _ Hrest).
Qed.

(** ** Reading back a quoted string *)

Lemma read_string_body_char (c : ascii) (t : string) :
  read_string_body (QuoteJSONChar c +:+ t)
  = prepend (String c EmptyString) (read_string_body t).
Proof. each_byte c; reflexivity. Qed.

Lemma no_low_escape_char (c : ascii) (t : string) :
  no_low_escape (QuoteJSONChar c +:+ t) = true.
Proof. each_byte c; reflexivity. Qed.

(** The escape of a lone surrogate, for each of the 2048 of them. *)
Lemma surrogate_table :
  forallb
    (fun a =>
       forallb
         (fun b =>
            let c2 := ascii_of_N (160 + a) in
            let c3 := ascii_of_N (128 + b) in
            let cp := surrogate_code c2 c3 in
            String.eqb (utf8_encode cp)
              (String (ascii_of_N 237) (String c2 (String c3 EmptyString)))
            && match UnicodeEscape cp with
               | String _ (String _ (String h1 (String h2 (String h3
                   (String h4 EmptyString))))) =>
                   match read_hex4 h1 h2 h3 h4 with
                   | Some v => (v =? cp)%N
                   | None => false
                   end
               | _ => false
               end
            && Bool.eqb (is_high_surrogate cp) (a <? 16)%N
            && Bool.eqb (is_low_surrogate cp) (16 <=? a)%N)
         (List.map N.of_nat (seq 0 64)))
    (List.map N.of_nat (seq 0 32))
  = true.
Proof. vm_compute. reflexivity. Qed.

Lemma surrogate_bytes_facts (c c2 c3 : ascii) :
  is_surrogate_bytes c c2 c3 = true ->
  let cp := surrogate_code c2 c3 in
  utf8_encode cp = String c (String c2 (String c3 EmptyString))
  /\ (exists h1 h2 h3 h4,
        UnicodeEscape cp
        = String "\" (String "u" (String h1 (String h2 (String h3
            (String h4 EmptyString)))))
        /\ read_hex4 h1 h2 h3 h4 = Some cp)
  /\ is_high_surrogate cp = (N_of_ascii c2 <=? 175)%N
  /\ is_low_surrogate cp = (176 <=? N_of_ascii c2)%N.
Proof.
  unfold is_surrogate_bytes. intros H.
  repeat (apply andb_prop in H as [H ?]).
  apply N.eqb_eq in H.
  repeat match goal with
         | E : (_ <=? _)%N = true |- _ => apply N.leb_le in E
         end.
  assert (Hc : c = ascii_of_N 237)
    by (rewrite <- H; symmetry; apply ascii_N_embedding).
  set (a := (N_of_ascii c2 - 160)%N).
  set (b := (N_of_ascii c3 - 128)%N).
  assert (Hc2 : c2 = ascii_of_N (160 + a)).
  { rewrite <- (ascii_N_embedding c2) at 1. f_equal. unfold a. lia. }
  assert (Hc3 : c3 = ascii_of_N (128 + b)).
  { rewrite <- (ascii_N_embedding c3) at 1. f_equal. unfold b. lia. }
  assert (Ha : In a (List.map N.of_nat (seq 0 32))).
  { apply in_map_iff. exists (N.to_nat a). split; [apply N2Nat.id|].
    apply in_seq. unfold a. lia. }
  assert (Hb : In b (List.map N.of_nat (seq 0 64))).
  { apply in_map_iff. exists (N.to_nat b). split; [apply N2Nat.id|].
    apply in_seq. unfold b. lia. }
  pose proof surrogate_table as T.
  rewrite forallb_forall in T. specialize (T a Ha).
  rewrite forallb_forall in T. specialize (T b Hb).
  cbv zeta in T. rewrite <- Hc2, <- Hc3 in T.
  repeat (apply andb_prop in T as [T ?]).
  apply String.eqb_eq in T.
  repeat match goal with
         | E : Bool.eqb _ _ = true |- _ => apply Bool.eqb_prop in E
         end.
  cbv zeta. split; [now rewrite T, Hc|]. split; [|split].
  - unfold UnicodeEscape in *.
    match goal with
    | E : match _ with String _ _ => _ | EmptyString => _ end = true |- _ =>
        revert E
    end.
    app_norm. intros E.
    destruct (read_hex4 _ _ _ _) as [v|] eqn:Ev; [|discriminate E].
    apply N.eqb_eq in E. subst v. eauto 6.
  - match goal with
    | E : is_high_surrogate _ = _ |- _ => rewrite E
    end.
    unfold a. destruct (N.ltb_spec (N_of_ascii c2 - 160) 16);
      destruct (N.leb_spec (N_of_ascii c2) 175); try reflexivity; lia.
  - match goal with
    | E : is_low_surrogate _ = _ |- _ => rewrite E
    end.
    unfold a. destruct (N.leb_spec 16 (N_of_ascii c2 - 160));
      destruct (N.leb_spec 176 (N_of_ascii c2)); try reflexivity; lia.
Qed.

(** The reader at a [\u] escape. *)
Lemma read_string_body_escape (h1 h2 h3 h4 : ascii) (t : string) (cp : N) :
  read_hex4 h1 h2 h3 h4 = Some cp ->
  is_high_surrogate cp = false \/ no_low_escape t = true ->
  read_string_body
    (String "\" (String "u" (String h1 (String h2 (String h3 (String h4 t))))))
  = prepend (utf8_encode cp) (read_string_body t).
Proof.
  intros Hcp Hnext.
  cbn -[read_hex4 utf8_encode is_high_surrogate is_low_surrogate prepend].
  rewrite Hcp.
  destruct (is_high_surrogate cp); [|reflexivity].
  destruct Hnext as [Hn|Hn]; [discriminate Hn|].
  unfold no_low_escape in Hn.
  destruct t as [|b1 after1]; [reflexivity|].
  destruct (Percent.code b1 =? 92)%N; [|reflexivity].
  destruct after1 as [|b2 after2]; [reflexivity|].
  destruct (Ascii.eqb b2 "u"); [|reflexivity].
  destruct after2 as [|l1 [|l2 [|l3 [|l4 rest3]]]]; try reflexivity.
  destruct (read_hex4 l1 l2 l3 l4) as [lo|]; [|reflexivity].
  apply negb_true_iff in Hn. now rewrite Hn.
Qed.

Lemma QuoteJSONBody_cases (c : ascii) (t : string) :
  QuoteJSONBody (String c t) = QuoteJSONChar c +:+ QuoteJSONBody t
  \/ exists c2 c3 t3,
       t = String c2 (String c3 t3)
       /\ is_surrogate_bytes c c2 c3 = true
       /\ QuoteJSONBody (String c t)
          = UnicodeEscape (surrogate_code c2 c3) +:+ QuoteJSONBody t3.
Proof.
  destruct t as [|c2 [|c3 t3]]; [now left | now left |].
  destruct (is_surrogate_bytes c c2 c3) eqn:E.
  - right. exists c2, c3, t3. repeat split; [exact E|].
    change (QuoteJSONBody (String c (String c2 (String c3 t3))))
      with (if is_surrogate_bytes c c2 c3
            then UnicodeEscape (surrogate_code c2 c3) +:+ QuoteJSONBody t3
            else QuoteJSONChar c +:+ QuoteJSONBody (String c2 (String c3 t3))).
    now rewrite E.
  - left.
    change (QuoteJSONBody (String c (String c2 (String c3 t3))))
      with (if is_surrogate_bytes c c2 c3
            then UnicodeEscape (surrogate_code c2 c3) +:+ QuoteJSONBody t3
            else QuoteJSONChar c +:+ QuoteJSONBody (String c2 (String c3 t3))).
    now rewrite E.
Qed.

Lemma canonical_text_tail (c : ascii) (t : string) :
  canonical_text (String c t) = true -> canonical_text t = true.
Proof. cbn [canonical_text]. intros H. now apply andb_prop in H as [_ H]. Qed.

(** What is quoted does not go on with the escape of a low surrogate,
    unless the string does with a low surrogate. *)
Lemma no_low_escape_quoted (s rest : string) :
  starts_with_surrogate true s = false ->
  no_low_escape (QuoteJSONBody s +:+ dquote +:+ rest) = true.
Proof.
  intros Hs. destruct s as [|c t]; [reflexivity|].
  destruct (QuoteJSONBody_cases c t) as [-> | (c2 & c3 & t3 & -> & Hsur & ->)].
  - rewrite append_assoc. apply no_low_escape_char.
  - destruct (surrogate_bytes_facts c c2 c3 Hsur)
      as (_ & (h1 & h2 & h3 & h4 & -> & Hhex) & _ & Hlow).
    cbn [starts_with_surrogate] in Hs. rewrite Hsur in Hs. cbn [andb] in Hs.
    app_norm. cbn -[read_hex4 is_low_surrogate].
    now rewrite Hhex, Hlow, Hs.
Qed.

Lemma read_string_body_quoted_upto (n : nat) :
  forall s rest,
    (String.length s <= n)%nat ->
    canonical_text s = true ->
    read_string_body (QuoteJSONBody s +:+ dquote +:+ rest) = Some (s, rest).
Proof.
  induction n as [|n IH]; intros s rest Hlen Hs;
    (destruct s as [|c t]; [reflexivity|]); cbn [String.length] in Hlen;
    [lia|].
  destruct (QuoteJSONBody_cases c t) as [-> | (c2 & c3 & t3 & -> & Hsur & ->)].
  - rewrite append_assoc, read_string_body_char.
    rewrite IH by (first [lia | now apply canonical_text_tail in Hs]).
    reflexivity.
  - destruct (surrogate_bytes_facts c c2 c3 Hsur)
      as (Hutf & (h1 & h2 & h3 & h4 & -> & Hhex) & Hhigh & _).
    pose proof Hs as Hs3.
    do 3 apply canonical_text_tail in Hs3.
    app_norm.
    rewrite (read_string_body_escape _ _ _ _ _ _ Hhex).
    + rewrite Hutf, IH by (first [cbn [String.length] in Hlen; lia
                                 | exact Hs3]).
      reflexivity.
    + destruct (is_high_surrogate (surrogate_code c2 c3)) eqn:E;
        [right | now left].
      apply no_low_escape_quoted.
      cbn [canonical_text] in Hs. apply andb_prop in Hs as [Hs _].
      apply negb_true_iff in Hs.
      cbn [starts_with_surrogate after_three] in Hs.
      rewrite Hsur, <- Hhigh in Hs. cbn [andb] in Hs. exact Hs.
Qed.

Lemma read_string_body_quoted (s rest : string) :
  canonical_text s = true ->
  read_string_body (QuoteJSONBody s +:+ dquote +:+ rest) = Some (s, rest).
Proof. apply (read_string_body_quoted_upto (String.length s)). lia. Qed.

Lemma QuoteJSONString_cons (s rest : string) :
  QuoteJSONString s +:+ rest
  = String (ascii_of_N 34) (QuoteJSONBody s +:+ dquote +:+ rest).
Proof.
  unfold QuoteJSONString. rewrite !append_assoc. reflexivity.
Qed.

(** ** Reading back a printed value *)

Lemma skip_ws_spaces (n : nat) (t : string) :
  skip_ws (spaces n +:+ t) = skip_ws t.
Proof. induction n as [|n IH]; [reflexivity | exact IH]. Qed.

Lemma skip_ws_line_break (depth : nat) (t : string) :
  skip_ws (line_break depth +:+ t) = skip_ws t.
Proof.
  unfold line_break. rewrite append_assoc.
  exact (skip_ws_spaces (2 * depth) t).
Qed.

Lemma ends_number_line_break (depth : nat) (t : string) :
  ends_number (line_break depth +:+ t) = true.
Proof. unfold line_break. rewrite append_assoc. reflexivity. Qed.

Lemma String_of_finite_head (digits : list digit) (n : Z) :
  canonical_digits digits = true ->
  exists d t, String_of_finite digits n = String (digit_char d) t.
Proof.
  intros Hcan.
  destruct (canonical_digits_inv _ Hcan) as (d & tl & -> & Hd & _).
  destruct (String_of_finite_cases (d :: tl) n)
    as [[Hn ->]|[(Hn & Hk & ->)|[[Hn ->]|[Hn ->]]]].
  - now exists d, (digits_text (tl ++ replicate (Z.to_nat (n - Z.of_nat (length (d :: tl)))) d0)).
  - destruct (Z.to_nat n) eqn:Hn'; [lia|].
    cbn [take digits_text]. app_norm. eauto.
  - now exists d0, ("." +:+ digits_text (replicate (Z.to_nat (- n)) d0 ++ d :: tl)).
  - destruct tl; cbn [digits_text]; app_norm; eauto.
Qed.

(** The text of a value starts with a byte that is no blank and closes
    nothing. *)
Lemma pretty_head (depth : nat) (v : JSON) :
  canonical v = true ->
  exists c t, pretty depth v = String c t /\ is_ws c = false
              /\ Ascii.eqb c "]" = false /\ Ascii.eqb c "}" = false.
Proof.
  intros Hcan. destruct v as [ |[]|x|s|[|y l]|[|[k y] l]];
    try (cbn [pretty]; unfold QuoteJSONString; app_norm;
         eexists _, _; repeat split; reflexivity).
  destruct x as [ |neg|neg|[] digits n];
    try (eexists _, _; repeat split; reflexivity).
  destruct (String_of_finite_head digits n Hcan) as (d & t & Ht).
  cbn [pretty is_finite String_of_number]. rewrite Ht. app_norm.
  exists (digit_char d), t. now destruct d.
Qed.

Lemma skip_ws_pretty (depth : nat) (v : JSON) (rest : string) :
  canonical v = true ->
  skip_ws (pretty depth v +:+ rest) = pretty depth v +:+ rest.
Proof.
  intros Hcan. destruct (pretty_head depth v Hcan) as (c & t & -> & Hws & _).
  app_norm. cbn [skip_ws]. now rewrite Hws.
Qed.

(** One step of the reader at each kind of value. *)
Lemma read_value_string (fuel : nat) (t : string) :
  read_value (S fuel) (String (ascii_of_N 34) t)
  = match read_string_body t with
    | Some (str, r) => Some (JString str, r)
    | None => None
    end.
Proof. reflexivity. Qed.

Lemma read_value_number (fuel : nat) (x : number) (rest : string) :
  canonical_number x = true -> is_finite x = true ->
  ends_number rest = true ->
  read_value (S fuel) (String_of_number x +:+ rest)
  = Some (number_as_printed x, rest).
Proof.
  intros Hcan Hfin Hrest. destruct x as [ |neg|neg|neg digits n];
    try discriminate.
  - transitivity (match read_number (String "0" rest) with
                  | Some (x, r) => Some (JNumber x, r)
                  | None => None
                  end); [reflexivity|].
    now rewrite read_number_zero.
  - transitivity
      (match read_number (String_of_number (Finite neg digits n) +:+ rest) with
       | Some (x, r) => Some (JNumber x, r)
       | None => None
       end).
    + cbn [String_of_number].
      destruct (String_of_finite_head digits n Hcan) as (d & t & ->).
      destruct neg; app_norm; [reflexivity|]. now destruct d.
    + now rewrite read_number_finite.
Qed.

Lemma read_value_open (fuel depth : nat) (x : JSON) (rest : string) :
  canonical x = true ->
  read_value (S fuel) (String "[" (line_break depth +:+ pretty depth x +:+ rest))
  = match read_elements fuel (pretty depth x +:+ rest) with
    | Some (l, r) => Some (JArray l, r)
    | None => None
    end.
Proof.
  intros Hcan.
  transitivity
    (match skip_ws (line_break depth +:+ pretty depth x +:+ rest) with
     | EmptyString => None
     | String c' r' =>
         if Ascii.eqb c' "]" then Some (JArray [], r')
         else
           match read_elements fuel (String c' r') with
           | Some (l, r) => Some (JArray l, r)
           | None => None
           end
     end); [reflexivity|].
  rewrite skip_ws_line_break, (skip_ws_pretty _ _ _ Hcan).
  destruct (pretty_head depth x Hcan) as (c & t & -> & _ & Hc & _).
  app_norm. now rewrite Hc.
Qed.

Lemma read_elements_step (fuel : nat) (s : string) :
  read_elements (S fuel) s
  = match read_value fuel s with
    | None => None
    | Some (v, s1) =>
        match skip_ws s1 with
        | EmptyString => None
        | String c r =>
            if Ascii.eqb c "," then
              match read_elements fuel (skip_ws r) with
              | Some (l, r') => Some (v :: l, r')
              | None => None
              end
            else if Ascii.eqb c "]" then Some ([v], r)
            else None
        end
    end.
Proof. reflexivity. Qed.

Lemma read_value_open_object (fuel depth : nat) (k rest : string) :
  read_value (S fuel)
    (String "{" (line_break depth +:+ QuoteJSONString k +:+ rest))
  = match read_members fuel (QuoteJSONString k +:+ rest) with
    | Some (l, r) => Some (JObject l, r)
    | None => None
    end.
Proof.
  transitivity
    (match skip_ws (line_break depth +:+ QuoteJSONString k +:+ rest) with
     | EmptyString => None
     | String c' r' =>
         if Ascii.eqb c' "}" then Some (JObject [], r')
         else
           match read_members fuel (String c' r') with
           | Some (l, r) => Some (JObject l, r)
           | None => None
           end
     end); [reflexivity|].
  rewrite skip_ws_line_break, QuoteJSONString_cons. reflexivity.
Qed.

Lemma read_members_step (fuel : nat) (k t : string) :
  canonical_text k = true ->
  read_members (S fuel) (QuoteJSONString k +:+ ": " +:+ t)
  = match read_value fuel (skip_ws t) with
    | None => None
    | Some (v, s3) =>
        match skip_ws s3 with
        | EmptyString => None
        | String c' r =>
            if Ascii.eqb c' "," then
              match read_members fuel (skip_ws r) with
              | Some (l, r') => Some ((k, v) :: l, r')
              | None => None
              end
            else if Ascii.eqb c' "}" then Some ([(k, v)], r)
            else None
        end
    end.
Proof.
  intros Hk. rewrite QuoteJSONString_cons.
  transitivity
    (match read_string_body (QuoteJSONBody k +:+ dquote +:+ ": " +:+ t) with
     | None => None
     | Some (k', s1) =>
         match skip_ws s1 with
         | EmptyString => None
         | String c s2 =>
             if Ascii.eqb c ":" then
               match read_value fuel (skip_ws s2) with
               | None => None
               | Some (v, s3) =>
                   match skip_ws s3 with
                   | EmptyString => None
                   | String c' r =>
                       if Ascii.eqb c' "," then
                         match read_members fuel (skip_ws r) with
                         | Some (l, r') => Some ((k', v) :: l, r')
                         | None => None
                         end
                       else if Ascii.eqb c' "}" then Some ([(k', v)], r)
                       else None
                   end
               end
             else None
         end
     end); [reflexivity|].
  rewrite (read_string_body_quoted _ _ Hk). reflexivity.
Qed.

(** Unfolding of [+:+] that leaves the parts still to read as they are. *)
Ltac app_norm_head :=
  match goal with
  | |- context [items_text ?f ?sep ?l] =>
      let tl := fresh "tl" in
      set (tl := items_text f sep l);
      rewrite ?append_assoc; app_norm; subst tl
  | _ => rewrite ?append_assoc; app_norm
  end.

(** The parts of an array, read back one after the other. *)
Lemma read_elements_pretty (depth : nat) (rest : string) (l : list JSON) :
  forall (x : JSON) (fuel : nat),
    Forall (fun v => canonical v = true -> reads_back v) (x :: l) ->
    forallb canonical (x :: l) = true ->
    (list_sum (List.map (fun y => S (weight y)) (x :: l)) <= fuel)%nat ->
    read_elements fuel
      (pretty (S depth) x
       +:+ items_text (pretty (S depth)) ("," +:+ line_break (S depth)) l
       +:+ line_break depth +:+ String "]" rest)
    = Some (List.map JSON_as_printed (x :: l), rest).
Proof.
  induction l as [|y l IH]; intros x fuel Hall Hcan Hfuel;
    apply Forall_cons in Hall as [Hx Hall];
    cbn [forallb] in Hcan; apply andb_prop in Hcan as [Hcx Hcan];
    cbn [List.map list_sum fold_right] in Hfuel;
    (destruct fuel as [|fuel]; [lia|]);
    rewrite read_elements_step.
  - cbn [items_text]. app_norm.
    rewrite (Hx Hcx) by (first [lia | apply ends_number_line_break]).
    rewrite skip_ws_line_break. reflexivity.
  - cbn [items_text]. app_norm_head.
    rewrite (Hx Hcx) by (first [lia | reflexivity]).
    cbn [skip_ws]. change (is_ws ",") with false. cbv iota.
    change (Ascii.eqb "," ",") with true. cbv iota.
    pose proof Hcan as Hcy. cbn [forallb] in Hcy.
    apply andb_prop in Hcy as [Hcy _].
    rewrite skip_ws_line_break, (skip_ws_pretty _ _ _ Hcy).
    rewrite (IH y fuel Hall Hcan) by (cbn [List.map list_sum fold_right]; lia).
    reflexivity.
Qed.

(** The members of an object, read back one after the other. *)
Lemma read_members_pretty (depth : nat) (rest : string)
    (l : list (string * JSON)) :
  forall (k : string) (x : JSON) (fuel : nat),
    Forall (fun m => canonical (snd m) = true -> reads_back (snd m))
      ((k, x) :: l) ->
    forallb (fun '(k', y) => canonical_text k' && canonical y) ((k, x) :: l)
    = true ->
    (list_sum (List.map (fun '(_, y) => S (weight y)) ((k, x) :: l)) <= fuel)%nat ->
    read_members fuel
      (QuoteJSONString k +:+ ": " +:+ pretty (S depth) x
       +:+ items_text
             (fun '(k', x') =>
                QuoteJSONString k' +:+ ": " +:+ pretty (S depth) x')
             ("," +:+ line_break (S depth)) l
       +:+ line_break depth +:+ String "}" rest)
    = Some (List.map (fun '(k', y) => (k', JSON_as_printed y)) ((k, x) :: l),
            rest).
Proof.
  induction l as [|[k' y] l IH]; intros k x fuel Hall Hcan Hfuel;
    apply Forall_cons in Hall as [Hx Hall]; cbn [snd] in Hx;
    cbn [forallb] in Hcan; apply andb_prop in Hcan as [Hcx Hcan];
    apply andb_prop in Hcx as [Hck Hcx];
    cbn [List.map list_sum fold_right] in Hfuel;
    (destruct fuel as [|fuel]; [lia|]);
    rewrite (read_members_step _ _ _ Hck), (skip_ws_pretty _ _ _ Hcx).
  - cbn [items_text]. app_norm.
    rewrite (Hx Hcx) by (first [lia | apply ends_number_line_break]).
    rewrite skip_ws_line_break. reflexivity.
  - cbn [items_text]. app_norm_head.
    rewrite (Hx Hcx) by (first [lia | reflexivity]).
    cbn [skip_ws]. change (is_ws ",") with false. cbv iota.
    change (Ascii.eqb "," ",") with true. cbv iota.
    rewrite skip_ws_line_break, QuoteJSONString_cons.
    cbn [skip_ws]. change (is_ws (ascii_of_N 34)) with false. cbv iota.
    rewrite <- QuoteJSONString_cons.
    assert (Hl := IH k' y fuel Hall Hcan).
    match goal with
    | |- context [read_members fuel ?t] =>
        replace (read_members fuel t)
          with (Some (List.map (fun '(k0, y0) => (k0, JSON_as_printed y0))
                        ((k', y) :: l), rest))
          by (symmetry; apply Hl; cbn [List.map list_sum fold_right]; lia)
    end.
    reflexivity.
Qed.

(** The text printed for a value is read back as the value as printed. *)
Lemma read_value_pretty (v : JSON) : canonical v = true -> reads_back v.
Proof.
  induction v as [ |b|x|s|l IH|l IH] using JSON_nested_ind;
    intros Hcan depth fuel rest Hfuel Hrest;
    (destruct fuel as [|fuel]; [cbn [weight] in Hfuel; lia|]).
  - reflexivity.
  - destruct b; reflexivity.
  - cbn [pretty JSON_as_printed]. destruct (is_finite x) eqn:Hfin.
    + now apply read_value_number.
    + destruct x; try discriminate; reflexivity.
  - cbn [pretty JSON_as_printed].
    rewrite QuoteJSONString_cons, read_value_string.
    rewrite (read_string_body_quoted _ _ Hcan). reflexivity.
  - destruct l as [|x l]; [reflexivity|].
    cbn [pretty JSON_as_printed]. app_norm_head.
    pose proof Hcan as Hcx. cbn [canonical forallb] in Hcx.
    apply andb_prop in Hcx as [Hcx _].
    rewrite (read_value_open _ _ _ _ Hcx).
    rewrite (read_elements_pretty depth rest l x fuel IH Hcan)
      by (cbn [weight] in Hfuel; cbn [List.map list_sum fold_right] in *; lia).
    reflexivity.
  - destruct l as [|[k x] l]; [reflexivity|].
    cbn [pretty JSON_as_printed]. app_norm_head.
    rewrite read_value_open_object.
    assert (Hl := read_members_pretty depth rest l k x fuel IH Hcan).
    match goal with
    | |- context [read_members fuel ?t] =>
        replace (read_members fuel t)
          with (Some (List.map (fun '(k0, y0) => (k0, JSON_as_printed y0))
                        ((k, x) :: l), rest))
          by (symmetry; apply Hl; cbn [weight] in Hfuel; lia)
    end.
    reflexivity.
Qed.

(** The length of the text is fuel enough. *)
Lemma string_length_append (a b : string) :
  String.length (a +:+ b) = (String.length a + String.length b)%nat.
Proof. induction a as [|c a IH]; [reflexivity|]. app_norm. simpl. now rewrite IH. Qed.

Lemma items_text_weight {A : Type} (f : A -> string) (w : A -> nat)
    (sep : string) (l : list A) :
  (1 <= String.length sep)%nat ->
  Forall (fun y => (w y <= String.length (f y))%nat) l ->
  (list_sum (List.map (fun y => S (w y)) l)
   <= String.length (items_text f sep l))%nat.
Proof.
  intros Hsep. induction 1 as [|y l Hy _ IH]; [simpl; lia|].
  cbn [List.map list_sum fold_right items_text].
  rewrite !string_length_append.
  change (foldr Init.Nat.add 0%nat (List.map (fun y => S (w y)) l))
    with (list_sum (List.map (fun y => S (w y)) l)).
  lia.
Qed.

Lemma weight_le_length (v : JSON) :
  canonical v = true ->
  forall depth, (weight v <= String.length (pretty depth v))%nat.
Proof.
  induction v as [ |b|x|s|l IH|l IH] using JSON_nested_ind;
    intros Hcan depth;
    try (destruct (pretty_head depth _ Hcan) as (c & t & -> & _);
         cbn [weight String.length]; lia).
  - destruct l as [|x l]; [cbn; lia|].
    cbn [canonical forallb] in Hcan. apply andb_prop in Hcan as [Hcx Hcl].
    apply Forall_cons in IH as [Hx Hl].
    cbn [weight pretty List.map list_sum fold_right].
    rewrite !string_length_append.
    pose proof (Hx Hcx (S depth)).
    pose proof (items_text_weight (pretty (S depth)) weight
                  ("," +:+ line_break (S depth)) l) as Hsum.
    unfold list_sum in Hsum.
    assert (list_sum (List.map (fun y => S (weight y)) l)
            <= String.length
                 (items_text (pretty (S depth))
                    ("," +:+ line_break (S depth)) l))%nat as Hle.
    { apply Hsum; [app_norm; simpl; lia|].
      apply List.Forall_forall. intros y Hy.
      rewrite List.Forall_forall in Hl. apply (Hl y Hy).
      rewrite forallb_forall in Hcl. now apply Hcl. }
    unfold list_sum in Hle. cbn [String.length]. lia.
  - destruct l as [|[k x] l]; [cbn; lia|].
    cbn [canonical forallb] in Hcan. apply andb_prop in Hcan as [Hcx Hcl].
    apply andb_prop in Hcx as [_ Hcx].
    apply Forall_cons in IH as [Hx Hl]. cbn [snd] in Hx.
    cbn [weight pretty List.map list_sum fold_right].
    rewrite !string_length_append.
    pose proof (Hx Hcx (S depth)).
    assert (list_sum (List.map (fun m : string * JSON => S (weight (snd m))) l)
            <= String.length
                 (items_text
                    (fun '(k', x') =>
                       QuoteJSONString k' +:+ ": " +:+ pretty (S depth) x')
                    ("," +:+ line_break (S depth)) l))%nat as Hle.
    { apply (items_text_weight _ (fun m : string * JSON => weight (snd m)));
        [app_norm; simpl; lia|].
      apply List.Forall_forall. intros [k' y] Hy. cbn [snd].
      rewrite !string_length_append.
      rewrite List.Forall_forall in Hl. specialize (Hl _ Hy). cbn [snd] in Hl.
      rewrite forallb_forall in Hcl. specialize (Hcl _ Hy).
      apply andb_prop in Hcl as [_ Hcl].
      specialize (Hl Hcl (S depth)). lia. }
    assert (List.map (fun '(_, y) => S (weight y)) l
            = List.map (fun m : string * JSON => S (weight (snd m))) l) as ->.
    { apply List.map_ext. now intros [k' y]. }
    unfold list_sum in Hle. cbn [String.length]. lia.
Qed.

(** The text [JSON.stringify] prints with a gap of two spaces is a JSON
    text, and the value it stands for is the value as printed. *)
Lemma JSON_read_stringify (data : JSON) :
  canonical data = true ->
  JSON_read (JSON_stringify data 2) = Some (JSON_as_printed data).
Proof.
  intros Hcan. rewrite JSON_stringify_pretty. unfold JSON_read.
  pose proof (skip_ws_pretty 0 data EmptyString Hcan) as Hskip.
  rewrite append_nil_r in Hskip. rewrite Hskip.
  pose proof (read_value_pretty data Hcan 0%nat
                (S (String.length (pretty 0 data))) EmptyString) as Hread.
  rewrite append_nil_r in Hread. rewrite Hread; [reflexivity| |reflexivity].
  pose proof (weight_le_length data Hcan 0%nat). lia.
Qed.

Lemma JSON_as_printed_id (v : JSON) :
  prints_itself v = true -> JSON_as_printed v = v.
Proof.
  induction v as [ |b|x|s|l IH|l IH] using JSON_nested_ind; intros Hv;
    try reflexivity.
  - destruct x as [ |neg|[]|neg digits n]; try discriminate; reflexivity.
  - cbn [JSON_as_printed prints_itself] in *. f_equal.
    induction IH as [|y l Hy _ IHl]; [reflexivity|].
    cbn [forallb] in Hv. apply andb_prop in Hv as [Hy' Hl].
    cbn [List.map]. now rewrite (Hy Hy'), (IHl Hl).
  - cbn [JSON_as_printed prints_itself] in *. f_equal.
    induction IH as [|[k y] l Hy _ IHl]; [reflexivity|].
    cbn [forallb] in Hv. apply andb_prop in Hv as [Hy' Hl].
    cbn [List.map snd] in *. now rewrite (Hy Hy'), (IHl Hl).
Qed.

(** C4, as the handler is written: for each of the three tools, an upstream
    response with a 2xx status and a JSON body makes the call return one text
    block, and the client is answered with it.  Its text is what the serializer prints
    for the value read from the body: the two-space layout said with the
    depth, which is a JSON text.  Read as JSON, the text stands for that
    value (held as the platform holds it, [canonical]) with its non-finite
    numbers turned into [null] and its negative zeros into [0]; for a value
    with neither, for the value itself, every member and element in its
    place, and so for the value the body stands for when that is the value
    read.  The object with the one member a = 1 gives the three lines of
    its pretty-printed form. *)
Theorem upstream_json_is_pretty_printed
    (fetch_outcome : string -> Error + Response)
    (JSON_parse : string -> option JSON) (t : ToolName)
    (o : gmap string JSON) (url : string) (res : Response) (data : JSON)
    (requests : list string) :
  request_url t o = Some url ->
  fetch_outcome url = inr res ->
  success_status res ->
  JSON_parse (body res) = Some data ->
  server_call fetch_outcome JSON_parse t o requests
  = (requests ++ [url],
     Returned {| content :=
       [ {| type := "text"; text := JSON_stringify data 2 |} ] |})
  /\ McpServer_callTool fetch_outcome JSON_parse t o requests
     = (requests ++ [url],
        ResultReply {| content :=
          [ {| type := "text"; text := JSON_stringify data 2 |} ] |} false)
  /\ JSON_stringify data 2 = pretty 0 data
  /\ (canonical data = true ->
      JSON_read (JSON_stringify data 2) = Some (JSON_as_printed data))
  /\ (prints_itself data = true -> JSON_as_printed data = data)
  /\ (canonical data = true -> prints_itself data = true ->
      JSON_read (body res) = Some data ->
      JSON_read (JSON_stringify data 2) = JSON_read (body res))
  /\ (data = JObject [("a", JNumber (number_of_Z 1))] ->
      JSON_stringify data 2
      = "{" +:+ newline +:+ "  " +:+ dquote +:+ "a" +:+ dquote +:+ ": 1"
          +:+ newline +:+ "}").
Proof.
  intros Hu Hf Hs Hd.
  assert (Hcall : server_call fetch_outcome JSON_parse t o requests
                  = (requests ++ [url],
                     Returned (text_result (JSON_stringify data 2)))).
  { rewrite (server_call_relay _ _ _ _ _ _ Hu). settle_with Hf.
    apply ok_success in Hs. now rewrite Hs, Hd. }
  split; [exact Hcall|]. split.
  { unfold McpServer_callTool. now rewrite Hcall. }
  split; [apply JSON_stringify_pretty|]. split; [apply JSON_read_stringify|].
  split; [apply JSON_as_printed_id|]. split.
  { intros Hcan Hsame Hbody.
    now rewrite (JSON_read_stringify _ Hcan), (JSON_as_printed_id _ Hsame). }
  intros ->. reflexivity.
Qed.

Lemma upstream_json_is_pretty_printed_witness :
  let o : gmap string JSON := {[ "nct_id" := JString "NCT04267848" ]} in
  let url := "https://clinicaltrials.gov/api/v2/studies/NCT04267848" in
  let payload := "{" +:+ dquote +:+ "a" +:+ dquote +:+ ":1}" in
  let data := JObject [("a", JNumber (number_of_Z 1))] in
  let res := mkResponse 200 "OK" payload in
  let upstream := fun _ : string => @inr Error Response res in
  let reader := fun s : string =>
    if String.eqb s payload then Some data else None in
  let printed := "{" +:+ newline +:+ "  " +:+ dquote +:+ "a" +:+ dquote
                   +:+ ": 1" +:+ newline +:+ "}" in
  server_call upstream reader get_study_tool o []
  = ([url],
     Returned {| content := [ {| type := "text"; text := printed |} ] |})
  /\ JSON_read printed = Some data
  /\ JSON_read printed = JSON_read payload.
Proof.
  intros o url payload data res upstream reader printed.
  destruct (upstream_json_is_pretty_printed upstream reader get_study_tool
              o url res data [])
    as (Hcall & _ & _ & Hread & Hsame & Hbody & Htext).
  - reflexivity.
  - reflexivity.
  - unfold success_status. simpl. lia.
  - reflexivity.
  - split; [|split].
    + rewrite Hcall, (Htext eq_refl). reflexivity.
    + unfold printed.
      rewrite <- (Htext eq_refl), (Hread eq_refl), (Hsame eq_refl).
      reflexivity.
    + unfold printed. rewrite <- (Htext eq_refl).
      apply (Hbody eq_refl eq_refl). reflexivity.
Defined.

(** A payload with a number too large for a double: the value read from
    [1e999] is Infinity, the text shows [null], and the value the text
    stands for is not the value of the payload. *)
Lemma upstream_json_infinity_counterexample :
  let o : gmap string JSON := {[ "nct_id" := JString "NCT04267848" ]} in
  let url := "https://clinicaltrials.gov/api/v2/studies/NCT04267848" in
  let payload := "{" +:+ dquote +:+ "a" +:+ dquote +:+ ":1e999}" in
  let data := JObject [("a", JNumber (Infinity false))] in
  let res := mkResponse 200 "OK" payload in
  let upstream := fun _ : string => @inr Error Response res in
  let reader := fun s : string =>
    if String.eqb s payload then Some data else None in
  let printed := "{" +:+ newline +:+ "  " +:+ dquote +:+ "a" +:+ dquote
                   +:+ ": null" +:+ newline +:+ "}" in
  server_call upstream reader get_study_tool o []
  = ([url],
     Returned {| content := [ {| type := "text"; text := printed |} ] |})
  /\ JSON_read printed = Some (JObject [("a", JNull)])
  /\ JSON_read printed <> Some data.
Proof.
  intros o url payload data res upstream reader printed.
  split; [reflexivity|]. split; [reflexivity|]. discriminate.
Qed.

(** A lone surrogate in a string of the payload is printed as its escape,
    which stands for it. *)
Example JSON_stringify_lone_surrogate :
  let lone := String (ascii_of_N 237) (String (ascii_of_N 160)
                (String (ascii_of_N 128) EmptyString)) in
  JSON_stringify (JString lone) 2 = dquote +:+ "\ud800" +:+ dquote
  /\ JSON_read (JSON_stringify (JString lone) 2) = Some (JString lone).
Proof. split; reflexivity. Qed.

(** The same for the zero with a minus sign, which is printed as [0]. *)
Example JSON_stringify_negative_zero :
  JSON_stringify (JArray [JNumber (Zero true)]) 2
  = JSON_stringify (JArray [JNumber (Zero false)]) 2.
Proof. reflexivity. Qed.

(** * Further properties of the handlers *)

(** ** The outcome of a call, case by case *)

Lemma encodeURIComponent_error (id : string) (e : Error) :
  encodeURIComponent id = inl e ->
  has_lone_surrogate id = true /\ e = URIError "URI malformed".
Proof.
  unfold encodeURIComponent. destruct (has_lone_surrogate id); [|discriminate].
  intros H. injection H as <-. now split.
Qed.

(** X1: a call makes one request at most, and keeps the requests made
    before.  It makes exactly one, to the URL of its arguments and whatever
    the upstream service answers, when the schema accepts the arguments and
    the URL can be built.  It makes none when the schema refuses them, and
    none when the [nct_id] of get_study holds a lone surrogate: the schema
    accepts it, and [encodeURIComponent] throws before [fetch] is
    reached. *)
Theorem each_call_makes_at_most_one_request
    (fetch_outcome : string -> Error + Response)
    (JSON_parse : string -> option JSON) (t : ToolName)
    (o : gmap string JSON) (requests : list string) :
  match request_url t o with
  | Some url =>
      fst (server_call fetch_outcome JSON_parse t o requests)
      = requests ++ [url]
      /\ snd (server_call fetch_outcome JSON_parse t o requests)
         <> InvalidParams
  | None =>
      fst (server_call fetch_outcome JSON_parse t o requests) = requests
      /\ (snd (server_call fetch_outcome JSON_parse t o requests)
          = InvalidParams
          \/ (t = get_study_tool
              /\ exists id,
                   o !! "nct_id" = Some (JString id)
                   /\ has_lone_surrogate id = true
                   /\ snd (server_call fetch_outcome JSON_parse t o requests)
                      = Threw (URIError "URI malformed")))
  end.
Proof.
  destruct (request_url t o) as [url|] eqn:Hu.
  - rewrite (server_call_relay _ _ _ _ _ _ Hu).
    split; [reflexivity|]. now destruct (settle _ _ url).
  - destruct (server_call_no_request fetch_outcome JSON_parse t o requests Hu)
      as [-> | (id & e & Ht & Hid & He & ->)]; [split; [reflexivity | now left]|].
    apply encodeURIComponent_error in He as [Hlone ->].
    split; [reflexivity|]. right. split; [exact Ht|]. now exists id.
Qed.

(** A [nct_id] that is the one lone surrogate U+D800: no request. *)
Example get_study_lone_surrogate_makes_no_request :
  let id := String (ascii_of_N 237) (String (ascii_of_N 160)
              (String (ascii_of_N 128) EmptyString)) in
  server_call (fun _ => inl (TypeError "fetch failed")) (fun _ => None)
    get_study_tool {[ "nct_id" := JString id ]} []
  = ([], Threw (URIError "URI malformed")).
Proof. reflexivity. Qed.

(** X2: a response with a 2xx status whose body is not JSON makes the call
    throw a [SyntaxError] after its one request; no text result is
    returned. *)
Theorem success_without_json_throws
    (fetch_outcome : string -> Error + Response)
    (JSON_parse : string -> option JSON) (t : ToolName)
    (o : gmap string JSON) (url : string) (res : Response)
    (requests : list string) :
  request_url t o = Some url ->
  fetch_outcome url = inr res ->
  success_status res ->
  JSON_parse (body res) = None ->
  exists message,
    server_call fetch_outcome JSON_parse t o requests
    = (requests ++ [url], Threw (SyntaxError message)).
Proof.
  intros Hu Hf Hs Hd. eexists.
  rewrite (server_call_relay _ _ _ _ _ _ Hu). unfold settle. rewrite Hf, Hd.
  apply ok_success in Hs. rewrite Hs. reflexivity.
Qed.

Lemma success_without_json_throws_witness :
  let o : gmap string JSON :=
    {[ "cond" := JString "asthma"; "format" := JString "csv" ]} in
  let url := "https://clinicaltrials.gov/api/v2/studies?query.cond=asthma"
               +:+ "&pageSize=20&format=csv&countTotal=true" in
  let upstream := fun _ : string =>
    @inr Error Response (mkResponse 200 "OK" "NCT Number,Study Title") in
  exists message,
    server_call upstream (fun _ => None) list_studies_tool o []
    = ([url], Threw (SyntaxError message)).
Proof.
  intros o url upstream.
  apply (success_without_json_throws upstream (fun _ => None)
           list_studies_tool o url
           (mkResponse 200 "OK" "NCT Number,Study Title") []).
  - reflexivity.
  - reflexivity.
  - unfold success_status. simpl. lia.
  - reflexivity.
Defined.





(** ** Telling failure from success *)

Lemma prefix_append (p rest : string) : String.prefix p (p +:+ rest) = true.
Proof.
  induction p as [|c p IH]; app_norm.
  - now destruct rest.
  - simpl. destruct (ascii_dec c c); [exact IH | congruence].
Qed.

Lemma prefix_cons (a b : ascii) (p s : string) :
  String.prefix (String a p) (String b s)
  = if ascii_dec a b then String.prefix p s else false.
Proof. reflexivity. Qed.

Lemma JSON_stringify_no_error_prefix (data : JSON) (space : nat) :
  String.prefix error_prefix (JSON_stringify data space) = false.
Proof.
  unfold JSON_stringify.
  pose proof (SerializeJSONProperty_head (spaces (Nat.min 10 space))
                EmptyString data) as H.
  destruct (SerializeJSONProperty _ _ data) as [|c rest]; [reflexivity|].
  unfold error_prefix. rewrite prefix_cons.
  destruct (ascii_dec "C" c) as [<-|]; [discriminate H | reflexivity].
Qed.

(** X5: the text of a returned result starts with "ClinicalTrials.gov
    error: " exactly when the status of the response was not 2xx: the text
    of a JSON value never starts that way, so the caller can tell the two
    apart by the text. *)
Theorem error_prefix_tells_failure
    (fetch_outcome : string -> Error + Response)
    (JSON_parse : string -> option JSON) (t : ToolName)
    (o : gmap string JSON) (url : string) (res : Response)
    (requests requests' : list string) (r : CallToolResult) :
  request_url t o = Some url ->
  fetch_outcome url = inr res ->
  server_call fetch_outcome JSON_parse t o requests = (requests', Returned r) ->
  exists message,
    content r = [ {| type := "text"; text := message |} ]
    /\ (String.prefix error_prefix message = true <-> ~ success_status res).
Proof.
  intros Hu Hf H.
  rewrite (server_call_relay _ _ _ _ _ _ Hu) in H. unfold settle in H.
  rewrite Hf in H.
  destruct (ok res) eqn:Hok.
  - destruct (JSON_parse (body res)) as [data|]; [|discriminate H].
    injection H as <- <-. eexists. split; [reflexivity|].
    rewrite JSON_stringify_no_error_prefix.
    apply ok_success in Hok. split; [discriminate | tauto].
  - injection H as <- <-. eexists. split; [reflexivity|].
    unfold error_text. fold error_prefix. rewrite prefix_append.
    apply ok_failure in Hok. tauto.
Qed.

Lemma error_prefix_tells_failure_witness :
  let o : gmap string JSON := {[ "nct_id" := JString "NCT04267848" ]} in
  let res := mkResponse 200 "OK" "[]" in
  let upstream := fun _ : string => @inr Error Response res in
  let reader := fun _ : string => Some (JArray []) in
  exists message,
    snd (server_call upstream reader get_study_tool o [])
    = Returned {| content := [ {| type := "text"; text := message |} ] |}
    /\ String.prefix error_prefix message = false.
Proof.
  intros o res upstream reader.
  destruct (error_prefix_tells_failure upstream reader get_study_tool o
              _ res [] _ _ eq_refl eq_refl eq_refl) as (message & Hc & Hp).
  exists message. split.
  - simpl in Hc. injection Hc as <-. reflexivity.
  - destruct (String.prefix error_prefix message); [|reflexivity].
    exfalso. apply (proj1 Hp eq_refl).
    unfold success_status. simpl. lia.
Defined.

(** ** What the schemas accept, key by key *)

Lemma z_string_accepts (v : option JSON) :
  is_Some (z_string v) <-> is_text v = true.
Proof.
  destruct v as [[]|]; simpl; split; intros H;
    try discriminate; try (destruct H; discriminate); eauto.
Qed.

Lemma z_optional_string_accepts (v : option JSON) :
  is_Some (z_optional z_string v) <-> is_optional_text v = true.
Proof.
  destruct v as [[]|]; simpl; split; intros H;
    try discriminate; try (destruct H; discriminate); eauto.
Qed.

Lemma z_default_string_accepts (d : string) (v : option JSON) :
  is_Some (z_default (JString d) (z_optional z_string) v)
  <-> is_optional_text v = true.
Proof.
  destruct v as [[]|]; simpl; split; intros H;
    try discriminate; try (destruct H; discriminate); eauto.
Qed.

Lemma z_default_number_accepts (d : number) (v : option JSON) :
  is_finite d = true ->
  is_Some (z_default (JNumber d) (z_optional z_number) v)
  <-> is_optional_number v = true.
Proof.
  intros Hd. destruct v as [[ | |x| | | ]|]; simpl; rewrite ?Hd;
    try destruct (is_finite x); simpl; split; intros H;
    try discriminate; try (destruct H; discriminate); eauto.
Qed.

(** From the acceptance of a value to the parsed value. *)
Ltac accepted_value H :=
  match type of H with
  | is_text _ = true => apply z_string_accepts in H as [? H]
  | is_optional_text (_ !! "format") = true =>
      apply (z_default_string_accepts "json") in H as [? H]
  | is_optional_text (_ !! "countTotal") = true =>
      apply (z_default_string_accepts "true") in H as [? H]
  | is_optional_text _ = true => apply z_optional_string_accepts in H as [? H]
  | is_optional_number _ = true =>
      apply (z_default_number_accepts (number_of_Z 20) _ eq_refl) in H
        as [? H]
  end.

Ltac parsed_value :=
  repeat match goal with
         | H : z_string _ = Some _ |- _ =>
             apply mk_is_Some, z_string_accepts in H
         | H : z_optional z_string _ = Some _ |- _ =>
             apply mk_is_Some, z_optional_string_accepts in H
         | H : z_default (JString _) _ _ = Some _ |- _ =>
             apply mk_is_Some, z_default_string_accepts in H
         | H : z_default (JNumber _) _ _ = Some _ |- _ =>
             apply mk_is_Some,
               (z_default_number_accepts (number_of_Z 20) _ eq_refl) in H
         end.

Lemma list_studies_accepts (o : gmap string JSON) :
  is_Some (list_studies.shape o)
  <-> is_text (o !! "cond") = true
      /\ is_optional_text (o !! "term") = true
      /\ is_optional_text (o !! "locn") = true
      /\ is_optional_text (o !! "overallStatus") = true
      /\ is_optional_number (o !! "pageSize") = true
      /\ is_optional_text (o !! "format") = true
      /\ is_optional_text (o !! "fields") = true
      /\ is_optional_text (o !! "countTotal") = true
      /\ is_optional_text (o !! "pageToken") = true.
Proof.
  split.
  - intros [a H]. unfold list_studies.shape in H. invert_shape H.
    parsed_value. repeat split; assumption.
  - intros (H1 & H2 & H3 & H4 & H5 & H6 & H7 & H8 & H9).
    accepted_value H1; accepted_value H2; accepted_value H3;
      accepted_value H4; accepted_value H5; accepted_value H6;
      accepted_value H7; accepted_value H8; accepted_value H9.
    unfold list_studies.shape.
    rewrite H1, H2, H3, H4, H5, H6, H7, H8, H9. simpl. eauto.
Qed.

Lemma specific_fields_accepts (o : gmap string JSON) :
  is_Some (specific_fields_in_study.shape o)
  <-> is_text (o !! "cond") = true
      /\ is_text (o !! "fields") = true
      /\ is_optional_text (o !! "term") = true
      /\ is_optional_text (o !! "locn") = true
      /\ is_optional_text (o !! "overallStatus") = true
      /\ is_optional_number (o !! "pageSize") = true
      /\ is_optional_text (o !! "format") = true
      /\ is_optional_text (o !! "countTotal") = true
      /\ is_optional_text (o !! "pageToken") = true.
Proof.
  split.
  - intros [a H]. unfold specific_fields_in_study.shape in H.
    invert_shape H. parsed_value. repeat split; assumption.
  - intros (H1 & H2 & H3 & H4 & H5 & H6 & H7 & H8 & H9).
    accepted_value H1; accepted_value H2; accepted_value H3;
      accepted_value H4; accepted_value H5; accepted_value H6;
      accepted_value H7; accepted_value H8; accepted_value H9.
    unfold specific_fields_in_study.shape.
    rewrite H1, H2, H3, H4, H5, H6, H7, H8, H9. simpl. eauto.
Qed.

Lemma get_study_accepts (o : gmap string JSON) :
  is_Some (get_study.shape o) <-> is_text (o !! "nct_id") = true.
Proof.
  unfold get_study.shape. rewrite <- z_string_accepts.
  destruct (z_string (o !! "nct_id")); simpl; split; intros [x H];
    try discriminate; eauto.
Qed.

(** X6: what each schema accepts, read key by key.  list_studies wants a
    text [cond], and each other key either left out or of its type (a
    finite number for [pageSize], a text for the rest).
    specific_fields_in_study wants the same with a text [fields], get_study
    a text [nct_id].  A value of another type under a declared key, [null]
    included, refuses the call, and so does a [pageSize] that is not finite,
    as a number too large for a double is once read. *)
Theorem schemas_accept_by_type (o : gmap string JSON) :
  (is_Some (list_studies.shape o)
   <-> is_text (o !! "cond") = true
       /\ is_optional_text (o !! "term") = true
       /\ is_optional_text (o !! "locn") = true
       /\ is_optional_text (o !! "overallStatus") = true
       /\ is_optional_number (o !! "pageSize") = true
       /\ is_optional_text (o !! "format") = true
       /\ is_optional_text (o !! "fields") = true
       /\ is_optional_text (o !! "countTotal") = true
       /\ is_optional_text (o !! "pageToken") = true)
  /\ (is_Some (specific_fields_in_study.shape o)
      <-> is_text (o !! "cond") = true
          /\ is_text (o !! "fields") = true
          /\ is_optional_text (o !! "term") = true
          /\ is_optional_text (o !! "locn") = true
          /\ is_optional_text (o !! "overallStatus") = true
          /\ is_optional_number (o !! "pageSize") = true
          /\ is_optional_text (o !! "format") = true
          /\ is_optional_text (o !! "countTotal") = true
          /\ is_optional_text (o !! "pageToken") = true)
  /\ (is_Some (get_study.shape o) <-> is_text (o !! "nct_id") = true)
  /\ (forall x, o !! "pageSize" = Some (JNumber x) -> is_finite x = false ->
        list_studies.shape o = None
        /\ specific_fields_in_study.shape o = None).
Proof.
  split; [apply list_studies_accepts|].
  split; [apply specific_fields_accepts|].
  split; [apply get_study_accepts|].
  intros x Hx Hfin.
  assert (Hno : is_optional_number (o !! "pageSize") <> true)
    by (rewrite Hx; simpl; congruence).
  split; apply eq_None_not_Some; intros H.
  - apply list_studies_accepts in H. tauto.
  - apply specific_fields_accepts in H. tauto.
Qed.

(** A call of list_studies with the [pageSize] 1e999 is refused. *)
Example list_studies_infinite_pageSize_refused :
  server_call (fun _ => inl (TypeError "fetch failed")) (fun _ => None)
    list_studies_tool
    {[ "cond" := JString "asthma"; "pageSize" := JNumber (Infinity false) ]} []
  = ([], InvalidParams).
Proof. reflexivity. Qed.

(** X7: specific_fields_in_study accepts an arguments object exactly when
    list_studies accepts it and [fields] is there as a text. *)
Theorem specific_fields_accepts_when_list_studies_does
    (o : gmap string JSON) :
  is_Some (request_url specific_fields_in_study_tool o)
  <-> is_Some (request_url list_studies_tool o)
      /\ is_text (o !! "fields") = true.
Proof.
  unfold request_url. rewrite !fmap_is_Some.
  rewrite specific_fields_accepts, list_studies_accepts.
  split.
  - intros (H1 & H2 & H3 & H4 & H5 & H6 & H7 & H8 & H9).
    repeat split; try assumption.
    destruct (o !! "fields") as [[]|]; try discriminate; reflexivity.
  - intros ((H1 & H2 & H3 & H4 & H5 & H6 & H7 & H8 & H9) & Hf).
    repeat split; assumption.
Qed.

(** ** The parameters that are always set *)

Lemma z_default_optional_filled {A : Type} (d : JSON) (inner : Schema A)
    (v : option JSON) (x : option A) :
  z_default d (z_optional inner) v = Some x -> is_Some x.
Proof.
  destruct v as [w|]; simpl; intros H;
    apply fmap_Some in H as (y & _ & ->); eauto.
Qed.










(** The [pageSize] 1e21 is sent with an exponent, its plus sign encoded,
    and 2.5 as it is written. *)
Example list_studies_pageSize_exponent :
  request_url list_studies_tool
    {[ "cond" := JString "asthma";
       "pageSize" := JNumber (Finite false [d1] 22) ]}
  = Some ("https://clinicaltrials.gov/api/v2/studies?query.cond=asthma"
            +:+ "&pageSize=1e%2B21&format=json&countTotal=true").
Proof. reflexivity. Qed.

Example list_studies_pageSize_fraction :
  request_url list_studies_tool
    {[ "cond" := JString "asthma";
       "pageSize" := JNumber (Finite false [d2; d5] 1) ]}
  = Some ("https://clinicaltrials.gov/api/v2/studies?query.cond=asthma"
            +:+ "&pageSize=2.5&format=json&countTotal=true").
Proof. reflexivity. Qed.

(** X9: the arguments the schema hands to the handler of list_studies or of
    specific_fields_in_study always have [pageSize], [format] and
    [countTotal] filled in, so the defaults written in the handler's
    parameter list are never the ones that apply. *)
Theorem validated_arguments_have_defaults_filled (o : gmap string JSON) :
  (forall a, list_studies.shape o = Some a ->
     is_Some (list_studies.pageSize a)
     /\ is_Some (list_studies.format a)
     /\ is_Some (list_studies.countTotal a))
  /\ (forall a, specific_fields_in_study.shape o = Some a ->
        is_Some (specific_fields_in_study.pageSize a)
        /\ is_Some (specific_fields_in_study.format a)
        /\ is_Some (specific_fields_in_study.countTotal a)).
Proof.
  split; intros a H.
  - unfold list_studies.shape in H. invert_shape H.
    repeat split; eapply z_default_optional_filled; eassumption.
  - unfold specific_fields_in_study.shape in H. invert_shape H.
    repeat split; eapply z_default_optional_filled; eassumption.
Qed.

Lemma validated_arguments_have_defaults_filled_witness :
  let o : gmap string JSON := {[ "cond" := JString "asthma" ]} in
  let a := list_studies.mkArgs "asthma" None None None (Some (number_of_Z 20))
             (Some "json") None (Some "true") None in
  list_studies.shape o = Some a /\ is_Some (list_studies.pageSize a).
Proof.
  intros o a.
  assert (Hs : list_studies.shape o = Some a) by reflexivity.
  split; [exact Hs|].
  exact (proj1 (proj1 (validated_arguments_have_defaults_filled o) a Hs)).
Defined.

(** ** Keys the schema does not declare *)

Lemma request_url_insert_undeclared (t : ToolName) (o : gmap string JSON)
    (k : string) (v : JSON) :
  k ∉ tool_keys t ->
  request_url t (<[k:=v]> o) = request_url t o.
Proof.
  intros H. destruct t; simpl in H;
    rewrite !not_elem_of_cons in H; destruct_and!;
    unfold request_url, list_studies.shape, get_study.shape,
      specific_fields_in_study.shape;
    rewrite !lookup_insert_ne by congruence; reflexivity.
Qed.

(** X16: a key the schema of a tool does not declare changes nothing:
    whatever value the arguments give it, the URL requested and the whole
    call are those of the arguments without it. *)
Theorem undeclared_keys_are_ignored
    (fetch_outcome : string -> Error + Response)
    (JSON_parse : string -> option JSON) (t : ToolName)
    (o : gmap string JSON) (k : string) (v : JSON)
    (requests : list string) :
  k ∉ tool_keys t ->
  request_url t (<[k:=v]> o) = request_url t o
  /\ server_call fetch_outcome JSON_parse t (<[k:=v]> o) requests
     = server_call fetch_outcome JSON_parse t o requests.
Proof.
  intros H.
  pose proof (request_url_insert_undeclared t o k v H) as Hu.
  split; [exact Hu|].
  destruct t; [now apply server_call_request_url | |
               now apply server_call_request_url].
  simpl in H. rewrite !not_elem_of_cons in H. destruct_and!.
  unfold server_call, call_tool, get_study.shape.
  now rewrite lookup_insert_ne by congruence.
Qed.

Lemma undeclared_keys_are_ignored_witness :
  let o : gmap string JSON := {[ "nct_id" := JString "NCT04267848" ]} in
  request_url get_study_tool (<["cond" := JString "asthma"]> o)
  = Some "https://clinicaltrials.gov/api/v2/studies/NCT04267848".
Proof.
  intros o.
  assert (Hk : "cond" ∉ tool_keys get_study_tool)
    by (apply (bool_decide_unpack _); vm_compute; exact I).
  rewrite (proj1 (undeclared_keys_are_ignored
                    (fun _ => inl (TypeError "fetch failed")) (fun _ => None)
                    get_study_tool o "cond" (JString "asthma") [] Hk)).
  reflexivity.
Defined.

(** ** The query as the upstream service reads it *)

Lemma sent_tuples_toString (u : URL) :
  Percent.mem "?" (href_path u) = false ->
  sent_tuples (URL_toString u) = searchParams u.
Proof.
  intros Hp. unfold sent_tuples, URL_toString.
  destruct (searchParams u) as [|p l] eqn:E.
  - now rewrite href_query_none.
  - rewrite href_query_append by assumption. apply parse_serialize.
Qed.



Ltac each_truthy :=
  unfold opt_param;
  repeat match goal with
         | |- context [truthy ?x] => destruct (truthy x)
         end.

Ltac known_key :=
  let k := fresh "k" in
  let Hk := fresh "Hk" in
  intros k Hk;
  repeat (apply elem_of_cons in Hk; destruct Hk as [Hk|Hk];
          [subst k; apply (bool_decide_unpack _); vm_compute; exact I|]);
  apply elem_of_nil in Hk; contradiction.

Lemma list_studies_keys (a : list_studies.Args) :
  let keys := List.map fst (searchParams (list_studies.build a)) in
  NoDup keys
  /\ (4 <= length keys <= 9)%nat
  /\ (forall k, k ∈ keys -> k ∈ query_keys).
Proof.
  cbv zeta. rewrite list_studies_params. each_truthy;
    cbn [app List.map fst length]; (split; [|split]);
    try (apply (bool_decide_unpack _); vm_compute; exact I);
    try lia; known_key.
Qed.

Lemma specific_fields_keys (a : specific_fields_in_study.Args) :
  let keys := List.map fst (searchParams (specific_fields_in_study.build a)) in
  NoDup keys
  /\ (4 <= length keys <= 9)%nat
  /\ (forall k, k ∈ keys -> k ∈ query_keys).
Proof.
  cbv zeta. rewrite specific_fields_params. each_truthy;
    cbn [app List.map fst length]; (split; [|split]);
    try (apply (bool_decide_unpack _); vm_compute; exact I);
    try lia; known_key.
Qed.

(** X10: the query of the URL list_studies or specific_fields_in_study
    requests has no key twice, has between four and nine tuples, and has
    no key besides the nine of the list endpoint. *)
Theorem query_keys_are_distinct_and_known (t : ToolName)
    (o : gmap string JSON) (url : string) :
  t <> get_study_tool ->
  request_url t o = Some url ->
  let keys := List.map fst (sent_tuples url) in
  NoDup keys
  /\ (4 <= length keys <= 9)%nat
  /\ (forall k, k ∈ keys -> k ∈ query_keys).
Proof.
  intros Ht Hu. destruct t; [| congruence |]; simpl in Hu;
    apply fmap_Some in Hu as (a & _ & ->); cbv zeta.
  - rewrite sent_tuples_toString by now rewrite list_studies_path.
    apply list_studies_keys.
  - rewrite sent_tuples_toString by now rewrite specific_fields_path.
    apply specific_fields_keys.
Qed.

Lemma query_keys_are_distinct_and_known_witness :
  let o : gmap string JSON :=
    {[ "cond" := JString "a&pageSize=1000"; "fields" := JString "NCTId" ]} in
  let url := "https://clinicaltrials.gov/api/v2/studies"
     +:+ "?query.cond=a%26pageSize%3D1000&fields=NCTId"
     +:+ "&pageSize=20&format=json&countTotal=true" in
  request_url specific_fields_in_study_tool o = Some url
  /\ NoDup (List.map fst (sent_tuples url))
  /\ length (List.map fst (sent_tuples url)) = 5%nat.
Proof.
  intros o url.
  assert (Hu : request_url specific_fields_in_study_tool o = Some url)
    by reflexivity.
  assert (Ht : specific_fields_in_study_tool <> get_study_tool)
    by discriminate.
  destruct (query_keys_are_distinct_and_known specific_fields_in_study_tool
              o url Ht Hu) as (Hn & _ & _).
  split; [exact Hu|]. split; [exact Hn | reflexivity].
Defined.

(** ** The URL of get_study names one study *)

Lemma append_inj_l (p x y : string) : p +:+ x = p +:+ y -> x = y.
Proof.
  induction p as [|c p IH]; app_norm; intros H; [exact H|].
  injection H as H. now apply IH.
Qed.

(** X13: two identifiers for which get_study requests the same URL are the
    same identifier, the two identifiers made of dots set aside: the
    percent-encoding loses nothing, and [fetch] resolves a last segment
    that is [.] or [..] only. *)
Theorem get_study_request_names_one_study (o o' : gmap string JSON)
    (id id' url : string) :
  o !! "nct_id" = Some (JString id) ->
  o' !! "nct_id" = Some (JString id') ->
  request_url get_study_tool o = Some url ->
  request_url get_study_tool o' = Some url ->
  id <> "." -> id <> ".." -> id' <> "." -> id' <> ".." ->
  id = id'.
Proof.
  intros Ho Ho' Hu Hu' H1 H2 H1' H2'.
  rewrite (get_study_request_url o id Ho) in Hu.
  rewrite (get_study_request_url o' id' Ho') in Hu'.
  destruct (has_lone_surrogate id); [discriminate Hu|].
  destruct (has_lone_surrogate id'); [discriminate Hu'|].
  apply String.eqb_neq in H1, H2, H1', H2'.
  rewrite H1, H2 in Hu. rewrite H1', H2' in Hu'.
  injection Hu as <-. injection Hu' as Hu'.
  apply append_inj_l in Hu'.
  apply (f_equal Percent.decode) in Hu'.
  now rewrite !decode_encode in Hu' by reflexivity.
Qed.

Lemma get_study_request_names_one_study_witness :
  let o : gmap string JSON := {[ "nct_id" := JString "a/b" ]} in
  request_url get_study_tool o
  = Some "https://clinicaltrials.gov/api/v2/studies/a%2Fb"
  /\ "a/b" = "a/b".
Proof.
  intros o. split; [reflexivity|].
  apply (get_study_request_names_one_study o o "a/b" "a/b"
           "https://clinicaltrials.gov/api/v2/studies/a%2Fb");
    try reflexivity; discriminate.
Defined.

(** The identifier [.] and the empty one are requested at the same URL. *)
Example get_study_dot_and_empty_meet :
  request_url get_study_tool {[ "nct_id" := JString "." ]}
  = request_url get_study_tool {[ "nct_id" := JString EmptyString ]}.
Proof. reflexivity. Qed.

(** ** The characters of a requested URL *)

Lemma form_encode_byte_url_chars (c : ascii) :
  string_forallb url_char (URLSearchParams.form_encode_byte c) = true.
Proof. each_byte c; reflexivity. Qed.

Lemma form_encode_url_chars (s : string) :
  string_forallb url_char (URLSearchParams.form_encode s) = true.
Proof.
  induction s as [|c s IH]; [reflexivity|].
  simpl URLSearchParams.form_encode.
  now rewrite string_forallb_append, form_encode_byte_url_chars, IH.
Qed.

Lemma encodeURIComponent_url_chars (s : string) :
  string_forallb url_char (Percent.encode uri_unreserved s) = true.
Proof.
  induction s as [|c s IH]; [reflexivity|].
  simpl Percent.encode. rewrite string_forallb_append, IH, andb_true_r.
  each_byte c; reflexivity.
Qed.

Lemma serialize_url_chars (l : URLSearchParams.t) :
  string_forallb url_char (URLSearchParams.serialize l) = true.
Proof.
  unfold URLSearchParams.serialize.
  induction l as [|p [|q r] IH]; [reflexivity| |].
  - simpl. unfold URLSearchParams.serialize_tuple.
    now rewrite !string_forallb_append, !form_encode_url_chars.
  - change (URLSearchParams.join "&"
              (List.map URLSearchParams.serialize_tuple (p :: q :: r)))
      with (URLSearchParams.serialize_tuple p +:+ "&"
              +:+ URLSearchParams.join "&"
                    (List.map URLSearchParams.serialize_tuple (q :: r))).
    rewrite !string_forallb_append, IH.
    unfold URLSearchParams.serialize_tuple.
    now rewrite !string_forallb_append, !form_encode_url_chars.
Qed.

Lemma URL_toString_url_chars (u : URL) :
  string_forallb url_char (href_path u) = true ->
  string_forallb url_char (URL_toString u) = true.
Proof.
  intros Hp. unfold URL_toString.
  destruct (searchParams u) as [|p l]; [exact Hp|].
  now rewrite !string_forallb_append, Hp, serialize_url_chars.
Qed.

(** X14: whatever bytes the arguments hold, the URL a tool requests is
    written with letters, digits and the marks [- _ . ! ~ * ' ( ) % + : / ?
    = &] only: no space, no quote, no control character and no byte
    outside ASCII reaches [fetch]. *)
Theorem requested_url_is_plain_ascii (t : ToolName) (o : gmap string JSON)
    (url : string) :
  request_url t o = Some url ->
  string_forallb url_char url = true.
Proof.
  intros Hu. destruct t.
  - simpl in Hu. apply fmap_Some in Hu as (a & _ & ->).
    apply URL_toString_url_chars. now rewrite list_studies_path.
  - destruct (o !! "nct_id") as [v|] eqn:Ho;
      [destruct v as [ | | |id| | ]|];
      try (unfold request_url, get_study.shape in Hu; rewrite Ho in Hu;
           discriminate Hu).
    rewrite (get_study_request_url o id Ho) in Hu.
    destruct (has_lone_surrogate id); [discriminate Hu|].
    injection Hu as <-.
    destruct (String.eqb id ".."); [reflexivity|].
    destruct (String.eqb id "."); [reflexivity|].
    now rewrite string_forallb_append, encodeURIComponent_url_chars.
  - simpl in Hu. apply fmap_Some in Hu as (a & _ & ->).
    apply URL_toString_url_chars. now rewrite specific_fields_path.
Qed.

Lemma requested_url_is_plain_ascii_witness :
  let o : gmap string JSON :=
    {[ "nct_id" := JString (String (ascii_of_N 195)
                              (String (ascii_of_N 169) " 1")) ]} in
  let url := "https://clinicaltrials.gov/api/v2/studies/%C3%A9%201" in
  request_url get_study_tool o = Some url
  /\ string_forallb url_char url = true.
Proof.
  intros o url.
  assert (Hu : request_url get_study_tool o = Some url) by reflexivity.
  split; [exact Hu|].
  exact (requested_url_is_plain_ascii get_study_tool o url Hu).
Defined.

(** ** The two list tools on the same arguments *)

Lemma specific_fields_same_url (a : specific_fields_in_study.Args) :
  specific_fields_in_study.fields a <> EmptyString ->
  truthy (specific_fields_in_study.term a) = false ->
  truthy (specific_fields_in_study.locn a) = false ->
  truthy (specific_fields_in_study.overallStatus a) = false ->
  URL_toString (list_studies.build (as_list_studies a))
  = URL_toString (specific_fields_in_study.build a).
Proof.
  intros Hf Ht Hl Ho. unfold URL_toString.
  rewrite list_studies_path, specific_fields_path.
  rewrite list_studies_params, specific_fields_params.
  destruct a as [cond fields term locn overallStatus pageSize format
                 countTotal pageToken].
  simpl in *. unfold opt_param. rewrite Ht, Hl, Ho.
  destruct fields as [|c fields]; [congruence|]. reflexivity.
Qed.

Lemma left_out_not_truthy (v : option JSON) (x : option string) :
  z_optional z_string v = Some x -> left_out v -> truthy x = false.
Proof.
  intros H [-> | ->]; simpl in H; injection H as <-; reflexivity.
Qed.

(** X15: on arguments where [fields] is a non-empty text and [term],
    [locn] and [overallStatus] are left out or empty, list_studies and
    specific_fields_in_study are the same call: the same request and,
    whatever the upstream service answers, the same outcome. *)
Theorem list_tools_agree_without_filters
    (fetch_outcome : string -> Error + Response)
    (JSON_parse : string -> option JSON)
    (o : gmap string JSON) (f : string) (requests : list string) :
  is_Some (request_url specific_fields_in_study_tool o) ->
  o !! "fields" = Some (JString f) ->
  f <> EmptyString ->
  left_out (o !! "term") ->
  left_out (o !! "locn") ->
  left_out (o !! "overallStatus") ->
  request_url list_studies_tool o
  = request_url specific_fields_in_study_tool o
  /\ server_call fetch_outcome JSON_parse list_studies_tool o requests
     = server_call fetch_outcome JSON_parse specific_fields_in_study_tool
         o requests.
Proof.
  intros [url Hu] Hfields Hf Ht Hl Ho.
  simpl in Hu. apply fmap_Some in Hu as (a & Hs & ->).
  assert (Hfa : specific_fields_in_study.fields a = f).
  { pose proof Hs as Hs'. unfold specific_fields_in_study.shape in Hs'.
    invert_shape Hs'.
    match goal with
    | E : z_string (o !! "fields") = Some _ |- _ =>
        rewrite Hfields in E; simpl in E; congruence
    end. }
  assert (Hurl : URL_toString (list_studies.build (as_list_studies a))
                 = URL_toString (specific_fields_in_study.build a)).
  { apply specific_fields_same_url.
    - now rewrite Hfa.
    - apply (left_out_not_truthy (o !! "term")); [|exact Ht].
      apply (specific_fields_shape_optional o a opt_term Hs). discriminate.
    - apply (left_out_not_truthy (o !! "locn")); [|exact Hl].
      apply (specific_fields_shape_optional o a opt_locn Hs). discriminate.
    - apply (left_out_not_truthy (o !! "overallStatus")); [|exact Ho].
      apply (specific_fields_shape_optional o a opt_overallStatus Hs).
      discriminate. }
  assert (Hl' : request_url list_studies_tool o
                = Some (URL_toString (specific_fields_in_study.build a))).
  { simpl. rewrite (specific_fields_shape_list_studies o a Hs). simpl.
    now rewrite Hurl. }
  assert (Hs' : request_url specific_fields_in_study_tool o
                = Some (URL_toString (specific_fields_in_study.build a))).
  { simpl. now rewrite Hs. }
  split; [now rewrite Hl', Hs'|].
  rewrite (server_call_relay _ _ _ _ _ _ Hl').
  now rewrite (server_call_relay _ _ _ _ _ _ Hs').
Qed.

Lemma list_tools_agree_without_filters_witness :
  let o : gmap string JSON :=
    {[ "cond" := JString "asthma"; "fields" := JString "NCTId";
       "term" := JString EmptyString; "pageToken" := JString "abc" ]} in
  request_url list_studies_tool o
  = request_url specific_fields_in_study_tool o
  /\ request_url list_studies_tool o
     = Some ("https://clinicaltrials.gov/api/v2/studies?query.cond=asthma"
               +:+ "&fields=NCTId&pageToken=abc"
               +:+ "&pageSize=20&format=json&countTotal=true").
Proof.
  intros o. split; [|reflexivity].
  apply (list_tools_agree_without_filters
           (fun _ => inl (TypeError "fetch failed")) (fun _ => None)
           o "NCTId" []).
  - eexists. reflexivity.
  - reflexivity.
  - discriminate.
  - right. reflexivity.
  - left. reflexivity.
  - left. reflexivity.
Defined.

(** ** The required parameters of specific_fields_in_study *)



